(** * static_frame: Frame, FrameGO, FrameAssign and IterNodeDelegate

    A shallow embedding of [static_frame/core/frame.py] and
    [static_frame/core/iter_node.py].  Python exceptions are values of
    [exception] carried by the [result] monad; the grow-only frame is
    modelled by explicit state passing; the classes [Index], [Series],
    [TypeBlocks] and the helpers of [static_frame.core.util], whose code is
    not part of the verified files, are modelled from the specification. *)

From Stdlib Require Import ZArith.
From stdpp Require Import base option list strings sorting gmap.

Local Open Scope Z_scope.
Local Open Scope nat_scope.

(** ** Exceptions and the result monad *)

Inductive exception :=
| RuntimeError (msg : string)
| KeyError (msg : string)
| Exception_ (msg : string)
| NotImplementedError (msg : string)
| IndexError
| ValueError
| TypeError
| ConstructionError
| ShapeError.

Inductive result (A : Type) :=
| Ok (a : A)
| Raise (e : exception).
Arguments Ok {A} a.
Arguments Raise {A} e.

Global Instance result_ret : MRet result := λ A a, Ok a.
Global Instance result_bind : MBind result := λ A B f m,
  match m with
  | Ok a => f a
  | Raise e => Raise e
  end.
Global Instance result_fmap : FMap result := λ A B f m,
  match m with
  | Ok a => Ok (f a)
  | Raise e => Raise e
  end.

Definition is_runtime_error {A} (r : result A) : Prop :=
  match r with
  | Raise (RuntimeError _) => True
  | _ => False
  end.

Definition or_raise {A} (e : exception) (o : option A) : result A :=
  match o with
  | Some a => Ok a
  | None => Raise e
  end.

(** ** Labels and element values *)

Inductive label :=
| LInt (z : Z)
| LStr (s : string).

Global Instance label_eq_dec : EqDecision label.
Proof. solve_decision. Defined.

Inductive element :=
| VInt (z : Z)
| VStr (s : string)
| VBool (b : bool)
| VNaN
| VNone.

Global Instance element_eq_dec : EqDecision element.
Proof. solve_decision. Defined.

Inductive dtype := DBool | DInt | DFloat | DStr | DObject.

Global Instance dtype_eq_dec : EqDecision dtype.
Proof. solve_decision. Defined.

(** Modelled from the spec: [resolve_dtype] of [static_frame.core.util],
    missing from the verified files.  Equal types are kept, integers widen
    to floating point, every other pair falls back to the object type. *)
Definition resolve_dtype (a b : dtype) : dtype :=
  if decide (a = b) then a
  else match a, b with
       | DInt, DFloat | DFloat, DInt => DFloat
       | DBool, DInt | DInt, DBool => DInt
       | DBool, DFloat | DFloat, DBool => DFloat
       | _, _ => DObject
       end.

Definition dtype_of_value (v : element) : dtype :=
  match v with
  | VInt _ => DInt
  | VStr _ => DStr
  | VBool _ => DBool
  | VNaN => DFloat
  | VNone => DObject
  end.

(** ** Selection keys

    [GetItemKeyType] in position space: [None], an integer, a slice, a list
    of integers or a Boolean array. *)

Inductive GetItemKeyType :=
| KNone
| KInt (i : Z)
| KSlice (start stop step : option Z)
| KList (l : list Z)
| KMask (m : list bool).

Definition NULL_SLICE : GetItemKeyType := KSlice None None None.

Global Instance GetItemKeyType_eq_dec : EqDecision GetItemKeyType.
Proof. solve_decision. Defined.

(** [isinstance(key, KEY_MULTIPLE_TYPES)]: slice, list, array. *)
Definition is_multiple (key : GetItemKeyType) : bool :=
  match key with
  | KSlice _ _ _ | KList _ | KMask _ => true
  | KNone | KInt _ => false
  end.

Definition is_slice (key : GetItemKeyType) : bool :=
  match key with
  | KSlice _ _ _ => true
  | _ => false
  end.

(** A Python position [i] on an axis of length [n]; negative positions
    count from the end. *)
Definition norm_pos (n : nat) (i : Z) : result nat :=
  if decide (0 ≤ i < Z.of_nat n)%Z then Ok (Z.to_nat i)
  else if decide (- Z.of_nat n ≤ i < 0)%Z then Ok (Z.to_nat (Z.of_nat n + i))
  else Raise IndexError.

Definition clamp (lo hi : Z) (n : Z) (x : Z) : Z :=
  if decide (x < 0)%Z then Z.max (x + n) lo else Z.min x hi.

(** The positions of [slice(start, stop, step).indices(n)], as a range. *)
Definition slice_positions (start stop step : option Z) (n : nat)
  : result (list nat) :=
  let len := Z.of_nat n in
  let st := default 1%Z step in
  if decide (st = 0)%Z then Raise ValueError
  else if decide (0 < st)%Z then
    let s := from_option (clamp 0 len len) 0%Z start in
    let e := from_option (clamp 0 len len) len stop in
    let count := if decide (s < e)%Z then Z.to_nat ((e - s + st - 1) / st) else 0 in
    Ok ((λ k, Z.to_nat (s + Z.of_nat k * st)) <$> seq 0 count)
  else
    let s := from_option (clamp (-1) (len - 1) len) (len - 1)%Z start in
    let e := from_option (clamp (-1) (len - 1) len) (-1)%Z stop in
    let count := if decide (e < s)%Z then Z.to_nat ((s - e - st - 1) / (- st)) else 0 in
    Ok ((λ k, Z.to_nat (s + Z.of_nat k * st)) <$> seq 0 count).

Definition mask_positions (m : list bool) : list nat :=
  (λ p, p.1) <$> filter (λ p, p.2 = true) (imap (λ i b, (i, b)) m).

(** The positions a key selects on an axis of length [n], in result order. *)
Definition select (n : nat) (key : GetItemKeyType) : result (list nat) :=
  match key with
  | KNone => Ok (seq 0 n)
  | KInt i => p ← norm_pos n i; Ok [p]
  | KSlice start stop step => slice_positions start stop step n
  | KList l => mapM (norm_pos n) l
  | KMask m => if decide (length m = n) then Ok (mask_positions m) else Raise IndexError
  end.

(** ** Label Index *)

(** Modelled from the spec: [Index] and [IndexGO] are missing from the
    verified files.  A Label Index is an ordered sequence of unique labels;
    the static and the grow-only variant differ in the [STATIC] flag. *)
Record IndexBase := {
  labels : list label;
  STATIC : bool
}.

(** Modelled from the spec: the constructor shared by [Index] and
    [IndexGO], missing from the verified files; it fails on a duplicate
    label. *)
Definition Index_init (static : bool) (ls : list label) : result IndexBase :=
  if decide (NoDup ls) then Ok {| labels := ls; STATIC := static |}
  else Raise ConstructionError.

(** What the constructors accept as [index] or [columns]: nothing, an
    iterable of labels, or an index object.  [InitLabel] is a bare label,
    which [Index._extract_iloc] returns for an integer key. *)
Inductive IndexInitializer :=
| InitNone
| InitLabels (ls : list label)
| InitIndex (ix : IndexBase)
| InitLabel (l : label).

(** Modelled from the spec: [Index(initializer)] and [IndexGO(initializer)],
    which rebuild an index from the labels of their argument. *)
Definition Index_from (static : bool) (init : IndexInitializer) : result IndexBase :=
  match init with
  | InitLabels ls => Index_init static ls
  | InitIndex ix => Index_init static (labels ix)
  | InitNone | InitLabel _ => Raise TypeError
  end.

(** Modelled from the spec: [Index(range(n), loc_is_iloc=True,
    dtype=np.int64)], the default index over [n] positions. *)
Definition Index_range (static : bool) (n : nat) : result IndexBase :=
  Index_init static ((λ k, LInt (Z.of_nat k)) <$> seq 0 n).

(** Modelled from the spec: [position_of(label)], the label to position
    direction of the index. *)
Definition position_of (ix : IndexBase) (l : label) : option nat :=
  fst <$> list_find (λ x, x = l) (labels ix).

(** Modelled from the spec: [key in index], the membership test of
    [Index], missing from the verified files. *)
Definition Index_contains (ix : IndexBase) (l : label) : bool :=
  bool_decide (l ∈ labels ix).

(** Keys in label space: a single label, a slice of labels (inclusive of
    both bounds), a list of labels, a Boolean array. *)
Inductive LocKeyType :=
| LocLabel (l : label)
| LocSlice (start stop : option label)
| LocList (ls : list label)
| LocMask (m : list bool).

(** A possibly compound key: a bare key or a tuple of keys. *)
Inductive Compound (K : Type) :=
| One (k : K)
| Tuple (ks : list K).
Arguments One {K} k.
Arguments Tuple {K} ks.

(** Modelled from the spec: the position of one label inside
    [Index.loc_to_iloc]; an absent label is a [KeyError]. *)
Definition label_position (ix : IndexBase) (l : label) : result nat :=
  or_raise (KeyError "label not found") (position_of ix l).

(** Modelled from the spec: [positions_of(key)], here [Index.loc_to_iloc];
    a label slice becomes the equivalent position slice. *)
Definition loc_to_iloc (ix : IndexBase) (key : LocKeyType) : result GetItemKeyType :=
  match key with
  | LocLabel l => p ← label_position ix l; Ok (KInt (Z.of_nat p))
  | LocSlice start stop =>
      s ← match start with
          | None => Ok None
          | Some l => p ← label_position ix l; Ok (Some (Z.of_nat p))
          end;
      e ← match stop with
          | None => Ok None
          | Some l => p ← label_position ix l; Ok (Some (Z.of_nat p + 1)%Z)
          end;
      Ok (KSlice s e None)
  | LocList ls => ps ← mapM (label_position ix) ls; Ok (KList (Z.of_nat <$> ps))
  | LocMask m => Ok (KMask m)
  end.

(** Modelled from the spec: the labels of an [Index] at a list of
    positions, as [Index._extract_iloc] takes them. *)
Definition labels_at (ls : list label) (ps : list nat) : result (list label) :=
  mapM (λ p, or_raise IndexError (ls !! p)) ps.

(** Modelled from the spec: [Index._extract_iloc(key)]; [None] returns the
    index itself, an integer the label at that position, every other key a
    new index of the selected labels. *)
Definition Index_extract_iloc (ix : IndexBase) (key : GetItemKeyType)
  : result IndexInitializer :=
  match key with
  | KNone => Ok (InitIndex ix)
  | KInt i =>
      p ← norm_pos (length (labels ix)) i;
      l ← or_raise IndexError (labels ix !! p);
      Ok (InitLabel l)
  | _ =>
      ps ← select (length (labels ix)) key;
      ls ← labels_at (labels ix) ps;
      ix' ← Index_init (STATIC ix) ls;
      Ok (InitIndex ix')
  end.

(** Modelled from the spec: [immutable_index_filter] of
    [static_frame.core.util], missing from the verified files; a grow-only
    index is frozen, a static one is returned as it is. *)
Definition immutable_index_filter (ix : IndexBase) : IndexBase :=
  {| labels := labels ix; STATIC := true |}.

(** ** Arrays and the Block Store *)

(** A NumPy array of one or two dimensions, stored column by column.  A
    block of a [TypeBlocks] is such an array: a typed buffer of one column
    (1D) or of several adjacent columns (2D). *)
Record ndarray := {
  a_dtype : dtype;
  a_ndim : nat;
  a_rows : nat;
  a_columns : list (list element)
}.

Definition width (a : ndarray) : nat := length (a_columns a).

(** Modelled from the spec: [column_2d_filter] of [static_frame.core.util],
    missing from the verified files; a one-dimensional array becomes a
    two-dimensional array of one column. *)
Definition column_2d_filter (a : ndarray) : ndarray :=
  {| a_dtype := a_dtype a; a_ndim := 2; a_rows := a_rows a; a_columns := a_columns a |}.

(** Modelled from the spec: [column_1d_filter] of [static_frame.core.util],
    missing from the verified files; a two-dimensional array of one column
    becomes one-dimensional. *)
Definition column_1d_filter (a : ndarray) : ndarray :=
  {| a_dtype := a_dtype a; a_ndim := 1; a_rows := a_rows a; a_columns := a_columns a |}.

(** [np.full(shape, element)] *)
Definition np_full (shape : nat * nat) (v : element) : ndarray :=
  {| a_dtype := dtype_of_value v; a_ndim := 2; a_rows := shape.1;
     a_columns := replicate shape.2 (replicate shape.1 v) |}.

(** Modelled from the spec: the state of a [TypeBlocks], missing from the
    verified files; its buffers and its total shape. *)
Record TypeBlocks := {
  blocks : list ndarray;
  shape : nat * nat
}.

(** Modelled from the spec: [from_blocks] validates a uniform row count
    across the buffers and derives the shape from them. *)
Definition TypeBlocks_from_blocks (bs : list ndarray) : result TypeBlocks :=
  match bs with
  | [] => Ok {| blocks := []; shape := (0, 0) |}
  | b :: _ =>
      if forallb (λ x, bool_decide (a_rows x = a_rows b)) bs
      then Ok {| blocks := bs; shape := (a_rows b, sum_list (width <$> bs)) |}
      else Raise ShapeError
  end.

(** Modelled from the spec: [TypeBlocks.from_none(shape)], a store without
    buffers. *)
Definition TypeBlocks_from_none (sh : nat * nat) : TypeBlocks :=
  {| blocks := []; shape := sh |}.

(** Modelled from the spec: [TypeBlocks.copy()], a new store over the same
    immutable buffers. *)
Definition TypeBlocks_copy (tb : TypeBlocks) : TypeBlocks :=
  {| blocks := blocks tb; shape := shape tb |}.

(** Modelled from the spec: the columns of a [TypeBlocks] from left to
    right, each with the type of its block. *)
Definition typed_columns (tb : TypeBlocks) : list (dtype * list element) :=
  b ← blocks tb; (λ c, (a_dtype b, c)) <$> a_columns b.

(** Modelled from the spec: the columns of a [TypeBlocks] without their
    types. *)
Definition tb_columns (tb : TypeBlocks) : list (list element) :=
  snd <$> typed_columns tb.

(** Modelled from the spec: the element of a [TypeBlocks] at a row and a
    column position. *)
Definition cell (tb : TypeBlocks) (r c : nat) : option element :=
  col ← tb_columns tb !! c; col !! r.

(** Modelled from the spec: [TypeBlocks.values], one two-dimensional array
    of a resolved type. *)
Definition tb_values (tb : TypeBlocks) : ndarray :=
  {| a_dtype := match fst <$> typed_columns tb with
                | [] => DFloat
                | d :: ds => foldl resolve_dtype d ds
                end;
     a_ndim := 2; a_rows := (shape tb).1; a_columns := tb_columns tb |}.

(** [array[r]] for a two-dimensional array [array]: its row [r]. *)
Definition array_row (a : ndarray) (r : nat) : result (list element) :=
  mapM (λ col, or_raise IndexError (col !! r)) (a_columns a).

Definition key_is_none (key : GetItemKeyType) : bool :=
  match key with
  | KNone => true
  | _ => false
  end.

(** Modelled from the spec: the rows of a column that the row key of
    [TypeBlocks._extract] selects; [None] keeps the column as it is. *)
Definition take_rows (rk : GetItemKeyType) (rows : list nat) (col : list element)
  : result (list element) :=
  if key_is_none rk then Ok col
  else mapM (λ r, or_raise IndexError (col !! r)) rows.

(** Modelled from the spec: a buffer of a [TypeBlocks] cut along the
    rows. *)
Definition block_rows (rk : GetItemKeyType) (rows : list nat) (b : ndarray)
  : result ndarray :=
  if key_is_none rk then Ok b
  else
    cs ← mapM (take_rows rk rows) (a_columns b);
    Ok {| a_dtype := a_dtype b; a_ndim := a_ndim b; a_rows := length rows;
          a_columns := cs |}.

(** Modelled from the spec: the column of a [TypeBlocks] at position [c]
    as a buffer of its own. *)
Definition block_of_column (tb : TypeBlocks) (rk : GetItemKeyType) (rows : list nat)
    (c : nat) : result ndarray :=
  tc ← or_raise IndexError (typed_columns tb !! c);
  col ← take_rows rk rows tc.2;
  Ok {| a_dtype := tc.1; a_ndim := 1; a_rows := length col; a_columns := [col] |}.

Inductive Extracted :=
| Element (v : element)
| Blocks (tb : TypeBlocks).

(** Modelled from the spec: the store that [TypeBlocks._extract] builds
    for a selection; without a column key every block is kept and cut along
    the rows, with one the blocks are cut column-wise. *)
Definition extract_blocks (tb : TypeBlocks) (row_key column_key : GetItemKeyType)
    (rows cols : list nat) : result Extracted :=
  bs ← (if key_is_none column_key
        then mapM (block_rows row_key rows) (blocks tb)
        else mapM (block_of_column tb row_key rows) cols);
  Ok (Blocks {| blocks := bs; shape := (length rows, length cols) |}).

(** Modelled from the spec: [extract(row_key, column_key)] returns a scalar
    when both keys are single positions, otherwise a new store restricted to
    the selection; a column key cuts the blocks column-wise. *)
Definition TypeBlocks_extract (tb : TypeBlocks) (row_key column_key : GetItemKeyType)
  : result Extracted :=
  rows ← select (shape tb).1 row_key;
  cols ← select (shape tb).2 column_key;
  match row_key, column_key with
  | KInt _, KInt _ =>
      v ← or_raise IndexError (r ← head rows; c ← head cols; cell tb r c);
      Ok (Element v)
  | _, _ => extract_blocks tb row_key column_key rows cols
  end.

(** ** Series *)

(** Modelled from the spec: [Series] is missing from the verified files.  A
    labelled one-dimensional vector: its values, its index and its name. *)
Record Series := {
  s_values : list element;
  s_index : IndexBase;
  s_name : option label
}.

(** Modelled from the spec: [Series(values, index=index, name=name)],
    missing from the verified files; a static index object is taken as it
    is, anything else goes through the [Index] constructor. *)
Definition Series_init (values : list element) (index : IndexInitializer)
    (name : option label) : result Series :=
  ix ← match index with
       | InitIndex ix => if STATIC ix then Ok ix else Index_init true (labels ix)
       | InitLabels ls => Index_init true ls
       | InitNone => Index_range true (length values)
       | InitLabel _ => Raise TypeError
       end;
  Ok {| s_values := values; s_index := ix; s_name := name |}.

(** ** Frame *)

Inductive FrameClass := Frame_cls | FrameGO_cls.

(** [cls._COLUMN_CONSTRUCTOR.STATIC]: [Index] for [Frame], [IndexGO] for
    [FrameGO]. *)
Definition COLUMN_CONSTRUCTOR_STATIC (c : FrameClass) : bool :=
  match c with
  | Frame_cls => true
  | FrameGO_cls => false
  end.

Record Frame := {
  cls : FrameClass;
  _blocks : TypeBlocks;
  _columns : IndexBase;
  _index : IndexBase;
  _name : option label
}.

(** The [data] argument of the constructor.  [DataElement] is an object
    without [__len__] that is not a string; [DataSequence a] is any other
    object, given with the array [np.array(data)] builds from it. *)
Inductive FrameInitializer :=
| DataBlocks (tb : TypeBlocks)
| DataArray (a : ndarray)
| DataDict
| DataNone
| DataElement (v : element)
| DataSequence (a : ndarray).

Definition is_none (init : IndexInitializer) : bool :=
  match init with
  | InitNone => true
  | _ => false
  end.

(** [hasattr(x, '__len__') and len(x) == 0] *)
Definition is_empty (init : IndexInitializer) : bool :=
  match init with
  | InitLabels ls => bool_decide (ls = [])
  | InitIndex ix => bool_decide (labels ix = [])
  | InitNone | InitLabel _ => false
  end.

(** [hasattr(x, STATIC_ATTR) and x.STATIC] *)
Definition is_static (init : IndexInitializer) : bool :=
  match init with
  | InitIndex ix => STATIC ix
  | _ => false
  end.

(** An argument passed with [own_index] or [own_columns], or a static
    index, is stored as it is; every caller in this module passes an index
    object there, and the model reports a type error for anything else. *)
Definition owned (init : IndexInitializer) : result IndexBase :=
  match init with
  | InitIndex ix => Ok ix
  | _ => Raise TypeError
  end.

(** The index assignment of [Frame.__init__] for one axis, with the count
    of the store along that axis if the store is known.  [static] is the
    class of the index to build ([Index] for the rows, the column
    constructor for the columns); a static index object is shared when
    [shared] allows it. *)
Definition assign_index (static shared own : bool) (init : IndexInitializer)
    (count : option nat) : result (IndexBase * option nat) :=
  if own || (is_static init && shared) then
    (* if it is a STATIC index we can assign directly *)
    ix ← owned init; Ok (ix, count)
  else if is_none init || is_empty init then
    let n := default 0 count in
    ix ← Index_range static n; Ok (ix, Some n)
  else
    ix ← Index_from static init; Ok (ix, count).

(** The size checks that end [Frame.__init__]. *)
Definition size_checks (c : FrameClass) (self_blocks : TypeBlocks)
    (self_columns self_index : IndexBase) (name : option label)
    (row_count col_count : nat) : result Frame :=
  if bool_decide (row_count ≠ 0) && bool_decide (length (labels self_index) ≠ row_count)
  then Raise (RuntimeError "Index has incorrect size")
  else if bool_decide (length (labels self_columns) ≠ col_count)
  then Raise (RuntimeError "Columns has incorrect size")
  else Ok {| cls := c; _blocks := self_blocks; _columns := self_columns;
             _index := self_index; _name := name |}.

(** [Frame.__init__] *)
Definition Frame_init (c : FrameClass) (data : FrameInitializer)
    (index columns : IndexInitializer) (name : option label)
    (own_data own_index own_columns : bool) : result Frame :=
  (* blocks assignment: the store, or a constructor waiting for the shape *)
  pre ← match data with
        | DataBlocks tb =>
            if own_data then Ok (inl tb)
            else inl <$> TypeBlocks_from_blocks (blocks tb)
        | DataArray a => inl <$> TypeBlocks_from_blocks [a]
        | DataDict =>
            Raise (RuntimeError "use Frame.from_dict to create a Frmae from a dict")
        | DataNone =>
            if is_none columns || is_none index
            then Ok (inr (λ sh, Ok (TypeBlocks_from_none sh)))
            else Ok (inr (λ sh, TypeBlocks_from_blocks [np_full sh VNone]))
        | DataElement v =>
            Ok (inr (λ sh, TypeBlocks_from_blocks [np_full sh v]))
        | DataSequence a => inl <$> TypeBlocks_from_blocks [a]
        end;
  let '(row_count, col_count) :=
    match pre with
    | inl tb => (Some (shape tb).1, Some (shape tb).2)
    | inr _ => (None, None)
    end in
  (* index assignment *)
  cc ← assign_index (COLUMN_CONSTRUCTOR_STATIC c) (COLUMN_CONSTRUCTOR_STATIC c)
         own_columns columns col_count;
  let '(self_columns, col_count) := cc in
  rc ← assign_index true true own_index index row_count;
  let '(self_index, row_count) := rc in
  sized ← match pre with
          | inl tb => Ok (tb, default 0 row_count, default 0 col_count)
          | inr blocks_constructor =>
              let row_count := length (labels self_index) in
              let col_count := length (labels self_columns) in
              tb ← blocks_constructor (row_count, col_count);
              Ok (tb, row_count, col_count)
          end;
  let '(self_blocks, row_count, col_count) := sized in
  size_checks c self_blocks self_columns self_index name row_count col_count.

(** [Frame._extract_axis_not_multi] *)
Definition _extract_axis_not_multi (row_key column_key : GetItemKeyType)
  : bool * bool :=
  let row_nm := negb (key_is_none row_key) && negb (is_multiple row_key) in
  let column_nm := negb (key_is_none column_key) && negb (is_multiple column_key) in
  (row_nm, column_nm).

(** What an extraction returns: an element, a Series or a Frame. *)
Inductive Extraction :=
| RElement (v : element)
| RSeries (s : Series)
| RFrame (f : Frame).

(** Modelled from the spec: [index.values[key]] as [Frame._extract] uses it
    for the name of a Series, the label at an integer key. *)
Definition name_at (ix : IndexBase) (key : GetItemKeyType) : result (option label) :=
  match key with
  | KInt i =>
      p ← norm_pos (length (labels ix)) i;
      l ← or_raise IndexError (labels ix !! p);
      Ok (Some l)
  | _ => Ok None
  end.

(** The index and the name an axis key selects in [Frame._extract]. *)
Definition axis_index (ix : IndexBase) (key : GetItemKeyType)
  : result (IndexInitializer * option label) :=
  let key_is_slice := is_slice key in
  if key_is_none key || (key_is_slice && bool_decide (key = NULL_SLICE)) then
    Ok (InitIndex ix, None)
  else
    index ← Index_extract_iloc ix key;
    name ← (if key_is_slice then Ok None else name_at ix key);
    Ok (index, name).

Definition filter_initializer (init : IndexInitializer) : IndexInitializer :=
  match init with
  | InitIndex ix => InitIndex (immutable_index_filter ix)
  | _ => init
  end.

(** The end of [Frame._extract]: by the shape of the extracted store and
    the axes that are not multiple, a Series along the remaining axis or a
    Frame. *)
Definition collapse (self : Frame) (blocks_ : TypeBlocks)
    (index columns : IndexInitializer) (name_row name_column : option label)
    (axis_nm : bool * bool) (own_index own_columns : bool) : result Extraction :=
  let as_frame :=
    RFrame <$> Frame_init (cls self) (DataBlocks blocks_) index columns
                 (_name self) true own_index own_columns in
  let row_series :=
    vs ← array_row (tb_values blocks_) 0;
    RSeries <$> Series_init vs (filter_initializer columns) name_row in
  if bool_decide (shape blocks_ = (1, 1)) then
    (* if TypeBlocks did not return an element, need to determine which axis
       to use for Series index *)
    if axis_nm.1 then row_series
    else if axis_nm.2 then
      vs ← array_row (tb_values blocks_) 0;
      RSeries <$> Series_init vs index name_column
    else as_frame
  else if bool_decide ((shape blocks_).1 = 1) then (* if one row *)
    if axis_nm.1 then row_series else as_frame
  else if bool_decide ((shape blocks_).2 = 1) then (* if one column *)
    if axis_nm.2 then
      b ← or_raise IndexError (head (blocks blocks_));
      vs ← or_raise IndexError (head (a_columns (column_1d_filter b)));
      RSeries <$> Series_init vs index name_column
    else as_frame
  else as_frame.

(** [Frame._extract] *)
Definition _extract (self : Frame) (row_key column_key : GetItemKeyType)
  : result Extraction :=
  ex ← TypeBlocks_extract (_blocks self) row_key column_key;
  match ex with
  | Element v => Ok (RElement v) (* reduced to an element *)
  | Blocks blocks_ =>
      let own_index := true in (* the extracted Frame can always own this index *)
      ri ← axis_index (_index self) row_key;
      let '(index, name_row) := ri in
      (* can only own columns if _COLUMN_CONSTRUCTOR is static *)
      ci ← axis_index (_columns self) column_key;
      let '(columns, name_column) := ci in
      let own_columns :=
        if key_is_none column_key
           || (is_slice column_key && bool_decide (column_key = NULL_SLICE))
        then COLUMN_CONSTRUCTOR_STATIC (cls self) else true in
      let axis_nm := _extract_axis_not_multi row_key column_key in
      collapse self blocks_ index columns name_row name_column axis_nm
        own_index own_columns
  end.

(** [Frame._extract_iloc] *)
Definition _extract_iloc (self : Frame) (key : Compound GetItemKeyType)
  : result Extraction :=
  match key with
  | Tuple [] => _extract self KNone KNone
  | Tuple [row_key] => _extract self row_key KNone
  | Tuple [row_key; column_key] => _extract self row_key column_key
  | Tuple _ => Raise TypeError
  | One k => _extract self k KNone
  end.

(** [Frame._compound_loc_to_iloc] *)
Definition _compound_loc_to_iloc (self : Frame) (key : Compound LocKeyType)
  : result (GetItemKeyType * GetItemKeyType) :=
  match key with
  | Tuple [loc_row_key; loc_column_key] =>
      iloc_column_key ← loc_to_iloc (_columns self) loc_column_key;
      iloc_row_key ← loc_to_iloc (_index self) loc_row_key;
      Ok (iloc_row_key, iloc_column_key)
  | Tuple _ => Raise ValueError (* the tuple does not unpack into two keys *)
  | One loc_row_key =>
      iloc_row_key ← loc_to_iloc (_index self) loc_row_key;
      Ok (iloc_row_key, KNone)
  end.

(** [Frame._compound_loc_to_getitem_iloc] *)
Definition _compound_loc_to_getitem_iloc (self : Frame) (key : Compound LocKeyType)
  : result (GetItemKeyType * GetItemKeyType) :=
  match key with
  | Tuple _ => Raise (KeyError "__getitem__ does not support multiple indexers")
  | One k =>
      iloc_column_key ← loc_to_iloc (_columns self) k;
      Ok (KNone, iloc_column_key)
  end.

(** [Frame._extract_loc] *)
Definition _extract_loc (self : Frame) (key : Compound LocKeyType)
  : result Extraction :=
  ks ← _compound_loc_to_iloc self key;
  _extract self ks.1 ks.2.

(** [Frame.__getitem__] *)
Definition __getitem__ (self : Frame) (key : Compound LocKeyType)
  : result Extraction :=
  ks ← _compound_loc_to_getitem_iloc self key;
  _extract self ks.1 ks.2.

(** ** Reindexing *)

(** Modelled from the spec: [IndexCorrespondence.from_correspondence(src,
    dst)]; for every position of [dst] the matching position of [src], or
    no match. *)
Definition from_correspondence (src dst : IndexBase) : list (option nat) :=
  position_of src <$> labels dst.

(** Modelled from the spec: one column inside [TypeBlocks.resize_blocks];
    matched positions copy the source value, the others take the fill value
    (which may promote the type). *)
Definition resize_column (index_ic : option (list (option nat))) (fill_value : element)
    (tc : dtype * list element) : result ndarray :=
  match index_ic with
  | None =>
      Ok {| a_dtype := tc.1; a_ndim := 1; a_rows := length tc.2; a_columns := [tc.2] |}
  | Some ic =>
      vs ← mapM (λ m, match m with
                      | Some r => or_raise IndexError (tc.2 !! r)
                      | None => Ok fill_value
                      end) ic;
      Ok {| a_dtype := if bool_decide (None ∈ ic)
                       then resolve_dtype tc.1 (dtype_of_value fill_value)
                       else tc.1;
            a_ndim := 1; a_rows := length vs; a_columns := [vs] |}
  end.

(** Modelled from the spec: [TypeBlocks.resize_blocks(index_ic, columns_ic,
    fill_value)], the buffers of the reindexed store. *)
Definition resize_blocks (tb : TypeBlocks)
    (index_ic columns_ic : option (list (option nat))) (fill_value : element)
  : result (list ndarray) :=
  match index_ic, columns_ic with
  | None, None => Ok (blocks tb)
  | _, None => mapM (resize_column index_ic fill_value) (typed_columns tb)
  | _, Some cic =>
      let rows := match index_ic with
                  | None => (shape tb).1
                  | Some ic => length ic
                  end in
      mapM (λ m, match m with
                 | Some c =>
                     tc ← or_raise IndexError (typed_columns tb !! c);
                     resize_column index_ic fill_value tc
                 | None =>
                     Ok {| a_dtype := dtype_of_value fill_value; a_ndim := 1;
                           a_rows := rows; a_columns := [replicate rows fill_value] |}
                 end) cic
  end.


(** [index.__class__(index)] for an index object, the [Index] constructor
    for anything else. *)
Definition reindex_target (static : bool) (init : IndexInitializer) : result IndexBase :=
  match init with
  | InitIndex ix => Index_init (STATIC ix) (labels ix)
  | _ => Index_from static init
  end.

(** [Frame.reindex] *)
Definition reindex (self : Frame) (index columns : IndexInitializer)
    (fill_value : element) : result Frame :=
  if is_none index && is_none columns then
    Raise (Exception_ "must specify one of index or columns")
  else
    ii ← (if negb (is_none index) then
            index' ← reindex_target true index;
            Ok (index', Some (from_correspondence (_index self) index'))
          else Ok (_index self, None));
    let '(index', index_ic) := ii in
    cc ← (if negb (is_none columns) then
            columns' ← match columns with
                        | InitIndex ix =>
                            if bool_decide (STATIC ix ≠ COLUMN_CONSTRUCTOR_STATIC (cls self))
                            then Raise (Exception_
                              "static status of index does not match expected column static status")
                            else Index_init (STATIC ix) (labels ix)
                        | _ => Index_from (COLUMN_CONSTRUCTOR_STATIC (cls self)) columns
                        end;
            Ok (columns', Some (from_correspondence (_columns self) columns'))
          else Ok (_columns self, None));
    let '(columns', columns_ic) := cc in
    bs ← resize_blocks (_blocks self) index_ic columns_ic fill_value;
    tb ← TypeBlocks_from_blocks bs;
    Frame_init (cls self) (DataBlocks tb) (InitIndex index') (InitIndex columns')
      (_name self) true false false.

(** Modelled from the spec: [Series.reindex(index, fill_value)]. *)
Definition Series_reindex (s : Series) (index : IndexInitializer) (fill_value : element)
  : result Series :=
  index' ← reindex_target true index;
  vs ← mapM (λ m, match m with
                  | Some r => or_raise IndexError (s_values s !! r)
                  | None => Ok fill_value
                  end) (from_correspondence (s_index s) index');
  Ok {| s_values := vs; s_index := immutable_index_filter index'; s_name := s_name s |}.

(** A labelled container: a Series or a Frame. *)
Inductive Container :=
| CSeries (s : Series)
| CFrame (f : Frame).

(** [row_key, column_key = iloc_key] for a tuple, [iloc_key, None] otherwise *)
Definition unpack_iloc_key (iloc_key : Compound GetItemKeyType)
  : result (GetItemKeyType * GetItemKeyType) :=
  match iloc_key with
  | Tuple [row_key; column_key] => Ok (row_key, column_key)
  | Tuple _ => Raise ValueError
  | One k => Ok (k, KNone)
  end.

(** [Frame._reindex_other_like_iloc] *)
Definition _reindex_other_like_iloc (self : Frame) (value : Container)
    (iloc_key : Compound GetItemKeyType) (fill_value : element) : result Container :=
  ks ← unpack_iloc_key iloc_key;
  let '(row_key, column_key) := ks in
  let '(nm_row, nm_column) := _extract_axis_not_multi row_key column_key in
  v ← (if nm_row && negb nm_column then
         (* only column is multi selection, reindex by column *)
         match value with
         | CSeries s =>
             target ← Index_extract_iloc (_columns self) column_key;
             s' ← Series_reindex s target fill_value;
             Ok (Some (CSeries s'))
         | CFrame _ => Ok None
         end
       else if negb nm_row && nm_column then
         (* only row is multi selection, reindex by index *)
         match value with
         | CSeries s =>
             target ← Index_extract_iloc (_index self) row_key;
             s' ← Series_reindex s target fill_value;
             Ok (Some (CSeries s'))
         | CFrame _ => Ok None
         end
       else if negb nm_row && negb nm_column then
         (* both multi, must be a Frame *)
         match value with
         | CFrame f =>
             target_column_index ← Index_extract_iloc (_columns self) column_key;
             target_row_index ← Index_extract_iloc (_index self) row_key;
             f' ← reindex f target_row_index target_column_index fill_value;
             Ok (Some (CFrame f'))
         | CSeries _ => Ok None
         end
       else Ok None);
  match v with
  | None => Raise (Exception_ "cannot assign with key configuration")
  | Some v => Ok v
  end.

(** ** Assignment *)

(** What can be assigned: an element, a vector, a two-dimensional array. *)
Inductive RawValue :=
| RawElement (v : element)
| Raw1D (vs : list element)
| Raw2D (a : ndarray).

(** Modelled from the spec: [container.values] of a [Series] or of a
    [Frame], the array of its values. *)
Definition container_values (c : Container) : RawValue :=
  match c with
  | CSeries s => Raw1D (s_values s)
  | CFrame f => Raw2D (tb_values (_blocks f))
  end.

Definition index_in (ps : list nat) (p : nat) : option nat :=
  fst <$> list_find (λ x, x = p) ps.

(** The value assigned to the [i]-th selected row and [j]-th selected
    column; a vector runs along the axis that is selected as multiple. *)
Definition assigned (value : RawValue) (column_single : bool) (i j : nat) : option element :=
  match value with
  | RawElement v => Some v
  | Raw1D vs => if column_single then vs !! i else vs !! j
  | Raw2D a => col ← a_columns a !! j; col !! i
  end.

Definition assign_shape_ok (value : RawValue) (column_single : bool)
    (rows cols : list nat) : bool :=
  match value with
  | RawElement _ => true
  | Raw1D vs =>
      bool_decide (length vs = if column_single then length rows else length cols)
  | Raw2D a =>
      bool_decide (a_rows a = length rows) && bool_decide (width a = length cols)
  end.

Definition value_dtype (value : RawValue) : dtype :=
  match value with
  | RawElement v => dtype_of_value v
  | Raw1D vs => match vs with
                | [] => DFloat
                | v :: vs => foldl resolve_dtype (dtype_of_value v) (dtype_of_value <$> vs)
                end
  | Raw2D a => a_dtype a
  end.

(** Modelled from the spec: [TypeBlocks.extract_iloc_assign(key, value)], a
    new store in which the selected cells are overwritten by the value. *)
Definition extract_iloc_assign (tb : TypeBlocks) (key : Compound GetItemKeyType)
    (value : RawValue) : result TypeBlocks :=
  ks ← unpack_iloc_key key;
  rows ← select (shape tb).1 ks.1;
  cols ← select (shape tb).2 ks.2;
  let column_single := (_extract_axis_not_multi ks.1 ks.2).2 in
  if negb (assign_shape_ok value column_single rows cols) then Raise ShapeError
  else
    let assign_column c (tc : dtype * list element) : ndarray :=
      match index_in cols c with
      | None =>
          {| a_dtype := tc.1; a_ndim := 1; a_rows := length tc.2; a_columns := [tc.2] |}
      | Some j =>
          let vs := imap (λ r old,
                      match index_in rows r with
                      | None => old
                      | Some i => default old (assigned value column_single i j)
                      end) tc.2 in
          {| a_dtype := resolve_dtype tc.1 (value_dtype value); a_ndim := 1;
             a_rows := length vs; a_columns := [vs] |}
      end in
    Ok {| blocks := imap assign_column (typed_columns tb); shape := shape tb |}.

(** [FrameAssign]: the delegate returned by [Frame.assign]. *)
Record FrameAssign := {
  container : Frame;
  iloc_key : Compound GetItemKeyType
}.

Inductive AssignValue :=
| AssignContainer (c : Container)
| AssignRaw (v : RawValue).

(** [FrameAssign.__call__] *)
Definition FrameAssign_call (self : FrameAssign) (value : AssignValue)
    (fill_value : element) : result Frame :=
  value' ← match value with
           | AssignContainer c =>
               v ← _reindex_other_like_iloc (container self) c (iloc_key self) fill_value;
               Ok (container_values v)
           | AssignRaw v => Ok v
           end;
  blocks_ ← extract_iloc_assign (_blocks (container self)) (iloc_key self) value';
  Frame_init (cls (container self)) (DataBlocks blocks_)
    (InitIndex (_index (container self))) (InitIndex (_columns (container self)))
    (_name (container self)) true false false.

(** ** The grow-only Frame *)

(** Modelled from the spec: [IndexGO.append(label)], which fails if the
    label is already present. *)
Definition Index_append (ix : IndexBase) (l : label) : result IndexBase :=
  if Index_contains ix l then Raise (KeyError "duplicate key append attempted")
  else Ok {| labels := labels ix ++ [l]; STATIC := STATIC ix |}.

(** Modelled from the spec: [TypeBlocks.append(block)], which extends the
    store by one buffer of the same row count. *)
Definition TypeBlocks_append (tb : TypeBlocks) (b : ndarray) : result TypeBlocks :=
  if bool_decide (a_rows b = (shape tb).1)
  then Ok {| blocks := blocks tb ++ [b]; shape := ((shape tb).1, (shape tb).2 + width b) |}
  else Raise ShapeError.

(** A one-dimensional array of the given values. *)
Definition array_1d (vs : list element) : ndarray :=
  {| a_dtype := value_dtype (Raw1D vs); a_ndim := 1; a_rows := length vs;
     a_columns := [vs] |}.

(** The value given to [FrameGO.__setitem__]: a Series, an array, a
    generator (with the values it yields), an object without [__len__] or a
    string, or any other object (with the array [np.array] builds from it). *)
Inductive SetItemValue :=
| SetSeries (s : Series)
| SetArray (a : ndarray)
| SetGenerator (vs : list element)
| SetElement (v : element)
| SetSequence (a : ndarray).

Definition set_blocks (self : Frame) (tb : TypeBlocks) : Frame :=
  {| cls := cls self; _blocks := tb; _columns := _columns self;
     _index := _index self; _name := _name self |}.

Definition set_columns (self : Frame) (ix : IndexBase) : Frame :=
  {| cls := cls self; _blocks := _blocks self; _columns := ix;
     _index := _index self; _name := _name self |}.

(** [FrameGO.__setitem__]; the frame is mutated in place, so the function
    returns the state of the frame after the call with the outcome. *)
Definition __setitem__ (self : Frame) (key : label) (val : SetItemValue)
    (fill_value : element) : Frame * result () :=
  match cls self with
  | Frame_cls => (self, Raise TypeError) (* Frame has no item assignment *)
  | FrameGO_cls =>
      if Index_contains (_columns self) key then
        (self, Raise (RuntimeError
           "key already defined in columns; use .assign to get new Frame"))
      else
        let row_count := length (labels (_index self)) in
        let sized (a : ndarray) : result ndarray :=
          if bool_decide (a_ndim a ≠ 1) || bool_decide (a_rows a ≠ row_count)
          then Raise (RuntimeError "incorrectly sized, unindexed value")
          else Ok a in
        let appended :=
          a ← match val with
              | SetSeries s =>
                  s' ← Series_reindex s (InitIndex (_index self)) fill_value;
                  Ok (array_1d (s_values s'))
              | SetArray a => sized a
              | SetGenerator vs => Ok (array_1d vs)
              | SetElement v => Ok (array_1d (replicate row_count v))
              | SetSequence a => sized a
              end;
          TypeBlocks_append (_blocks self) a in
        match appended with
        | Raise e => (self, Raise e)
        | Ok tb =>
            let self := set_blocks self tb in
            (* this might fail if key is a sequence *)
            match Index_append (_columns self) key with
            | Raise e => (self, Raise e)
            | Ok ix => (set_columns self ix, Ok ())
            end
        end
  end.

(** ** Concatenation *)

Definition label_leb (a b : label) : bool :=
  match a, b with
  | LInt x, LInt y => bool_decide (x ≤ y)%Z
  | LInt _, LStr _ => true
  | LStr _, LInt _ => false
  | LStr x, LStr y => String.leb x y
  end.

Definition label_le (a b : label) : Prop := label_leb a b = true.

Global Instance label_le_dec : RelDecision label_le.
Proof. intros a b. unfold label_le. apply _. Defined.

(** Modelled from the spec: [ufunc_unique(array)] of
    [static_frame.core.util], the distinct labels in sorted order. *)
Definition ufunc_unique (ls : list label) : list label :=
  merge_sort label_le (remove_dups ls).

(** Modelled from the spec: [array_set_ufunc_many(arrays, union)], the
    union (or intersection) of the label arrays in canonical sorted order. *)
Definition array_set_ufunc_many (arrays : list (list label)) (union : bool)
  : list label :=
  if union then ufunc_unique (mjoin arrays)
  else match arrays with
       | [] => []
       | a :: rest =>
           ufunc_unique (filter (λ l, Forall (λ b, l ∈ b) rest) a)
       end.

(** Modelled from the spec: [concat_resolved] of [static_frame.core.util]
    on one-dimensional label arrays. *)
Definition concat_resolved_labels (arrays : list (list label)) : result (list label) :=
  match arrays with
  | [] => Raise ValueError
  | _ => Ok (mjoin arrays)
  end.

(** Modelled from the spec: [concat_resolved] of [static_frame.core.util]
    on two-dimensional arrays, a vertical stack of arrays of one width, of
    the resolved type. *)
Definition concat_resolved (arrays : list ndarray) : result ndarray :=
  match arrays with
  | [] => Raise ValueError
  | a :: rest =>
      if forallb (λ b, bool_decide (width b = width a)) rest then
        Ok {| a_dtype := foldl resolve_dtype (a_dtype a) (a_dtype <$> rest);
              a_ndim := 2;
              a_rows := sum_list (a_rows <$> arrays);
              a_columns := imap (λ j col,
                 col ++ mjoin ((λ b, default [] (a_columns b !! j)) <$> rest))
                 (a_columns a) |}
      else Raise ValueError
  end.

(** Modelled from the spec: [TypeBlocks.consolidate_blocks], which merges
    maximal runs of adjacent blocks of one type into single wider buffers. *)
Fixpoint consolidate_blocks (bs : list ndarray) : list ndarray :=
  match bs with
  | [] => []
  | b :: rest =>
      match consolidate_blocks rest with
      | b' :: rest' =>
          if decide (a_dtype b = a_dtype b') then
            {| a_dtype := a_dtype b; a_ndim := 2; a_rows := a_rows b;
               a_columns := a_columns b ++ a_columns b' |} :: rest'
          else b :: b' :: rest'
      | [] => [b]
      end
  end.

(** Modelled from the spec: [TypeBlocks.consolidate()], the store with its
    blocks consolidated. *)
Definition consolidate (tb : TypeBlocks) : TypeBlocks :=
  {| blocks := consolidate_blocks (blocks tb); shape := shape tb |}.

(** Modelled from the spec: two stores are block compatible when their
    block-width partitionings are identical. *)
Definition block_compatible (a b : TypeBlocks) : bool :=
  bool_decide (width <$> blocks a = width <$> blocks b).

(** Modelled from the spec: two stores are compatible after reblocking when
    consolidation gives them the same types and widths. *)
Definition reblock_signature (tb : TypeBlocks) : list (dtype * nat) :=
  (λ b, (a_dtype b, width b)) <$> consolidate_blocks (blocks tb).

(** Modelled from the spec: [TypeBlocks.reblock_compatible(other)]. *)
Definition reblock_compatible (a b : TypeBlocks) : bool :=
  bool_decide (reblock_signature a = reblock_signature b).

(** The labels of an index or columns argument. *)
Definition initializer_labels (init : IndexInitializer) : result (list label) :=
  match init with
  | InitLabels ls => Ok ls
  | InitIndex ix => Ok (labels ix)
  | InitNone | InitLabel _ => Raise TypeError
  end.

(** [len(a) != len(b) or (a != b).any()] *)
Definition differs (a b : list label) : bool := bool_decide (a ≠ b).

Definition pairwise {A} (f : A → A → bool) (l : list A) : bool :=
  forallb (λ p, f p.1 p.2) (zip l (tail l)).

(** The block at [block_idx] of every store, stacked. *)
Definition stack_block (type_blocks : list TypeBlocks) (block_idx : nat)
  : result ndarray :=
  block_parts ← mapM (λ tb,
      column_2d_filter <$> or_raise IndexError (blocks tb !! block_idx)) type_blocks;
  (* returns immutable array *)
  concat_resolved block_parts.

(** One turn of the first loop of [blocks()] for [axis=0]: a frame whose
    columns are not the target columns is reindexed onto them before it is
    appended to [aligned_frames]. *)
Definition align_frame (columns : IndexInitializer) (ls : list label) (frame : Frame)
  : result Frame :=
  if differs (labels (_columns frame)) ls
  then reindex frame InitNone columns VNaN
  else Ok frame.

(** The generator [blocks()] of [from_concat] for [axis=0]. *)
Definition blocks_axis0 (frames : list Frame) (columns : IndexInitializer)
  : result (list ndarray) :=
  ls ← initializer_labels columns;
  aligned_frames ← mapM (align_frame columns ls) frames;
  let block_compatible_ :=
    pairwise (λ previous_frame frame,
      block_compatible (_blocks frame) (_blocks previous_frame)) aligned_frames in
  let reblock_compatible_ :=
    pairwise (λ previous_frame frame,
      reblock_compatible (_blocks frame) (_blocks previous_frame)) aligned_frames in
  if block_compatible_ || reblock_compatible_ then
    let type_blocks :=
      if negb block_compatible_ && reblock_compatible_
      then (λ f, consolidate (_blocks f)) <$> aligned_frames
      else _blocks <$> aligned_frames in
    first ← or_raise IndexError (head type_blocks);
    mapM (stack_block type_blocks) (seq 0 (length (blocks first)))
  else
    (* must just combine .values *)
    a ← concat_resolved ((λ frame, tb_values (_blocks frame)) <$> frames);
    Ok [a].

(** The generator [blocks()] of [from_concat] for [axis=1]. *)
Definition blocks_axis1 (frames : list Frame) (index : IndexInitializer)
  : result (list ndarray) :=
  ls ← initializer_labels index;
  bss ← mapM (λ frame,
      frame ← (if differs (labels (_index frame)) ls
                then reindex frame index InitNone VNaN
                else Ok frame);
      Ok (blocks (_blocks frame))) frames;
  Ok (mjoin bss).

(** [Frame.from_concat]; [frames] are the frames after the members that are
    Series have been turned into frames. *)
Definition from_concat (c : FrameClass) (frames : list Frame) (axis : nat)
    (union : bool) (index columns : IndexInitializer) (name : option label)
    (consolidate_blocks_ : bool) : result Frame :=
  staged ←
    match axis with
    | 1 => (* stacks columns (extends rows horizontally) *)
        columns ← (if is_none columns then
                     columns ← concat_resolved_labels ((λ f, labels (_columns f)) <$> frames);
                     if bool_decide (length (ufunc_unique columns) ≠ length columns)
                     then Raise (RuntimeError
                       "Column names after horizontal concatenation are not unique; supply a columns argument.")
                     else Ok (InitLabels columns)
                   else Ok columns);
        let index :=
          if is_none index
          then InitLabels (array_set_ufunc_many ((λ f, labels (_index f)) <$> frames) union)
          else index in
        Ok (index, columns, blocks_axis1 frames index)
    | 0 => (* stacks rows (extends columns vertically) *)
        index ← (if is_none index then
                   index ← concat_resolved_labels ((λ f, labels (_index f)) <$> frames);
                   if bool_decide (length (ufunc_unique index) ≠ length index)
                   then Raise (RuntimeError
                     "Index names after vertical concatenation are not unique; supply an index argument.")
                   else Ok (InitLabels index)
                 else Ok index);
        let columns :=
          if is_none columns
          then InitLabels (array_set_ufunc_many ((λ f, labels (_columns f)) <$> frames) union)
          else columns in
        Ok (index, columns, blocks_axis0 frames columns)
    | _ => Raise (NotImplementedError "no support for axis")
    end;
  let '(index, columns, blocks_) := staged in
  bs ← blocks_;
  tb ← TypeBlocks_from_blocks (if consolidate_blocks_ then consolidate_blocks bs else bs);
  Frame_init c (DataBlocks tb) index columns name true false false.

(** ** Iteration delegates ([iter_node.py]) *)

(** The objects an axis iteration yields and a function receives: labels,
    elements, arrays and tuples of objects. *)
Local Unset Elimination Schemes.
Inductive pyobj :=
| PLabel (l : label)
| PElement (v : element)
| PArray (vs : list element)
| PTuple (items : list pyobj).
Local Set Elimination Schemes.

Inductive IterNodeType := VALUES | ITEMS.

(** A Python callable takes its positional arguments and returns or raises;
    a mapping offers [__contains__] and [__getitem__]. *)
Inductive CallableOrMapping :=
| Callable (f : list pyobj → result pyobj)
| Mapping (__contains__ : pyobj → bool) (getitem : pyobj → result pyobj).

(** [getattr(func, '__getitem__')]: a callable of one argument. *)
Definition bound_getitem (getitem : pyobj → result pyobj) (args : list pyobj)
  : result pyobj :=
  match args with
  | [x] => getitem x
  | _ => Raise TypeError
  end.

(** [IterNodeDelegate]; [_func_values] and [_func_items] are given by the
    sequences they yield, the apply constructor builds the container of
    type [C] from the items. *)
Record IterNodeDelegate (C : Type) := {
  _func_values : list pyobj;
  _func_items : list (pyobj * pyobj);
  _yield_type : IterNodeType;
  _apply_constructor : list (pyobj * pyobj) → option dtype → result C
}.
Arguments _func_values {C} _.
Arguments _func_items {C} _.
Arguments _yield_type {C} _.
Arguments _apply_constructor {C} _ _ _.

Definition yt_is_values {C} (self : IterNodeDelegate C) : bool :=
  match _yield_type self with
  | VALUES => true
  | ITEMS => false
  end.



(** [IterNodeDelegate.apply_iter_items]: the generator, run to its end. *)
Definition apply_iter_items {C} (self : IterNodeDelegate C)
    (func : CallableOrMapping) : result (list (pyobj * pyobj)) :=
  let '(condition, func) :=
    match func with
    | Callable f => (None, f)
    | Mapping contains getitem => (Some contains, bound_getitem getitem)
    end in
  mapM (λ kv : pyobj * pyobj,
      let '(k, v) := kv in
      if match condition with
         | Some condition => negb (condition v)
         | None => false
         end
      then
        if yt_is_values self then Ok (k, v)
        else Ok (k, PTuple [k; v])
      else
        if yt_is_values self then r ← func [v]; Ok (k, r)
        else r ← func [k; v]; Ok (k, r))
    (_func_items self).

(** [IterNodeDelegate.apply] *)
Definition apply {C} (self : IterNodeDelegate C) (func : CallableOrMapping)
    (dtype_ : option dtype) : result C :=
  items ← apply_iter_items self func;
  _apply_constructor self items dtype_.



(** [IterNodeDelegate.__iter__]: the generator, run to its end; an item is
    the pair of its key and its value. *)
Definition IterNodeDelegate_iter {C} (self : IterNodeDelegate C) : list pyobj :=
  match _yield_type self with
  | VALUES => _func_values self
  | ITEMS => (λ kv, PTuple [kv.1; kv.2]) <$> _func_items self
  end.

(** ** Invariants of the data model *)

(** Every buffer of a store has the row count of the store, and the widths
    of the buffers add up to its column count. *)
Definition TypeBlocks_wf (tb : TypeBlocks) : Prop :=
  Forall (λ b, a_rows b = (shape tb).1
               ∧ Forall (λ col, length col = (shape tb).1) (a_columns b)) (blocks tb)
  ∧ sum_list (width <$> blocks tb) = (shape tb).2.

(** What [Frame.__init__] checks before it returns. *)
Definition Frame_checked (f : Frame) : Prop :=
  length (labels (_columns f)) = (shape (_blocks f)).2
  ∧ ((shape (_blocks f)).1 ≠ 0 → length (labels (_index f)) = (shape (_blocks f)).1).

(** A call that returns only frames that pass the size checks. *)
Definition checked_result (r : result Frame) : Prop :=
  ∀ f, r = Ok f → Frame_checked f.

Definition checked_extraction (r : result Extraction) : Prop :=
  ∀ f, r = Ok (RFrame f) → Frame_checked f.

(** An in-place call on a frame that passes the size checks leaves, when it
    returns, a frame that passes them. *)
Definition checked_update (self : Frame) (out : Frame * result ()) : Prop :=
  Frame_checked self → out.2 = Ok () → Frame_checked out.1.

(** An array of one dimension has one column. *)
Definition vector_value (val : SetItemValue) : Prop :=
  match val with
  | SetArray a | SetSequence a => a_ndim a = 1 → width a = 1
  | SetSeries _ | SetGenerator _ | SetElement _ => True
  end.

(** The labels of the default index over [n] positions. *)
Definition range_labels (n : nat) : list label :=
  (λ k, LInt (Z.of_nat k)) <$> seq 0 n.

(** The data that has a shape of its own: a store, an array, or a sequence
    that is made an array.  Without data, or with a single element, the
    store is built to the size of the indices. *)
Definition has_shape (data : FrameInitializer) : bool :=
  match data with
  | DataBlocks _ | DataArray _ | DataSequence _ => true
  | DataDict | DataNone | DataElement _ => false
  end.

(** What an [index] or [columns] argument supplies to the constructor:
    nothing, when it is absent or an empty sequence, or the labels of a
    sequence or of an index object, which are distinct and at least one.
    Only an index object is passed as owned. *)
Inductive argument_labels (own : bool) : IndexInitializer → option (list label) → Prop :=
| argument_none : own = false → argument_labels own InitNone None
| argument_empty : own = false → argument_labels own (InitLabels []) None
| argument_sequence ls :
    own = false → ls ≠ [] → NoDup ls → argument_labels own (InitLabels ls) (Some ls)
| argument_index ix :
    labels ix ≠ [] → NoDup (labels ix) → argument_labels own (InitIndex ix) (Some (labels ix)).

(** What holds of every frame the constructor returns when the index
    objects it is given have unique labels: the sizes it checks, and the
    class of its column index. *)
Definition Frame_ok (f : Frame) : Prop :=
  length (labels (_columns f)) = (shape (_blocks f)).2
  ∧ ((shape (_blocks f)).1 ≠ 0 → length (labels (_index f)) = (shape (_blocks f)).1)
  ∧ NoDup (labels (_columns f))
  ∧ NoDup (labels (_index f))
  ∧ STATIC (_columns f) = COLUMN_CONSTRUCTOR_STATIC (cls f)
  ∧ STATIC (_index f) = true.

(** The invariant of the data model: both label indices are as long as the
    store is high and wide, their labels are unique, the store is well
    formed. *)
Definition Frame_wf (f : Frame) : Prop :=
  TypeBlocks_wf (_blocks f)
  ∧ length (labels (_index f)) = (shape (_blocks f)).1
  ∧ length (labels (_columns f)) = (shape (_blocks f)).2
  ∧ NoDup (labels (_index f))
  ∧ NoDup (labels (_columns f))
  ∧ STATIC (_index f) = true
  ∧ STATIC (_columns f) = COLUMN_CONSTRUCTOR_STATIC (cls f).

(** A Series has one value for each label of its index. *)
Definition Series_wf (s : Series) : Prop :=
  length (s_values s) = length (labels (s_index s)) ∧ NoDup (labels (s_index s)).

(** The value of a Series at a label, and of a Frame at a row label and a
    column label. *)
Definition series_at (s : Series) (l : label) : option element :=
  i ← position_of (s_index s) l; s_values s !! i.

Definition frame_at (f : Frame) (r c : label) : option element :=
  i ← position_of (_index f) r; j ← position_of (_columns f) c; cell (_blocks f) i j.

(** The configurations [_reindex_other_like_iloc] accepts: a Series when
    exactly one axis key is single, a Frame when both are multiple. *)
Definition assignable (c : Container) (axis_nm : bool * bool) : bool :=
  match c, axis_nm with
  | CSeries _, (true, false) | CSeries _, (false, true) | CFrame _, (false, false) => true
  | _, _ => false
  end.

(** The labels a key selects on an index. *)
Definition selected_labels (ix : IndexBase) (key : GetItemKeyType) : result (list label) :=
  ps ← select (length (labels ix)) key;
  labels_at (labels ix) ps.




(** What a grow-only frame is after one column has been appended to the
    frame [self]: the new label comes last, the new column is the last
    column of the store after the columns that were there, and the row
    index, the name and the class are those of [self]. *)
Definition column_appended (self self' : Frame) (key : label) (col : list element)
  : Prop :=
  labels (_columns self') = labels (_columns self) ++ [key]
  ∧ tb_columns (_blocks self') = tb_columns (_blocks self) ++ [col]
  ∧ _index self' = _index self ∧ _name self' = _name self ∧ cls self' = cls self
  ∧ Frame_wf self'.

(** ** Names, classes and the dictionary-like interface *)

(** [Frame.rename] *)
Definition rename (self : Frame) (name : option label) : result Frame :=
  (* copying blocks does not copy underlying data *)
  Frame_init (cls self) (DataBlocks (TypeBlocks_copy (_blocks self)))
    (InitIndex (_index self))
    (InitIndex (_columns self)) (* let constructor handle if GO *)
    name true true false.

(** [Frame.to_frame_go], which [FrameGO.to_frame_go] overrides. *)
Definition to_frame_go (self : Frame) : result Frame :=
  match cls self with
  | Frame_cls =>
      Frame_init FrameGO_cls (DataBlocks (TypeBlocks_copy (_blocks self)))
        (InitIndex (_index self)) (InitLabels (labels (_columns self))) (_name self)
        true true false (* need to make grow only *)
  | FrameGO_cls => Raise (NotImplementedError "Already a FrameGO")
  end.

(** [FrameGO.to_frame]; the class [Frame] does not define the method, and
    the attribute lookup fails there. *)
Definition to_frame (self : Frame) : result Frame :=
  match cls self with
  | FrameGO_cls =>
      Frame_init Frame_cls (DataBlocks (TypeBlocks_copy (_blocks self)))
        (InitIndex (_index self)) (InitLabels (labels (_columns self))) (_name self)
        true true false (* need to make static only *)
  | Frame_cls => Raise (Exception_ "'Frame' object has no attribute 'to_frame'")
  end.

(** [Frame.head]: [self.iloc[:count]] *)
Definition Frame_head (self : Frame) (count : Z) : result Extraction :=
  _extract_iloc self (One (KSlice None (Some count) None)).

(** [Frame.tail]: [self.iloc[-count:]] *)
Definition Frame_tail (self : Frame) (count : Z) : result Extraction :=
  _extract_iloc self (One (KSlice (Some (- count)%Z) None None)).

(** [Frame.__contains__] *)
Definition __contains__ (self : Frame) (value : label) : bool :=
  Index_contains (_columns self) value.

(** [Frame.get]; [default] is whatever object the caller passes. *)
Definition get {D} (self : Frame) (key : label) (default : D) : result (D + Extraction) :=
  if negb (Index_contains (_columns self) key) then Ok (inl default)
  else inr <$> __getitem__ self (One (LocLabel key)).

(** [Frame._extract_iloc_assign] *)
Definition _extract_iloc_assign (self : Frame) (key : Compound GetItemKeyType)
  : FrameAssign :=
  {| container := self; iloc_key := key |}.

(** [Frame._extract_loc_assign] *)
Definition _extract_loc_assign (self : Frame) (key : Compound LocKeyType)
  : result FrameAssign :=
  (* extract if tuple, then pack back again *)
  key ← _compound_loc_to_iloc self key;
  Ok (_extract_iloc_assign self (Tuple [key.1; key.2])).

(** [Frame._extract_getitem_assign] *)
Definition _extract_getitem_assign (self : Frame) (key : Compound LocKeyType)
  : result FrameAssign :=
  key ← _compound_loc_to_getitem_iloc self key;
  Ok (_extract_iloc_assign self (Tuple [key.1; key.2])).

(** [FrameGO.extend_items]: one [__setitem__] for each pair, in order; the
    loop ends at the first one that raises. *)
Fixpoint extend_items (self : Frame) (pairs : list (label * SetItemValue))
    (fill_value : element) : Frame * result () :=
  match pairs with
  | [] => (self, Ok ())
  | (k, v) :: pairs =>
      match __setitem__ self k v fill_value with
      | (self, Ok _) => extend_items self pairs fill_value
      | (self, Raise e) => (self, Raise e)
      end
  end.

(** Modelled from the spec: [IndexGO.extend(labels)], the labels appended
    one after the other; it fails at a label that is already present. *)
Fixpoint Index_extend (ix : IndexBase) (ls : list label) : result IndexBase :=
  match ls with
  | [] => Ok ix
  | l :: ls => ix ← Index_append ix l; Index_extend ix ls
  end.

(** Modelled from the spec: [TypeBlocks.extend(other)], which extends the
    store by the buffers of another store of the same row count. *)
Definition TypeBlocks_extend (tb other : TypeBlocks) : result TypeBlocks :=
  if bool_decide ((shape other).1 = (shape tb).1)
  then Ok {| blocks := blocks tb ++ blocks other;
             shape := ((shape tb).1, (shape tb).2 + (shape other).2) |}
  else Raise ShapeError.

(** What [FrameGO.extend] is given: a Frame, or a Series, here by its
    values, its index and its name.  The name is the label of the new
    column; a Series without a name gives the label [None], which is not
    among the labels of this model. *)
Inductive Extension :=
| ExtendFrame (f : Frame)
| ExtendSeries (values : list element) (index : IndexBase) (name : label).

Section Extension.
Context (_requires_reindex : IndexBase → IndexBase → bool).

(** [FrameGO.extend]; the frame is mutated in place, the columns before the
    store, so the function returns the state of the frame after the call
    with the outcome. *)
Definition extend (self : Frame) (container : Extension) (fill_value : element)
  : Frame * result () :=
  match cls self with
  | Frame_cls => (self, Raise (Exception_ "'Frame' object has no attribute 'extend'"))
  | FrameGO_cls =>
      let container_index :=
        match container with
        | ExtendFrame f => _index f
        | ExtendSeries _ index _ => index
        end in
      if bool_decide (length (labels container_index) = 0)
      then (self, Ok ()) (* must be empty data, empty index container *)
      else
        (* self's index will never change; we only take what aligns in the
           passed container *)
        let aligned :=
          if _requires_reindex (_index self) container_index then
            match container with
            | ExtendFrame f =>
                ExtendFrame <$> reindex f (InitIndex (_index self)) InitNone fill_value
            | ExtendSeries values index name =>
                s ← Series_reindex
                      {| s_values := values; s_index := index; s_name := Some name |}
                      (InitIndex (_index self)) fill_value;
                Ok (ExtendSeries (s_values s) (s_index s) name)
            end
          else Ok container in
        let check (self : Frame) : Frame * result () :=
          if bool_decide (length (labels (_columns self)) ≠ (shape (_blocks self)).2)
          then (self, Raise (RuntimeError "malformed Frame was used in extension"))
          else (self, Ok ()) in
        match aligned with
        | Raise e => (self, Raise e)
        | Ok (ExtendFrame f) =>
            if bool_decide (length (labels (_columns f)) = 0) then (self, Ok ())
            else
              match Index_extend (_columns self) (labels (_columns f)) with
              | Raise e => (self, Raise e)
              | Ok columns =>
                  let self := set_columns self columns in
                  match TypeBlocks_extend (_blocks self) (_blocks f) with
                  | Raise e => (self, Raise e)
                  | Ok tb => check (set_blocks self tb)
                  end
              end
        | Ok (ExtendSeries values _ name) =>
            match Index_append (_columns self) name with
            | Raise e => (self, Raise e)
            | Ok columns =>
                let self := set_columns self columns in
                match TypeBlocks_append (_blocks self) (array_1d values) with
                | Raise e => (self, Raise e)
                | Ok tb => check (set_blocks self tb)
                end
            end
        end
  end.

End Extension.

(** ** Frames as objects

    Frames are objects with an identity; the heap maps the identity of
    every live frame to its state.  A method is a program over the heap: it
    reads the attributes of an object, assigns to the attributes of an
    object, calls the constructor of a frame, and ends by returning or
    raising. *)


Inductive Method (A : Type) : Type :=
| Return (a : A)
| Throw (e : exception)
| GetAttributes (ref : positive) (k : Frame → Method A)
| SetAttributes (ref : positive) (f : Frame) (k : Method A)
| New (f : Frame) (k : positive → Method A).
Arguments Return {A} a.
Arguments Throw {A} e.
Arguments GetAttributes {A} ref k.
Arguments SetAttributes {A} ref f k.
Arguments New {A} f k.

(** The heap and the outcome of a program.  An attribute of an object that
    does not exist cannot be read; a new object takes an identity that no
    live object has. *)
Fixpoint run {A} (p : Method A) (h : gmap positive Frame)
  : gmap positive Frame * result A :=
  match p with
  | Return a => (h, Ok a)
  | Throw e => (h, Raise e)
  | GetAttributes ref k =>
      match h !! ref with
      | Some f => run (k f) h
      | None => (h, Raise TypeError)
      end
  | SetAttributes ref f k => run k (<[ref := f]> h)
  | New f k => let ref := fresh (dom h) in run (k ref) (<[ref := f]> h)
  end.

(** A program that assigns to no attribute of an object. *)
Fixpoint reads_only {A} (p : Method A) : Prop :=
  match p with
  | Return _ | Throw _ => True
  | GetAttributes _ k => ∀ f, reads_only (k f)
  | SetAttributes _ _ _ => False
  | New _ k => ∀ ref, reads_only (k ref)
  end.




Definition return_none (r : result ()) : Method () :=
  match r with
  | Ok _ => Return ()
  | Raise e => Throw e
  end.








(** [frame[key] = value] and [frame.extend(container)] on the object
    [ref]: the methods that assign to the attributes of an existing frame;
    what they have assigned stays when they raise. *)
Definition heap_setitem (ref : positive) (key : label) (val : SetItemValue)
    (fill_value : element) : Method () :=
  GetAttributes ref (λ self,
    let '(self', r) := __setitem__ self key val fill_value in
    SetAttributes ref self' (return_none r)).

Definition heap_extend (_requires_reindex : IndexBase → IndexBase → bool)
    (ref : positive) (container : Extension) (fill_value : element) : Method () :=
  GetAttributes ref (λ self,
    let '(self', r) := extend _requires_reindex self container fill_value in
    SetAttributes ref self' (return_none r)).








(** ** Operations on the values

    These methods hand the work on the values to an operation of
    [TypeBlocks] and give the result to the constructor with the labels of
    the frame.  The operations of [TypeBlocks] are not part of the verified
    files: each is a parameter here. *)

(** The right operand of a binary operator on a frame: a Frame, a Series,
    an array, another iterable (which [np.array] makes an array) or a
    single value. *)
Inductive OperatorOther :=
| OtherFrame (f : Frame)
| OtherSeries (s : Series)
| OtherArray (a : list element)
| OtherIterable (l : list element)
| OtherElement (v : element).

(** What the store is given as the right operand: a store, an array or a
    single value. *)
Inductive StoreOther :=
| StoreBlocks (tb : TypeBlocks)
| StoreArray (a : list element)
| StoreElement (v : element).

Section Store_operations.
Context (TypeBlocks_isna TypeBlocks_notna : TypeBlocks → result TypeBlocks).
Context (TypeBlocks_fillna : TypeBlocks → element → result TypeBlocks).
Context (TypeBlocks_fillna_leading TypeBlocks_fillna_trailing
          : TypeBlocks → element → nat → result TypeBlocks).
Context (TypeBlocks_shift_blocks
          : TypeBlocks → Z → Z → bool → element → result (list ndarray)).
Context (TypeBlocks_extract_iloc_mask
          : TypeBlocks → Compound GetItemKeyType → result TypeBlocks).
Context (TypeBlocks_drop : TypeBlocks → Compound GetItemKeyType → result TypeBlocks).
Context (Index_drop_iloc : IndexBase → GetItemKeyType → result IndexBase).
Context (TypeBlocks_astype_blocks
          : TypeBlocks → GetItemKeyType → dtype → result (list ndarray)).
Context (TypeBlocks_transpose : TypeBlocks → result TypeBlocks).
Context (TypeBlocks_axis_values : TypeBlocks → Z → result (list (list element))).
Context (TypeBlocks_dropna_to_keep_locations
          : TypeBlocks → Z → (list bool → bool)
            → result (option (list bool) * option (list bool))).
Context (np_argsort : list label → result (list nat)).
Context (Index_union : IndexBase → IndexBase → IndexBase).
Context (TypeBlocks_ufunc_unary_operator
          : (element → element) → TypeBlocks → result TypeBlocks).
Context (TypeBlocks_ufunc_binary_operator
          : (element → element → element) → TypeBlocks → StoreOther → result TypeBlocks).
Context (TypeBlocks_iloc_rows TypeBlocks_getitem_columns
          : TypeBlocks → list nat → result TypeBlocks).

(** [Frame.isna] *)
Definition isna (self : Frame) : result Frame :=
  tb ← TypeBlocks_isna (_blocks self);
  (* always return a Frame, even if this is a FrameGO *)
  Frame_init Frame_cls (DataBlocks tb) (InitIndex (_index self))
    (InitIndex (_columns self)) None true false false.

(** [Frame.notna] *)
Definition notna (self : Frame) : result Frame :=
  tb ← TypeBlocks_notna (_blocks self);
  Frame_init Frame_cls (DataBlocks tb) (InitIndex (_index self))
    (InitIndex (_columns self)) None true false false.

(** [Frame.fillna] *)
Definition fillna (self : Frame) (value : element) : result Frame :=
  tb ← TypeBlocks_fillna (_blocks self) value;
  Frame_init (cls self) (DataBlocks tb) (InitIndex (_index self))
    (InitIndex (_columns self)) (_name self) true false false.

(** [Frame.fillna_leading] *)
Definition fillna_leading (self : Frame) (value : element) (axis : nat) : result Frame :=
  tb ← TypeBlocks_fillna_leading (_blocks self) value axis;
  Frame_init (cls self) (DataBlocks tb) (InitIndex (_index self))
    (InitIndex (_columns self)) (_name self) true false false.

(** [Frame.fillna_trailing] *)
Definition fillna_trailing (self : Frame) (value : element) (axis : nat) : result Frame :=
  tb ← TypeBlocks_fillna_trailing (_blocks self) value axis;
  Frame_init (cls self) (DataBlocks tb) (InitIndex (_index self))
    (InitIndex (_columns self)) (_name self) true false false.

(** [Frame.shift] *)
Definition shift (self : Frame) (index columns : Z) (fill_value : element)
  : result Frame :=
  let shift_index := index in
  let shift_column := columns in
  bs ← TypeBlocks_shift_blocks (_blocks self) shift_index shift_column false fill_value;
  blocks_ ← TypeBlocks_from_blocks bs;
  Frame_init (cls self) (DataBlocks blocks_) (InitIndex (_index self))
    (InitIndex (_columns self)) (_name self) true false false.

(** [Frame._extract_iloc_mask] *)
Definition _extract_iloc_mask (self : Frame) (key : Compound GetItemKeyType)
  : result Frame :=
  masked_blocks ← TypeBlocks_extract_iloc_mask (_blocks self) key;
  Frame_init (cls self) (DataBlocks masked_blocks) (InitIndex (_index self))
    (InitIndex (_columns self)) None true false false.

(** [Frame._extract_loc_mask] *)
Definition _extract_loc_mask (self : Frame) (key : Compound LocKeyType) : result Frame :=
  key ← _compound_loc_to_iloc self key;
  _extract_iloc_mask self (Tuple [key.1; key.2]).

(** [Frame._extract_getitem_mask] *)
Definition _extract_getitem_mask (self : Frame) (key : Compound LocKeyType)
  : result Frame :=
  key ← _compound_loc_to_getitem_iloc self key;
  _extract_iloc_mask self (Tuple [key.1; key.2]).

(** [Frame._drop_iloc] *)
Definition _drop_iloc (self : Frame) (key : Compound GetItemKeyType) : result Frame :=
  blocks_ ← TypeBlocks_drop (_blocks self) key;
  ixs ← match key with
         | Tuple [iloc_row_key; iloc_column_key] =>
             index ← Index_drop_iloc (_index self) iloc_row_key;
             columns ← Index_drop_iloc (_columns self) iloc_column_key;
             Ok (index, columns, true)
         | Tuple _ => Raise ValueError
         | One iloc_row_key => (* no column selection *)
             index ← Index_drop_iloc (_index self) iloc_row_key;
             Ok (index, _columns self, false)
         end;
  let '(index, columns, own_columns) := ixs in
  Frame_init (cls self) (DataBlocks blocks_) (InitIndex index) (InitIndex columns)
    (_name self) true true own_columns.

(** [Frame._drop_loc] *)
Definition _drop_loc (self : Frame) (key : Compound LocKeyType) : result Frame :=
  key ← _compound_loc_to_iloc self key;
  _drop_iloc self (Tuple [key.1; key.2]).

(** [Frame._drop_getitem] *)
Definition _drop_getitem (self : Frame) (key : Compound LocKeyType) : result Frame :=
  key ← _compound_loc_to_getitem_iloc self key;
  _drop_iloc self (Tuple [key.1; key.2]).

(** [FrameAsType]: the delegate returned by [Frame.astype[key]]. *)
Record FrameAsType := {
  as_container : Frame;
  column_key : GetItemKeyType
}.

(** [Frame._extract_getitem_astype] *)
Definition _extract_getitem_astype (self : Frame) (key : Compound LocKeyType)
  : result FrameAsType :=
  key ← _compound_loc_to_getitem_iloc self key;
  Ok {| as_container := self; column_key := key.2 |}.

(** [FrameAsType.__call__] *)
Definition FrameAsType_call (self : FrameAsType) (dtype_ : dtype)
    (consolidate_blocks_ : bool) : result Frame :=
  bs ← TypeBlocks_astype_blocks (_blocks (as_container self)) (column_key self) dtype_;
  let bs := if consolidate_blocks_ then consolidate_blocks bs else bs in
  blocks_ ← TypeBlocks_from_blocks bs;
  Frame_init (cls (as_container self)) (DataBlocks blocks_)
    (InitIndex (_index (as_container self))) (InitIndex (_columns (as_container self)))
    (_name (as_container self)) true false false.

(** [Frame.transpose] *)
Definition transpose (self : Frame) : result Frame :=
  tb ← TypeBlocks_transpose (_blocks self);
  Frame_init (cls self) (DataBlocks tb) (InitIndex (_columns self))
    (InitIndex (_index self)) (_name self) true false false.

(** [Frame._axis_array_items] *)
Definition _axis_array_items (self : Frame) (axis : Z)
  : result (list (label * list element)) :=
  let keys := if decide (axis = 1%Z) then _index self else _columns self in
  vs ← TypeBlocks_axis_values (_blocks self) axis;
  Ok (zip (labels keys) vs).

(** [Frame.to_pairs], for label indices without hierarchy: the values of
    an index are its labels. *)
Definition to_pairs (self : Frame) (axis : Z)
  : result (list (label * list (label * element))) :=
  let index_values := labels (_index self) in
  let columns_values := labels (_columns self) in
  mm ← (if decide (axis = 1%Z) then Ok (index_values, columns_values)
        else if decide (axis = 0%Z) then Ok (columns_values, index_values)
        else Raise (NotImplementedError EmptyString));
  let '(major, minor) := mm : list label * list label in
  vs ← TypeBlocks_axis_values (_blocks self) axis;
  Ok (zip major ((λ v, zip minor v) <$> vs)).

(** [Frame._ufunc_unary_operator]; the operator is a function of one
    element. *)
Definition _ufunc_unary_operator (self : Frame) (operator : element → element)
  : result Frame :=
  (* call the unary operator on _blocks *)
  tb ← TypeBlocks_ufunc_unary_operator operator (_blocks self);
  Frame_init (cls self) (DataBlocks tb) (InitIndex (_index self))
    (InitIndex (_columns self)) None false false false.

(** [Frame._ufunc_binary_operator]; the operator is a function of two
    elements. *)
Definition _ufunc_binary_operator (self : Frame)
    (operator : element → element → element) (other : OperatorOther) : result Frame :=
  match other with
  | OtherFrame other =>
      (* reindex both dimensions to union indices *)
      let columns := Index_union (_columns self) (_columns other) in
      let index := Index_union (_index self) (_index other) in
      self_f ← reindex self (InitIndex index) (InitIndex columns) VNaN;
      other_f ← reindex other (InitIndex index) (InitIndex columns) VNaN;
      tb ← TypeBlocks_ufunc_binary_operator operator (_blocks self_f)
              (StoreBlocks (_blocks other_f));
      Frame_init (cls self) (DataBlocks tb) (InitIndex index) (InitIndex columns)
        None true false false
  | OtherSeries other =>
      let columns := Index_union (_columns self) (s_index other) in
      self_f ← reindex self InitNone (InitIndex columns) VNaN;
      other_s ← Series_reindex other (InitIndex columns) VNaN;
      tb ← TypeBlocks_ufunc_binary_operator operator (_blocks self_f)
              (StoreArray (s_values other_s));
      Frame_init (cls self) (DataBlocks tb) (InitIndex (_index self)) (InitIndex columns)
        None true false false
  | OtherArray a | OtherIterable a =>
      (* handle single values and lists that can be converted to appropriate arrays *)
      tb ← TypeBlocks_ufunc_binary_operator operator (_blocks self) (StoreArray a);
      (* assume we will keep dimensionality *)
      Frame_init (cls self) (DataBlocks tb) (InitIndex (_index self))
        (InitIndex (_columns self)) None true false false
  | OtherElement v =>
      tb ← TypeBlocks_ufunc_binary_operator operator (_blocks self) (StoreElement v);
      Frame_init (cls self) (DataBlocks tb) (InitIndex (_index self))
        (InitIndex (_columns self)) None true false false
  end.

(** A Boolean array, or [None], as a key of [_extract]. *)
Definition mask_key (m : option (list bool)) : GetItemKeyType :=
  match m with
  | None => KNone
  | Some m => KMask m
  end.

(** [Frame.dropna]; [condition] goes to the store as it is. *)
Definition dropna (self : Frame) (axis : Z) (condition : list bool → bool)
  : result Extraction :=
  (* returns Boolean areas that define axis to keep *)
  keys ← TypeBlocks_dropna_to_keep_locations (_blocks self) axis condition;
  let '(row_key, column_key) := keys in
  if match cls self, row_key, column_key with
     | Frame_cls, Some row_key, Some column_key =>
         forallb id row_key && forallb id column_key
     | _, _, _ => false
     end
  then Ok (RFrame self)
  else _extract self (mask_key row_key) (mask_key column_key).

(** [Frame.sort_index]; the kind of the sort is a matter of [np_argsort]
    alone. *)
Definition sort_index (self : Frame) (ascending : bool) : result Frame :=
  (* argsort lets us do the sort once and reuse the results *)
  order ← np_argsort (labels (_index self));
  let order := if negb ascending then reverse order else order in
  index_values ← labels_at (labels (_index self)) order;
  blocks_ ← TypeBlocks_iloc_rows (_blocks self) order;
  Frame_init (cls self) (DataBlocks blocks_) (InitLabels index_values)
    (InitIndex (_columns self)) (_name self) true false false.

(** [Frame.sort_columns] *)
Definition sort_columns (self : Frame) (ascending : bool) : result Frame :=
  order ← np_argsort (labels (_columns self));
  let order := if negb ascending then reverse order else order in
  columns_values ← labels_at (labels (_columns self)) order;
  blocks_ ← TypeBlocks_getitem_columns (_blocks self) order;
  Frame_init (cls self) (DataBlocks blocks_) (InitIndex (_index self))
    (InitLabels columns_values) (_name self) true false false.

End Store_operations.

(** ** Example data *)

(** A stable argsort over labels: the positions in the order of the
    labels. *)
Definition argsort_labels (ls : list label) : result (list nat) :=
  Ok (snd <$> merge_sort (H := λ p q, label_le_dec p.1 q.1)
                (λ p q : label * nat, label_le p.1 q.1)
                (zip ls (seq 0 (length ls)))).

(** The store of the rows, or of the columns, at a list of positions. *)
Definition rows_at (tb : TypeBlocks) (order : list nat) : result TypeBlocks :=
  ex ← TypeBlocks_extract tb (KList (Z.of_nat <$> order)) KNone;
  match ex with Blocks b => Ok b | Element _ => Raise TypeError end.

Definition columns_at (tb : TypeBlocks) (order : list nat) : result TypeBlocks :=
  ex ← TypeBlocks_extract tb KNone (KList (Z.of_nat <$> order));
  match ex with Blocks b => Ok b | Element _ => Raise TypeError end.

(** The rows to keep: those of which the condition does not hold of the
    missing values. *)
Definition keep_rows (tb : TypeBlocks) (axis : Z) (condition : list bool → bool)
  : result (option (list bool) * option (list bool)) :=
  Ok (Some ((λ i, negb (condition ((λ col : list element,
                                      bool_decide (col !! i = Some VNaN))
                                   <$> tb_columns tb)))
            <$> seq 0 (shape tb).1), None).

(** The union of two indices in sorted order, of the kind of the first. *)
Definition union_sorted (a b : IndexBase) : IndexBase :=
  {| labels := ufunc_unique (labels a ++ labels b); STATIC := STATIC a |}.

(** The sum of two integers, and no value for anything else. *)
Definition element_add (a b : element) : element :=
  match a, b with
  | VInt x, VInt y => VInt (x + y)
  | _, _ => VNaN
  end.

(** A binary operator on a store, element by element, with another store
    or with a single value. *)
Definition blocks_elementwise (operator : element → element → element)
    (tb : TypeBlocks) (other : StoreOther) : result TypeBlocks :=
  match other with
  | StoreBlocks tb2 =>
      Ok {| blocks := (λ cc : list element * list element,
                         {| a_dtype := DObject; a_ndim := 1; a_rows := length cc.1;
                            a_columns := [zip_with operator cc.1 cc.2] |})
                      <$> zip (tb_columns tb) (tb_columns tb2);
            shape := shape tb |}
  | StoreElement v =>
      Ok {| blocks := (λ col : list element,
                         {| a_dtype := DObject; a_ndim := 1; a_rows := length col;
                            a_columns := [(λ a, operator a v) <$> col] |})
                      <$> tb_columns tb;
            shape := shape tb |}
  | StoreArray _ => Raise ValueError
  end.

(** The arrays along an axis of a store: its columns for axis 0, its rows
    for axis 1. *)
Definition columns_or_rows (tb : TypeBlocks) (axis : Z) : result (list (list element)) :=
  if decide (axis = 0%Z) then Ok (tb_columns tb)
  else Ok ((λ i, omap (λ col : list element, col !! i) (tb_columns tb))
             <$> seq 0 (shape tb).1).




(** A mapping with the single key [1], as [{1: 'one'}]. *)
Definition one_contains (x : pyobj) : bool :=
  match x with
  | PElement (VInt 1) => true
  | _ => false
  end.

Definition one_getitem (x : pyobj) : result pyobj :=
  match x with
  | PElement (VInt 1) => Ok (PElement (VStr "one"))
  | _ => Raise (KeyError "key")
  end.

(** An iteration over the elements [1] and [2] under the labels [w], [x]. *)
Definition two_elements (yield_type : IterNodeType)
  : IterNodeDelegate (list (pyobj * pyobj)) :=
  {| _func_values := [PElement (VInt 1); PElement (VInt 2)];
     _func_items := [(PLabel (LStr "w"), PElement (VInt 1));
                     (PLabel (LStr "x"), PElement (VInt 2))];
     _yield_type := yield_type;
     _apply_constructor := λ items _, Ok items |}.

(** A two-dimensional array without rows: [np.empty((0, 2))]. *)
Definition no_rows : ndarray :=
  {| a_dtype := DFloat; a_ndim := 2; a_rows := 0; a_columns := [[]; []] |}.

Definition ints_2x2 : ndarray :=
  {| a_dtype := DInt; a_ndim := 2; a_rows := 2;
     a_columns := [[VInt 1; VInt 2]; [VInt 3; VInt 4]] |}.

Definition ints_3x3 : ndarray :=
  {| a_dtype := DInt; a_ndim := 2; a_rows := 3;
     a_columns := [[VInt 1; VInt 2; VInt 3]; [VInt 4; VInt 5; VInt 6];
                   [VInt 7; VInt 8; VInt 9]] |}.

Definition index_of (ls : list string) : IndexBase :=
  {| labels := LStr <$> ls; STATIC := true |}.

Definition index_go_of (ls : list string) : IndexBase :=
  {| labels := LStr <$> ls; STATIC := false |}.

Definition frame_of (c : FrameClass) (a : ndarray) (index columns : list string) : Frame :=
  {| cls := c;
     _blocks := {| blocks := [a]; shape := (a_rows a, width a) |};
     _columns := {| labels := LStr <$> columns; STATIC := COLUMN_CONSTRUCTOR_STATIC c |};
     _index := index_of index;
     _name := None |}.

(** The frame of the dimensionality example: rows [w, x, y], columns
    [p, q, r]. *)
Definition frame_3x3 : Frame := frame_of Frame_cls ints_3x3 ["w"; "x"; "y"] ["p"; "q"; "r"].

Definition frame_ab : Frame := frame_of Frame_cls ints_2x2 ["a"; "b"] ["p"; "q"].


(** A frame whose second row holds no value. *)
Definition frame_nan : Frame :=
  frame_of Frame_cls
    {| a_dtype := DObject; a_ndim := 2; a_rows := 2;
       a_columns := [[VInt 1; VNaN]; [VInt 3; VNaN]] |}
    ["a"; "b"] ["p"; "q"].

(** A frame whose rows are not in the order of their labels. *)
Definition frame_ba : Frame := frame_of Frame_cls ints_2x2 ["b"; "a"] ["p"; "q"].

Definition frame_ac : Frame := frame_of Frame_cls ints_2x2 ["a"; "c"] ["p"; "q"].

Definition frame_qr : Frame := frame_of Frame_cls ints_2x2 ["a"; "d"] ["q"; "r"].

(** A frame of the single column [p]. *)
Definition frame_p : Frame :=
  frame_of Frame_cls
    {| a_dtype := DInt; a_ndim := 2; a_rows := 2; a_columns := [[VInt 7; VInt 8]] |}
    ["a"; "d"] ["p"].

(** A frame of the columns [q], of strings, and [p], of integers, in this
    order, each in a buffer of its own. *)
Definition frame_qp : Frame :=
  {| cls := Frame_cls;
     _blocks := {| blocks := [{| a_dtype := DStr; a_ndim := 1; a_rows := 2;
                                 a_columns := [[VStr "u"; VStr "v"]] |};
                              {| a_dtype := DInt; a_ndim := 1; a_rows := 2;
                                 a_columns := [[VInt 5; VInt 6]] |}];
                   shape := (2, 2) |};
     _columns := {| labels := [LStr "q"; LStr "p"]; STATIC := true |};
     _index := index_of ["a"; "d"];
     _name := None |}.

Definition frame_rs : Frame := frame_of Frame_cls ints_2x2 ["a"; "c"] ["r"; "s"].

Definition frame_go_ab : Frame := frame_of FrameGO_cls ints_2x2 ["a"; "b"] ["p"; "q"].

(** A Series over the labels [q] and [z]. *)
Definition series_qz : Series :=
  {| s_values := [VInt 10; VInt 20]; s_index := index_of ["q"; "z"]; s_name := None |}.

(** * Properties *)

(** ** The result monad *)

Ltac unfold_result :=
  unfold mbind, result_bind, fmap, result_fmap, mret, result_ret, or_raise in *.

Lemma bind_Ok {A B} (m : result A) (f : A → result B) (b : B) :
  m ≫= f = Ok b ↔ ∃ a, m = Ok a ∧ f a = Ok b.
Proof.
  destruct m as [a|e]; simpl; split.
  - eauto.
  - by intros (? & [= <-] & ?).
  - done.
  - by intros (? & ? & ?).
Qed.

Lemma fmap_Ok {A B} (m : result A) (f : A → B) (b : B) :
  f <$> m = Ok b ↔ ∃ a, m = Ok a ∧ b = f a.
Proof.
  destruct m as [a|e]; simpl; split.
  - intros [= <-]. eauto.
  - by intros (? & [= <-] & ->).
  - done.
  - by intros (? & ? & ?).
Qed.

Lemma mapM_Ok_id {A} (l : list A) : mapM (M := result) Ok l = Ok l.
Proof. induction l as [|x l IH]; simpl; [done|]. by rewrite IH. Qed.

Lemma mapM_result_length {A B} (f : A → result B) (l : list A) (k : list B) :
  mapM f l = Ok k → length k = length l.
Proof.
  revert k. induction l as [|x l IH]; intros k; simpl.
  - by intros [= <-].
  - destruct (f x) as [y|]; simpl; [|done].
    destruct (mapM f l) as [k'|]; simpl; [|done].
    intros [= <-]. simpl. by rewrite (IH k').
Qed.

Lemma mapM_result_ext {A B} (f g : A → result B) (l : list A) :
  (∀ x, x ∈ l → f x = g x) → mapM f l = mapM g l.
Proof.
  induction l as [|x l IH]; intros Hfg; simpl; [done|].
  rewrite (Hfg x) by left. rewrite IH; [done|].
  intros y Hy. apply Hfg. by right.
Qed.

Lemma mapM_cons {A B} (f : A → result B) (x : A) (l : list A) :
  mapM f (x :: l) = (y ← f x; k ← mapM f l; mret (y :: k)).
Proof. done. Qed.

Lemma mapM_result_fmap {A B C} (f : B → result C) (g : A → B) (l : list A) :
  mapM f (g <$> l) = mapM (f ∘ g) l.
Proof.
  induction l as [|x l IH]; [done|].
  by rewrite fmap_cons, !mapM_cons, IH.
Qed.

Lemma mapM_Ok_Forall2 {A B} (f : A → result B) (l : list A) (k : list B) :
  mapM f l = Ok k ↔ Forall2 (λ x y, f x = Ok y) l k.
Proof.
  revert k. induction l as [|x l IH]; intros k.
  - simpl. split; [intros [= <-]; constructor|by inversion 1].
  - rewrite mapM_cons. split.
    + intros H. apply bind_Ok in H as (y & Hy & H).
      apply bind_Ok in H as (k' & Hk & [= <-]).
      constructor; [done|]. by apply IH.
    + inversion 1 as [|? y ? k' Hy Hk]; subst. rewrite Hy. simpl.
      apply IH in Hk. by rewrite Hk.
Qed.

Lemma mapM_is_Ok {A B} (f : A → result B) (l : list A) :
  Forall (λ x, ∃ y, f x = Ok y) l → ∃ k, mapM f l = Ok k.
Proof.
  induction 1 as [|x l [y Hy] _ [k Hk]]; [by exists []|].
  exists (y :: k). by rewrite mapM_cons, Hy, Hk.
Qed.

Lemma mapM_Ok_lookup {A B} (f : A → result B) (l : list A) (k : list B) i x :
  mapM f l = Ok k → l !! i = Some x → ∃ y, k !! i = Some y ∧ f x = Ok y.
Proof.
  intros H Hx. apply mapM_Ok_Forall2 in H.
  destruct (Forall2_lookup_l _ _ _ _ _ H Hx) as (y & Hy & Hf). eauto.
Qed.

(** ** Direct subscription *)

(** C10: for every Frame and every tuple-valued key, [__getitem__] raises
    the KeyError "__getitem__ does not support multiple indexers"; a key
    that is accepted only ever selects on the column axis, the row key of
    the extraction being [None]. *)
Theorem getitem_tuple_key_error (self : Frame) :
  (∀ ks : list LocKeyType,
     __getitem__ self (Tuple ks)
     = Raise (KeyError "__getitem__ does not support multiple indexers"))
  ∧ (∀ k : LocKeyType,
       __getitem__ self (One k)
       = (iloc_column_key ← loc_to_iloc (_columns self) k;
          _extract self KNone iloc_column_key)).
Proof.
  split.
  - intros ks. reflexivity.
  - intros k. unfold __getitem__, _compound_loc_to_getitem_iloc.
    by destruct (loc_to_iloc (_columns self) k).
Qed.

(** ** The grow-only Frame *)

(** C9: for every FrameGO and every label already present in its columns,
    [__setitem__] raises a RuntimeError and leaves the frame (its blocks,
    its columns and their order, its index, its name) as it was. *)
Theorem setitem_existing_key_rejected (self : Frame) (key : label)
    (val : SetItemValue) (fill_value : element) :
  cls self = FrameGO_cls →
  key ∈ labels (_columns self) →
  __setitem__ self key val fill_value
  = (self, Raise (RuntimeError
       "key already defined in columns; use .assign to get new Frame")).
Proof.
  intros Hcls Hin. unfold __setitem__. rewrite Hcls.
  unfold Index_contains. by rewrite bool_decide_eq_true_2.
Qed.

Lemma setitem_existing_key_rejected_witness :
  __setitem__ frame_go_ab (LStr "q") (SetElement (VInt 0)) VNaN
  = (frame_go_ab, Raise (RuntimeError
       "key already defined in columns; use .assign to get new Frame")).
Proof.
  apply (setitem_existing_key_rejected frame_go_ab (LStr "q")); [reflexivity|].
  simpl. apply list_elem_of_In. simpl. tauto.
Defined.

(** ** Sequential and parallel apply *)







(** ** The constructor *)

Lemma index_eta (ix : IndexBase) : {| labels := labels ix; STATIC := STATIC ix |} = ix.
Proof. by destruct ix. Qed.

Lemma from_blocks_singleton (a : ndarray) :
  TypeBlocks_from_blocks [a] = Ok {| blocks := [a]; shape := (a_rows a, width a) |}.
Proof.
  unfold TypeBlocks_from_blocks. simpl.
  rewrite bool_decide_eq_true_2 by done. simpl. by rewrite Nat.add_0_r.
Qed.

Lemma np_full_shape (sh : nat * nat) (v : element) :
  (a_rows (np_full sh v), width (np_full sh v)) = sh.
Proof. destruct sh. unfold width. simpl. by rewrite length_replicate. Qed.

Lemma from_blocks_full_shape (sh : nat * nat) (v : element) (tb : TypeBlocks) :
  TypeBlocks_from_blocks [np_full sh v] = Ok tb → shape tb = sh.
Proof. rewrite from_blocks_singleton. intros [= <-]. apply np_full_shape. Qed.

Lemma size_checks_Ok (c : FrameClass) (tb : TypeBlocks) (cx ix : IndexBase)
    (name : option label) (row_count col_count : nat) (f : Frame) :
  size_checks c tb cx ix name row_count col_count = Ok f ↔
  f = {| cls := c; _blocks := tb; _columns := cx; _index := ix; _name := name |}
  ∧ length (labels cx) = col_count
  ∧ (row_count ≠ 0 → length (labels ix) = row_count).
Proof.
  unfold size_checks. split.
  - destruct (andb _ _) eqn:E1; [done|].
    destruct (bool_decide (length (labels cx) ≠ col_count)) eqn:E2; [done|].
    intros [= <-]. split; [done|].
    apply bool_decide_eq_false in E2. apply andb_false_iff in E1.
    split; [by apply dec_stable|]. intros Hr. apply dec_stable.
    destruct E1 as [E1|E1]; apply bool_decide_eq_false in E1; naive_solver.
  - intros (-> & Hc & Hr).
    rewrite (bool_decide_eq_false_2 (length (labels cx) ≠ col_count))
      by (intros H; by apply H).
    destruct (decide (row_count = 0)) as [E|E].
    + by rewrite (bool_decide_eq_false_2 (row_count ≠ 0)) by (intros H; by apply H).
    + rewrite (bool_decide_eq_false_2 (length (labels ix) ≠ row_count));
        [by rewrite andb_false_r|]. intros H. by apply H, Hr.
Qed.

Lemma assign_index_count static shared own init (n : nat) ix count :
  assign_index static shared own init (Some n) = Ok (ix, count) → count = Some n.
Proof.
  unfold assign_index. intros H.
  repeat case_match; apply bind_Ok in H as (? & _ & [= _ <-]); done.
Qed.

(** An index object with unique labels is taken as it is when it is owned
    or static and shared, and rebuilt with the same labels otherwise. *)
Lemma assign_index_object static shared own (ix : IndexBase) (n : nat) :
  NoDup (labels ix) → length (labels ix) = n →
  assign_index static shared own (InitIndex ix) (Some n)
  = Ok (if own || (STATIC ix && shared) then ix
        else {| labels := labels ix; STATIC := static |}, Some n).
Proof.
  intros Hnd Hlen. unfold assign_index. simpl.
  destruct (own || STATIC ix && shared); [done|].
  destruct (bool_decide (labels ix = [])) eqn:E; simpl.
  - apply bool_decide_eq_true in E. rewrite E in *. simpl in Hlen. subst n.
    by change (Index_range static 0) with (Ok {| labels := []; STATIC := static |}).
  - unfold Index_init. by rewrite decide_True.
Qed.

Lemma Frame_init_checked c data index columns name own_data own_index own_columns f :
  Frame_init c data index columns name own_data own_index own_columns = Ok f →
  Frame_checked f.
Proof.
  unfold Frame_init, Frame_checked. intros H.
  apply bind_Ok in H as (pre & Hpre & H).
  destruct pre as [tb|blocks_constructor].
  - apply bind_Ok in H as ([cx cc] & Hcc & H).
    apply bind_Ok in H as ([ix rc] & Hrc & H).
    apply assign_index_count in Hcc as ->. apply assign_index_count in Hrc as ->.
    simpl in H. by apply size_checks_Ok in H as (-> & ? & ?).
  - apply bind_Ok in H as ([cx cc] & Hcc & H).
    apply bind_Ok in H as ([ix rc] & Hrc & H).
    apply bind_Ok in H as ([[tb r] k] & Hsized & H).
    apply bind_Ok in Hsized as (tb' & Htb & [= <- <- <-]).
    assert (shape tb' = (length (labels ix), length (labels cx))) as Hsh.
    { clear H Hcc Hrc.
      destruct data; simpl in Hpre;
        try (by unfold_result; repeat case_match; simplify_eq).
      - destruct (is_none columns || is_none index); injection Hpre as <-.
        + by injection Htb as <-.
        + by apply from_blocks_full_shape in Htb.
      - injection Hpre as <-. by apply from_blocks_full_shape in Htb. }
    apply size_checks_Ok in H as (-> & ? & ?). simpl. by rewrite Hsh.
Qed.

(** The constructor on an owned store and two index objects. *)
Lemma Frame_init_objects c tb (ix cx : IndexBase) name own_index own_columns :
  NoDup (labels ix) → NoDup (labels cx) →
  length (labels cx) = (shape tb).2 →
  ((shape tb).1 ≠ 0 → length (labels ix) = (shape tb).1) →
  Frame_init c (DataBlocks tb) (InitIndex ix) (InitIndex cx) name true own_index own_columns
  = Ok {| cls := c; _blocks := tb;
          _columns := if own_columns || (STATIC cx && COLUMN_CONSTRUCTOR_STATIC c) then cx
                      else {| labels := labels cx; STATIC := COLUMN_CONSTRUCTOR_STATIC c |};
          _index := if own_index || (STATIC ix && true) then ix
                    else {| labels := labels ix; STATIC := true |};
          _name := name |}.
Proof.
  intros Hix Hcx Hc Hr. unfold Frame_init. simpl.
  rewrite (assign_index_object _ _ _ cx (shape tb).2 Hcx Hc). simpl.
  assert (∃ n, assign_index true true own_index (InitIndex ix) (Some (shape tb).1)
               = Ok (if own_index || (STATIC ix && true) then ix
                     else {| labels := labels ix; STATIC := true |}, Some n)
               ∧ n = (shape tb).1) as (n & -> & ->).
  { destruct (decide ((shape tb).1 = 0)) as [E|E].
    - exists (shape tb).1. split; [|done]. unfold assign_index. simpl.
      destruct (own_index || STATIC ix && true); [done|].
      destruct (bool_decide (labels ix = [])) eqn:E'; simpl.
      + apply bool_decide_eq_true in E'. rewrite E', E.
        by change (Index_range true 0) with (Ok {| labels := []; STATIC := true |}).
      + unfold Index_init. by rewrite decide_True.
    - exists (shape tb).1. split; [|done]. apply assign_index_object; auto. }
  simpl. apply size_checks_Ok. split; [done|]. split.
  - by destruct (own_columns || _).
  - intros Hne. destruct (own_index || _); simpl; auto.
Qed.

(** C5, the claim as stated fails: an array of no rows takes an index of
    three labels. *)
Lemma Frame_init_no_rows_unchecked :
  ∃ f, Frame_init Frame_cls (DataArray no_rows)
         (InitLabels [LStr "a"; LStr "b"; LStr "c"])
         (InitLabels [LStr "x"; LStr "y"]) None false false false = Ok f
       ∧ length (labels (_index f)) = 3
       ∧ (shape (_blocks f)).1 = 0.
Proof. eexists. split; [vm_compute; reflexivity|]. done. Qed.

(** ** Extraction *)

Lemma TypeBlocks_extract_null (tb : TypeBlocks) :
  TypeBlocks_extract tb KNone KNone = Ok (Blocks tb).
Proof.
  destruct tb as [bs [r c]]. unfold TypeBlocks_extract, extract_blocks. simpl.
  change (block_rows KNone (seq 0 r)) with (@Ok ndarray).
  rewrite mapM_Ok_id. simpl. by rewrite !length_seq.
Qed.

Lemma as_frame_null (f : Frame) :
  Frame_ok f →
  Frame_init (cls f) (DataBlocks (_blocks f)) (InitIndex (_index f))
    (InitIndex (_columns f)) (_name f) true true (COLUMN_CONSTRUCTOR_STATIC (cls f))
  = Ok f.
Proof.
  intros (Hc & Hr & Hcn & Hrn & Hcs & Hrs).
  rewrite Frame_init_objects by done. simpl. rewrite <- Hcs, index_eta.
  destruct f; simpl. by destruct (STATIC _ || _).
Qed.

(** C3: for every Frame, the extraction with the row key and the column
    key both [None] returns a Frame with the blocks, the row index, the
    column index and the name of the Frame it is taken from. *)
Theorem extract_null_identity (f : Frame) :
  Frame_ok f →
  _extract f KNone KNone = Ok (RFrame f).
Proof.
  intros Hok. unfold _extract, collapse. rewrite TypeBlocks_extract_null. simpl.
  rewrite (as_frame_null f Hok). simpl.
  by repeat case_match.
Qed.

Lemma frame_of_ok c a index columns :
  NoDup (LStr <$> index) → NoDup (LStr <$> columns) →
  length columns = width a → (a_rows a ≠ 0 → length index = a_rows a) →
  Frame_ok (frame_of c a index columns).
Proof.
  intros. unfold Frame_ok. simpl. rewrite !length_fmap. done.
Qed.

Lemma extract_null_identity_witness :
  _extract frame_3x3 KNone KNone = Ok (RFrame frame_3x3).
Proof.
  apply (extract_null_identity frame_3x3).
  apply frame_of_ok; [compute_done|compute_done|reflexivity|reflexivity].
Defined.

(** *** Positions and labels *)

Lemma norm_pos_lt (n : nat) (i : Z) (p : nat) : norm_pos n i = Ok p → p < n.
Proof.
  unfold norm_pos. repeat case_decide; intros [= <-]; lia.
Qed.

Lemma labels_at_bound (ls : list label) (ps : list nat) (out : list label) :
  labels_at ls ps = Ok out → Forall (λ p, p < length ls) ps ∧ length out = length ps.
Proof.
  intros H. split.
  - apply mapM_Ok_Forall2 in H. induction H as [|p l ps out Hp _ IH]; constructor; [|done].
    destruct (ls !! p) eqn:E; [|done]. by apply lookup_lt_Some in E.
  - by apply mapM_result_length in H.
Qed.

Lemma labels_at_seq (ls : list label) : labels_at ls (seq 0 (length ls)) = Ok ls.
Proof.
  apply mapM_Ok_Forall2. apply Forall2_same_length_lookup_2.
  - by rewrite length_seq.
  - intros i p l Hp Hl. apply lookup_seq in Hp as [-> _]. simpl. by rewrite Hl.
Qed.

Lemma null_slice_positions (n : nat) : slice_positions None None None n = Ok (seq 0 n).
Proof.
  unfold slice_positions. simpl. f_equal.
  assert ((if decide (0 < Z.of_nat n)%Z
           then Z.to_nat ((Z.of_nat n - 0 + 1 - 1) / 1) else 0) = n) as ->.
  { case_decide; [|lia]. rewrite Z.div_1_r. lia. }
  rewrite <- (list_fmap_id (seq 0 n)) at 2. apply list_fmap_ext.
  intros i k _. simpl. lia.
Qed.

Lemma selected_labels_null (ix : IndexBase) (key : GetItemKeyType) :
  key = KNone ∨ key = NULL_SLICE → selected_labels ix key = Ok (labels ix).
Proof.
  unfold selected_labels. intros [->| ->].
  - simpl. apply labels_at_seq.
  - unfold NULL_SLICE, select. rewrite null_slice_positions. simpl. apply labels_at_seq.
Qed.

(** What [axis_index] returns for a key that selects the labels [ls]. *)
Lemma axis_index_multi (ix : IndexBase) (key : GetItemKeyType) (ls : list label) :
  selected_labels ix key = Ok ls → NoDup ls →
  (∀ i, key ≠ KInt i) →
  axis_index ix key = Ok (InitIndex {| labels := ls; STATIC := STATIC ix |}, None).
Proof.
  intros Hls Hnd Hkey. unfold axis_index.
  destruct (key_is_none key || is_slice key && bool_decide (key = NULL_SLICE)) eqn:E.
  - assert (key = KNone ∨ key = NULL_SLICE) as Hnull.
    { destruct key; simpl in E; try done; [by left|].
      apply bool_decide_eq_true in E. by right. }
    rewrite (selected_labels_null ix key Hnull) in Hls. injection Hls as <-.
    by rewrite index_eta.
  - assert (Index_extract_iloc ix key
            = Ok (InitIndex {| labels := ls; STATIC := STATIC ix |})) as ->.
    { unfold selected_labels in Hls. apply bind_Ok in Hls as (ps & Hps & Hls).
      unfold Index_extract_iloc, Index_init.
      destruct key; try done; [by destruct (Hkey i)| | |];
        rewrite Hps; simpl; rewrite Hls; simpl; by rewrite decide_True. }
    simpl. destruct key; try done. by destruct (Hkey i).
Qed.

Lemma axis_index_single (ix : IndexBase) (i : Z) (ls : list label) :
  selected_labels ix (KInt i) = Ok ls →
  ∃ l, ls = [l] ∧ axis_index ix (KInt i) = Ok (InitLabel l, Some l).
Proof.
  unfold selected_labels, axis_index, Index_extract_iloc, name_at. simpl.
  destruct (norm_pos (length (labels ix)) i) as [p|]; simpl; [|done].
  destruct (labels ix !! p) as [l|]; simpl; [|done].
  intros [= <-]. by exists l.
Qed.

(** *** The store of a selection *)

Lemma typed_columns_cons (b : ndarray) (bs : list ndarray) (sh : nat * nat) :
  typed_columns {| blocks := b :: bs; shape := sh |}
  = ((λ c, (a_dtype b, c)) <$> a_columns b) ++ typed_columns {| blocks := bs; shape := sh |}.
Proof. done. Qed.

Lemma tb_columns_cons (b : ndarray) (bs : list ndarray) (sh : nat * nat) :
  tb_columns {| blocks := b :: bs; shape := sh |}
  = a_columns b ++ tb_columns {| blocks := bs; shape := sh |}.
Proof.
  unfold tb_columns. rewrite typed_columns_cons, fmap_app. f_equal.
  rewrite <- list_fmap_compose. apply list_fmap_id.
Qed.

Lemma tb_columns_shape (bs : list ndarray) (sh sh' : nat * nat) :
  tb_columns {| blocks := bs; shape := sh |} = tb_columns {| blocks := bs; shape := sh' |}.
Proof. done. Qed.

Lemma tb_columns_length (bs : list ndarray) (sh : nat * nat) :
  length (tb_columns {| blocks := bs; shape := sh |}) = sum_list (width <$> bs).
Proof.
  induction bs as [|b bs IH]; [done|].
  rewrite tb_columns_cons, length_app, IH. done.
Qed.

Lemma tb_columns_Forall (P : list element → Prop) (bs : list ndarray) (sh : nat * nat) :
  Forall (λ b, Forall P (a_columns b)) bs →
  Forall P (tb_columns {| blocks := bs; shape := sh |}).
Proof.
  induction 1 as [|b bs Hb _ IH]; [constructor|].
  rewrite tb_columns_cons. by apply Forall_app.
Qed.

Lemma typed_columns_length (tb : TypeBlocks) :
  length (typed_columns tb) = length (tb_columns tb).
Proof. unfold tb_columns. by rewrite length_fmap. Qed.

Lemma wf_columns (tb : TypeBlocks) :
  TypeBlocks_wf tb →
  length (tb_columns tb) = (shape tb).2
  ∧ Forall (λ col, length col = (shape tb).1) (tb_columns tb).
Proof.
  destruct tb as [bs sh]. intros [Hb Hw]. simpl in *. split.
  - by rewrite tb_columns_length.
  - apply tb_columns_Forall. eapply Forall_impl; [exact Hb|]. by intros b [_ ?].
Qed.

Lemma take_rows_Ok (rk : GetItemKeyType) (rows : list nat) (col : list element) :
  Forall (λ r, r < length col) rows →
  ∃ out, take_rows rk rows col = Ok out
         ∧ length out = if key_is_none rk then length col else length rows.
Proof.
  intros Hrows. unfold take_rows. destruct (key_is_none rk); [by exists col|].
  destruct (mapM_is_Ok (λ r, or_raise IndexError (col !! r)) rows) as [out Hout].
  - eapply Forall_impl; [exact Hrows|]. intros r Hr. simpl.
    destruct (lookup_lt_is_Some_2 col r Hr) as [v ->]. by exists v.
  - exists out. split; [done|]. by apply mapM_result_length in Hout.
Qed.

Lemma select_none_length (n : nat) (key : GetItemKeyType) (ps : list nat) :
  key_is_none key = true → select n key = Ok ps → length ps = n.
Proof. destruct key; try done. intros _ [= <-]. apply length_seq. Qed.

Section extract_blocks.
Context (tb : TypeBlocks) (rk ck : GetItemKeyType) (rows cols : list nat).
Hypothesis Hwf : TypeBlocks_wf tb.
Hypothesis Hrows : select (shape tb).1 rk = Ok rows.
Hypothesis Hcols : select (shape tb).2 ck = Ok cols.
Hypothesis Hrb : Forall (λ r, r < (shape tb).1) rows.
Hypothesis Hcb : Forall (λ c, c < (shape tb).2) cols.

Local Lemma take_rows_column (col : list element) :
  length col = (shape tb).1 →
  ∃ out, take_rows rk rows col = Ok out ∧ length out = length rows.
Proof.
  intros Hlen. destruct (take_rows_Ok rk rows col) as (out & Hout & Hl).
  { by rewrite Hlen. }
  exists out. split; [done|]. rewrite Hl.
  destruct (key_is_none rk) eqn:E; [|done].
  by rewrite Hlen, (select_none_length _ _ _ E Hrows).
Qed.

Local Lemma block_rows_Ok (b : ndarray) :
  Forall (λ col, length col = (shape tb).1) (a_columns b) →
  ∃ b', block_rows rk rows b = Ok b'
        ∧ Forall (λ col, length col = length rows) (a_columns b')
        ∧ width b' = width b.
Proof.
  intros Hb. unfold block_rows. destruct (key_is_none rk) eqn:E.
  - exists b. split; [done|]. split; [|done].
    eapply Forall_impl; [exact Hb|]. intros col ->.
    by rewrite (select_none_length _ _ _ E Hrows).
  - destruct (mapM_is_Ok (take_rows rk rows) (a_columns b)) as [cs Hcs].
    { eapply Forall_impl; [exact Hb|]. intros col Hcol.
      destruct (take_rows_column col Hcol) as (out & ? & ?). eauto. }
    rewrite Hcs. simpl. eexists. split; [done|]. simpl. split.
    + apply mapM_Ok_Forall2 in Hcs. clear -Hcs Hb Hrows Hrb.
      induction Hcs as [|col out cs' outs Hout _ IH]; [constructor|].
      inversion Hb; subst. constructor; [|by apply IH].
      destruct (take_rows_column col) as (out' & Hout' & ?); [done|]. congruence.
    + unfold width. simpl. by apply mapM_result_length in Hcs.
Qed.

Local Lemma block_of_column_Ok (c : nat) :
  c < (shape tb).2 →
  ∃ col, length col = length rows
         ∧ ∃ dt, block_of_column tb rk rows c
                 = Ok {| a_dtype := dt; a_ndim := 1; a_rows := length col;
                         a_columns := [col] |}.
Proof.
  intros Hc. destruct (wf_columns tb Hwf) as [Hlen Hall].
  unfold block_of_column.
  destruct (lookup_lt_is_Some_2 (typed_columns tb) c) as [[dt col] Htc].
  { by rewrite typed_columns_length, Hlen. }
  rewrite Htc. simpl.
  destruct (take_rows_column col) as (out & Hout & Hl).
  { rewrite Forall_lookup in Hall. apply (Hall c). unfold tb_columns.
    by rewrite list_lookup_fmap, Htc. }
  rewrite Hout. simpl. eauto.
Qed.

(** The selection of a well-formed store is a store of the selected
    shape, whose columns are as many as the selected columns and as long as
    the selected rows are many. *)
Lemma extract_blocks_Ok :
  ∃ b, extract_blocks tb rk ck rows cols = Ok (Blocks b)
       ∧ shape b = (length rows, length cols)
       ∧ Forall (λ col, length col = length rows) (tb_columns b)
       ∧ length (tb_columns b) = length cols
       ∧ (key_is_none ck = false →
          Forall (λ a, ∃ col, a_columns a = [col]) (blocks b)
          ∧ length (blocks b) = length cols).
Proof.
  unfold extract_blocks. destruct (key_is_none ck) eqn:E.
  - destruct (mapM_is_Ok (block_rows rk rows) (blocks tb)) as [bs Hbs].
    { destruct Hwf as [Hb _]. eapply Forall_impl; [exact Hb|].
      intros b [_ Hcol]. destruct (block_rows_Ok b Hcol) as (b' & ? & _). eauto. }
    rewrite Hbs. simpl. eexists. split; [done|]. split; [done|].
    apply mapM_Ok_Forall2 in Hbs.
    assert (Forall (λ b, Forall (λ col, length col = length rows) (a_columns b)) bs
            ∧ width <$> bs = width <$> blocks tb) as [Hall Hwidths].
    { destruct Hwf as [Hb _]. clear -Hbs Hb Hrows Hrb.
      induction Hbs as [|b b' bs bs' Hb' _ IH]; [by split; [constructor|]|].
      inversion Hb as [|? ? [_ Hcol] Hrest]; subst.
      destruct (block_rows_Ok b Hcol) as (b'' & Hb'' & ? & Hw).
      destruct (IH Hrest) as [? Hws]. rewrite Hb'' in Hb'. injection Hb' as <-.
      split; [by constructor|]. rewrite !fmap_cons. by f_equal. }
    split; [by apply tb_columns_Forall|]. split; [|done].
    rewrite tb_columns_length, Hwidths. destruct Hwf as [_ ->].
    symmetry. by apply (select_none_length _ ck).
  - destruct (mapM_is_Ok (block_of_column tb rk rows) cols) as [bs Hbs].
    { eapply Forall_impl; [exact Hcb|]. intros c Hc.
      destruct (block_of_column_Ok c Hc) as (col & _ & dt & ?). eauto. }
    rewrite Hbs. simpl. eexists. split; [done|]. split; [done|].
    assert (Forall (λ a, ∃ col, a_columns a = [col] ∧ length col = length rows) bs)
      as Hsingle.
    { apply mapM_Ok_Forall2 in Hbs. clear -Hbs Hcb Hwf Hrows Hrb.
      induction Hbs as [|c b cs bs' Hb _ IH]; [constructor|].
      inversion Hcb; subst. constructor; [|by apply IH].
      destruct (block_of_column_Ok c) as (col & Hl & dt & Hcol); [done|].
      rewrite Hcol in Hb. injection Hb as <-. simpl. eauto. }
    apply mapM_result_length in Hbs.
    split; [|split; [|intros _; split]].
    + apply tb_columns_Forall. eapply Forall_impl; [exact Hsingle|].
      intros a (col & -> & Hl). by constructor.
    + rewrite tb_columns_length, <- Hbs. clear -Hsingle.
      induction Hsingle as [|a bs (col & Ha & _) _ IH]; [done|].
      rewrite fmap_cons. simpl. unfold width at 1. rewrite Ha. simpl. by rewrite IH.
    + eapply Forall_impl; [exact Hsingle|]. intros a (col & ? & _). eauto.
    + done.
Qed.
End extract_blocks.

(** *** Dimensionality *)

Lemma selected_positions (ix : IndexBase) (key : GetItemKeyType) (ls : list label) :
  selected_labels ix key = Ok ls →
  ∃ ps, select (length (labels ix)) key = Ok ps
        ∧ Forall (λ p, p < length (labels ix)) ps
        ∧ length ls = length ps.
Proof.
  unfold selected_labels. intros H. apply bind_Ok in H as (ps & Hps & H).
  apply labels_at_bound in H as [? ?]. eauto.
Qed.

Lemma array_row_single (a : ndarray) :
  Forall (λ col, length col = 1) (a_columns a) →
  ∃ vs, array_row a 0 = Ok vs ∧ length vs = width a.
Proof.
  intros Hcols. destruct (mapM_is_Ok (λ col, or_raise IndexError (col !! 0)) (a_columns a))
    as [vs Hvs].
  - eapply Forall_impl; [exact Hcols|]. intros [|v col]; [done|]. by exists v.
  - exists vs. split; [done|]. by apply mapM_result_length in Hvs.
Qed.

Lemma extract_element (tb : TypeBlocks) (i j : Z) (p q : nat) :
  TypeBlocks_wf tb →
  norm_pos (shape tb).1 i = Ok p → norm_pos (shape tb).2 j = Ok q →
  ∃ v, TypeBlocks_extract tb (KInt i) (KInt j) = Ok (Element v).
Proof.
  intros Hwf Hp Hq. unfold TypeBlocks_extract. simpl. rewrite Hp, Hq. simpl.
  destruct (wf_columns tb Hwf) as [Hlen Hall]. unfold cell.
  apply norm_pos_lt in Hp, Hq.
  destruct (lookup_lt_is_Some_2 (tb_columns tb) q) as [col Hcol]; [by rewrite Hlen|].
  rewrite Hcol. simpl.
  destruct (lookup_lt_is_Some_2 col p) as [v Hv].
  { rewrite Forall_lookup in Hall. by rewrite (Hall q col Hcol). }
  rewrite Hv. simpl. by exists v.
Qed.

Lemma not_int_not_single (rk ck : GetItemKeyType) :
  (_extract_axis_not_multi rk ck).1 = (if rk is KInt _ then true else false)
  ∧ (_extract_axis_not_multi rk ck).2 = (if ck is KInt _ then true else false).
Proof. by destruct rk, ck. Qed.

Section collapse.
Context (self : Frame) (b : TypeBlocks) (rl cl : list label) (nrows ncols : nat).
Hypothesis Hshape : shape b = (nrows, ncols).
Hypothesis Hcolumns : Forall (λ col, length col = nrows) (tb_columns b).
Hypothesis Hwidth : length (tb_columns b) = ncols.

Local Lemma first_row :
  nrows = 1 → ∃ vs, array_row (tb_values b) 0 = Ok vs ∧ length vs = ncols.
Proof.
  intros ->. destruct (array_row_single (tb_values b)) as (vs & Hvs & Hl); [done|].
  exists vs. split; [done|]. by rewrite Hl.
Qed.

(** A single row key leaves a Series over the selected columns. *)
Lemma collapse_row (cstatic : bool) (name_row name_column : option label)
    (index : IndexInitializer) (nm_column own_index own_columns : bool) :
  nrows = 1 →
  ∃ s, collapse self b index (InitIndex {| labels := cl; STATIC := cstatic |})
         name_row name_column (true, nm_column) own_index own_columns = Ok (RSeries s)
       ∧ labels (s_index s) = cl ∧ s_name s = name_row ∧ length (s_values s) = ncols.
Proof.
  intros Hrows. destruct (first_row Hrows) as (vs & Hvs & Hl).
  unfold collapse. rewrite Hshape, Hrows. simpl.
  rewrite Hvs. simpl. eexists. split; [by repeat case_match|]. done.
Qed.

(** A single column key leaves a Series over the selected rows. *)
Lemma collapse_column (name_row name_column : option label)
    (columns : IndexInitializer) (own_index own_columns : bool) :
  ncols = 1 →
  Forall (λ a, ∃ col, a_columns a = [col]) (blocks b) →
  length (blocks b) = 1 →
  ∃ s, collapse self b (InitIndex {| labels := rl; STATIC := true |}) columns
         name_row name_column (false, true) own_index own_columns = Ok (RSeries s)
       ∧ labels (s_index s) = rl ∧ s_name s = name_column
       ∧ length (s_values s) = nrows.
Proof.
  intros Hcols Hsingle Hone. unfold collapse. rewrite Hshape, Hcols. simpl.
  destruct (bool_decide ((nrows, 1) = (1, 1))) eqn:E.
  - apply bool_decide_eq_true in E. injection E as E.
    destruct (first_row E) as (vs & Hvs & Hl). rewrite Hvs. simpl.
    eexists. split; [done|]. simpl. split; [done|]. split; [done|]. by rewrite Hl, E.
  - assert (bool_decide (nrows = 1) = false) as ->.
    { apply bool_decide_eq_false. intros ->. by apply bool_decide_eq_false in E. }
    destruct b as [[|a [|? ?]] sh]; simpl in *; try done.
    inversion Hsingle as [|? ? [col Ha] _]; subst. simpl. rewrite Ha. simpl.
    eexists. split; [done|]. simpl. split; [done|]. split; [done|].
    rewrite tb_columns_cons, Ha in Hcolumns. by inversion Hcolumns.
Qed.

(** Two multiple keys leave a Frame over the selected rows and columns. *)
Lemma collapse_frame (cstatic : bool) (name_row name_column : option label)
    (own_columns : bool) :
  NoDup rl → NoDup cl → length rl = nrows → length cl = ncols →
  ∃ f', collapse self b (InitIndex {| labels := rl; STATIC := true |})
          (InitIndex {| labels := cl; STATIC := cstatic |})
          name_row name_column (false, false) true own_columns = Ok (RFrame f')
        ∧ labels (_index f') = rl ∧ labels (_columns f') = cl
        ∧ _blocks f' = b ∧ _name f' = _name self ∧ cls f' = cls self.
Proof.
  intros Hrl Hcl Hrlen Hclen. unfold collapse.
  rewrite (Frame_init_objects (cls self) b {| labels := rl; STATIC := true |}
             {| labels := cl; STATIC := cstatic |}); simpl; try done.
  - eexists {| cls := cls self; _blocks := b; _index := _; _columns := _;
                _name := _name self |}.
    split.
    { by destruct (bool_decide (shape b = _)), (bool_decide ((shape b).1 = 1)),
        (bool_decide ((shape b).2 = 1)). }
    simpl. split; [done|]. split; [by destruct (own_columns || _)|done].
  - by rewrite Hshape.
  - by rewrite Hshape.
Qed.
End collapse.

(** The kind of the result of [Frame._extract], by the keys: an integer
    key selects a single position, every other key several. *)
Lemma extract_kind (f : Frame) (rk ck : GetItemKeyType) (rl cl : list label) :
  Frame_wf f →
  selected_labels (_index f) rk = Ok rl →
  selected_labels (_columns f) ck = Ok cl →
  NoDup rl → NoDup cl →
  match rk, ck with
  | KInt _, KInt _ => ∃ v, _extract f rk ck = Ok (RElement v)
  | KInt _, _ =>
      ∃ s, _extract f rk ck = Ok (RSeries s)
           ∧ labels (s_index s) = cl ∧ s_name s = head rl
           ∧ length (s_values s) = length cl
  | _, KInt _ =>
      ∃ s, _extract f rk ck = Ok (RSeries s)
           ∧ labels (s_index s) = rl ∧ s_name s = head cl
           ∧ length (s_values s) = length rl
  | _, _ =>
      ∃ f', _extract f rk ck = Ok (RFrame f')
            ∧ labels (_index f') = rl ∧ labels (_columns f') = cl
            ∧ shape (_blocks f') = (length rl, length cl)
  end.
Proof.
  intros (Hwf & Hrlen & Hclen & Hrn & Hcn & Hrs & Hcs) Hrl Hcl Hrnd Hcnd.
  destruct (selected_positions _ _ _ Hrl) as (rows & Hrows & Hrb & Hrll).
  destruct (selected_positions _ _ _ Hcl) as (cols & Hcols & Hcb & Hcll).
  rewrite Hrlen in Hrows, Hrb. rewrite Hclen in Hcols, Hcb.
  destruct (extract_blocks_Ok (_blocks f) rk ck rows cols Hwf Hrows Hcols Hrb Hcb)
    as (b & Hb & Hshape & Hcolumns & Hwidth & Hsingle).
  assert (∀ i, rk = KInt i → ∃ l, rl = [l] ∧ length rows = 1
               ∧ axis_index (_index f) rk = Ok (InitLabel l, Some l)) as Hrow_single.
  { intros i ->. destruct (axis_index_single _ _ _ Hrl) as (l & -> & ?).
    exists l. by rewrite <- Hrll. }
  assert (∀ j, ck = KInt j → ∃ l, cl = [l] ∧ length cols = 1
               ∧ axis_index (_columns f) ck = Ok (InitLabel l, Some l)) as Hcol_single.
  { intros j ->. destruct (axis_index_single _ _ _ Hcl) as (l & -> & ?).
    exists l. by rewrite <- Hcll. }
  assert ((∀ i, rk ≠ KInt i) →
          axis_index (_index f) rk
          = Ok (InitIndex {| labels := rl; STATIC := true |}, None)) as Hrow_multi.
  { intros H. rewrite <- Hrs. by apply axis_index_multi. }
  assert ((∀ j, ck ≠ KInt j) →
          axis_index (_columns f) ck
          = Ok (InitIndex {| labels := cl; STATIC := STATIC (_columns f) |}, None))
    as Hcol_multi.
  { intros H. by apply axis_index_multi. }
  destruct rk as [|i|s e st|l|m]; destruct ck as [|j|s' e' st'|l'|m'].
  all: unfold _extract, TypeBlocks_extract; rewrite Hrows, Hcols;
    cbn [mbind result_bind]; try rewrite Hb; cbn [mbind result_bind].
  all: try (rewrite Hrow_multi by done); try (rewrite Hcol_multi by done).
  all: try (destruct (Hrow_single _ eq_refl) as (lr & -> & Hr1 & ->));
    try (destruct (Hcol_single _ eq_refl) as (lc & -> & Hc1 & ->)).
  all: cbn [mbind result_bind _extract_axis_not_multi key_is_none is_multiple
            negb andb head].
  (* both keys single *)
  7: { assert (∃ p, norm_pos (shape (_blocks f)).1 i = Ok p) as [p Hp].
       { simpl in Hrows. destruct (norm_pos _ i); [eauto|done]. }
       assert (∃ q, norm_pos (shape (_blocks f)).2 j = Ok q) as [q Hq].
       { simpl in Hcols. destruct (norm_pos _ j); [eauto|done]. }
       destruct (extract_element _ i j p q Hwf Hp Hq) as [v Hv].
       unfold TypeBlocks_extract in Hv. rewrite Hrows, Hcols in Hv.
       cbn [mbind result_bind] in Hv. exists v.
       destruct (or_raise IndexError _) as [v'|]; [|done].
       simpl in *. by injection Hv as ->. }
  (* a single row key *)
  6-9: (rewrite Hcll; by eapply collapse_row).
  (* a single column key *)
  2, 7, 12, 17: (destruct Hsingle as [? Hlen]; [done|];
    rewrite Hrll; eapply collapse_column; eauto; by rewrite Hlen).
  (* two multiple keys *)
  all: edestruct (collapse_frame f b rl cl (length rows) (length cols) Hshape)
         as (f' & Hf & ? & ? & Hbf & _); [done..|].
  all: exists f'; split; [exact Hf|]; by rewrite Hbf, Hshape, Hrll, Hcll.
Qed.



Lemma frame_3x3_wf : Frame_wf frame_3x3.
Proof.
  unfold Frame_wf, TypeBlocks_wf. simpl.
  repeat split; try reflexivity; try compute_done; repeat constructor.
Qed.


(** The four selections of the dimensionality example. *)
Example loc_3x3 :
  _extract_loc frame_3x3 (Tuple [LocLabel (LStr "x"); LocLabel (LStr "q")])
  = Ok (RElement (VInt 5))
  ∧ _extract_loc frame_3x3 (Tuple [LocLabel (LStr "x"); LocSlice None None])
    = Ok (RSeries {| s_values := [VInt 2; VInt 5; VInt 8];
                     s_index := index_of ["p"; "q"; "r"];
                     s_name := Some (LStr "x") |})
  ∧ _extract_loc frame_3x3 (Tuple [LocSlice None None; LocLabel (LStr "q")])
    = Ok (RSeries {| s_values := [VInt 4; VInt 5; VInt 6];
                     s_index := index_of ["w"; "x"; "y"];
                     s_name := Some (LStr "q") |})
  ∧ ∃ f', _extract_loc frame_3x3 (Tuple [LocSlice None None; LocSlice None None])
          = Ok (RFrame f')
          ∧ _index f' = index_of ["w"; "x"; "y"]
          ∧ _columns f' = index_of ["p"; "q"; "r"]
          ∧ tb_columns (_blocks f') = tb_columns (_blocks frame_3x3).
Proof.
  split; [reflexivity|]. split; [reflexivity|]. split; [reflexivity|].
  eexists. split; [reflexivity|]. done.
Qed.

(** ** Reindexing *)

Lemma position_of_lookup (ix : IndexBase) (i : nat) (l : label) :
  NoDup (labels ix) → labels ix !! i = Some l → position_of ix l = Some i.
Proof.
  intros Hnd Hl. unfold position_of.
  assert (list_find (λ x, x = l) (labels ix) = Some (i, l)) as ->; [|done].
  apply list_find_Some. split; [done|]. split; [done|].
  intros j y Hy Hlt ->. assert (i = j) by by eapply NoDup_lookup. lia.
Qed.

Lemma position_of_None (ix : IndexBase) (l : label) :
  l ∉ labels ix → position_of ix l = None.
Proof.
  intros Hl. unfold position_of.
  destruct (list_find _ _) as [[i x]|] eqn:E; [|done].
  apply list_find_Some in E as (Hx & -> & _).
  destruct Hl. by eapply list_elem_of_lookup_2.
Qed.

Lemma position_of_Some (ix : IndexBase) (l : label) (i : nat) :
  position_of ix l = Some i → labels ix !! i = Some l.
Proof.
  unfold position_of. destruct (list_find _ _) as [[j x]|] eqn:E; [|done].
  apply list_find_Some in E as (Hx & -> & _). by intros [= <-].
Qed.

Lemma from_correspondence_self (ix : IndexBase) :
  NoDup (labels ix) →
  from_correspondence ix ix = Some <$> seq 0 (length (labels ix)).
Proof.
  intros Hnd. unfold from_correspondence. apply list_eq_same_length with (length (labels ix)).
  - by rewrite length_fmap, length_seq.
  - by rewrite length_fmap.
  - intros i x y Hi. rewrite !list_lookup_fmap.
    destruct (labels ix !! i) as [l|] eqn:El; simpl; [|done].
    rewrite lookup_seq_lt by done. simpl.
    rewrite (position_of_lookup ix i l Hnd El). by intros [= <-] [= <-].
Qed.

Lemma lookup_all {A} (e : exception) (l : list A) :
  mapM (λ m : option nat, match m with
                          | Some r => or_raise e (l !! r)
                          | None => Raise e
                          end) (Some <$> seq 0 (length l)) = Ok l.
Proof.
  apply mapM_Ok_Forall2. apply Forall2_same_length_lookup_2.
  - by rewrite length_fmap, length_seq.
  - intros i m x Hm Hx. rewrite list_lookup_fmap in Hm.
    rewrite lookup_seq_lt in Hm by by eapply lookup_lt_Some.
    injection Hm as <-. simpl. by rewrite Hx.
Qed.

Lemma resize_column_identity (n : nat) (fill_value : element) (tc : dtype * list element) :
  length tc.2 = n →
  resize_column (Some (Some <$> seq 0 n)) fill_value tc
  = Ok {| a_dtype := tc.1; a_ndim := 1; a_rows := n; a_columns := [tc.2] |}.
Proof.
  intros <-. unfold resize_column.
  assert (mapM (λ m : option nat, match m with
                                  | Some r => or_raise IndexError (tc.2 !! r)
                                  | None => Ok fill_value
                                  end) (Some <$> seq 0 (length tc.2)) = Ok tc.2) as ->.
  { rewrite <- (lookup_all IndexError tc.2). apply mapM_result_ext.
    intros m Hm. apply list_elem_of_fmap in Hm as (r & -> & _). done. }
  simpl. rewrite bool_decide_eq_false_2; [done|].
  intros H. by apply list_elem_of_fmap in H as (? & ? & _).
Qed.

(** The buffers of a store reindexed onto its own rows and columns: its
    columns, one buffer each. *)
Lemma resize_blocks_identity (tb : TypeBlocks) (fill_value : element) :
  TypeBlocks_wf tb →
  resize_blocks tb (Some (Some <$> seq 0 (shape tb).1))
    (Some (Some <$> seq 0 (shape tb).2)) fill_value
  = Ok ((λ tc, {| a_dtype := tc.1; a_ndim := 1; a_rows := (shape tb).1;
                  a_columns := [tc.2] |}) <$> typed_columns tb).
Proof.
  intros Hwf. destruct (wf_columns tb Hwf) as [Hlen Hall].
  unfold resize_blocks. apply mapM_Ok_Forall2. apply Forall2_same_length_lookup_2.
  - by rewrite !length_fmap, length_seq, typed_columns_length.
  - intros i m a Hm Ha. rewrite list_lookup_fmap in Hm. rewrite list_lookup_fmap in Ha.
    destruct (typed_columns tb !! i) as [tc|] eqn:Etc; [|done].
    rewrite lookup_seq_lt in Hm.
    2: { apply lookup_lt_Some in Etc. by rewrite typed_columns_length, Hlen in Etc. }
    injection Hm as <-. injection Ha as <-. rewrite Etc.
    cbn [mbind result_bind or_raise]. apply resize_column_identity.
    rewrite Forall_lookup in Hall. apply (Hall i). unfold tb_columns.
    by rewrite list_lookup_fmap, Etc.
Qed.

Lemma from_blocks_columns (tb : TypeBlocks) (n : nat) :
  ∃ sh, TypeBlocks_from_blocks
          ((λ tc, {| a_dtype := tc.1; a_ndim := 1; a_rows := n;
                     a_columns := [tc.2] |}) <$> typed_columns tb)
        = Ok {| blocks := (λ tc, {| a_dtype := tc.1; a_ndim := 1; a_rows := n;
                                    a_columns := [tc.2] |}) <$> typed_columns tb;
                shape := sh |}
        ∧ sh.2 = length (tb_columns tb)
        ∧ (sh.1 ≠ 0 → sh.1 = n).
Proof.
  unfold TypeBlocks_from_blocks, tb_columns.
  destruct (typed_columns tb) as [|tc tcs]; [by exists (0, 0)|].
  rewrite fmap_cons.
  match goal with
  | |- context [forallb ?f ?l] => assert (forallb f l = true) as ->
  end.
  { apply Is_true_true, forallb_True. constructor; [by apply bool_decide_pack|].
    apply Forall_fmap, Forall_forall. intros ? _. simpl. by apply bool_decide_pack. }
  eexists. split; [done|]. simpl. split; [|done].
  f_equal. induction tcs as [|? ? IH]; [done|]. simpl. by f_equal.
Qed.

Lemma tb_columns_of_columns (tb : TypeBlocks) (n : nat) (sh : nat * nat) :
  tb_columns {| blocks := (λ tc, {| a_dtype := tc.1; a_ndim := 1; a_rows := n;
                                    a_columns := [tc.2] |}) <$> typed_columns tb;
                shape := sh |}
  = tb_columns tb.
Proof.
  unfold tb_columns at 2. induction (typed_columns tb) as [|tc tcs IH]; [done|].
  rewrite !fmap_cons, tb_columns_cons, IH. done.
Qed.

(** C4: for every Frame that satisfies the invariant of the data model,
    reindexing onto its own index and its own columns returns a Frame with
    the same row labels, the same column labels and the same columns of
    values (and the same name and class). *)
Theorem reindex_identity (f : Frame) (fill_value : element) :
  Frame_wf f →
  ∃ f', reindex f (InitIndex (_index f)) (InitIndex (_columns f)) fill_value = Ok f'
        ∧ _index f' = _index f ∧ _columns f' = _columns f
        ∧ tb_columns (_blocks f') = tb_columns (_blocks f)
        ∧ _name f' = _name f ∧ cls f' = cls f.
Proof.
  intros (Hwf & Hrlen & Hclen & Hrn & Hcn & Hrs & Hcs).
  unfold reindex. cbn [is_none andb negb].
  unfold reindex_target, Index_init. rewrite !decide_True by done. rewrite !index_eta.
  cbn [mbind result_bind].
  rewrite (bool_decide_eq_false_2 (STATIC (_columns f) ≠ _)) by (intros H; by apply H).
  cbn [mbind result_bind].
  rewrite !from_correspondence_self by done.
  rewrite Hrlen, Hclen, (resize_blocks_identity _ _ Hwf). cbn [mbind result_bind].
  destruct (from_blocks_columns (_blocks f) (shape (_blocks f)).1) as (sh & -> & Hc & Hr).
  cbn [mbind result_bind]. rewrite Frame_init_objects; try done.
  - eexists. split; [done|]. simpl. rewrite Hrs, Hcs. simpl.
    split; [done|]. split.
    { destruct (COLUMN_CONSTRUCTOR_STATIC (cls f)) eqn:E; simpl; [done|].
      by rewrite <- Hcs, index_eta. }
    split; [apply tb_columns_of_columns|done].
  - simpl. rewrite Hc. by destruct (wf_columns _ Hwf) as [-> _].
  - simpl. intros Hne. by rewrite (Hr Hne).
Qed.

Lemma reindex_identity_witness :
  ∃ f', reindex frame_3x3 (InitIndex (_index frame_3x3))
          (InitIndex (_columns frame_3x3)) VNaN = Ok f'
        ∧ _index f' = _index frame_3x3 ∧ _columns f' = _columns frame_3x3
        ∧ tb_columns (_blocks f') = tb_columns (_blocks frame_3x3)
        ∧ _name f' = _name frame_3x3 ∧ cls f' = cls frame_3x3.
Proof. apply (reindex_identity frame_3x3 VNaN). exact frame_3x3_wf. Defined.

(** ** Assignment from a labelled container *)

(** The values a correspondence draws from a source: the matched ones, and
    the fill value where there is no match. *)
Lemma realign_values (src : list element) (ic : list (option nat)) (fill_value : element) :
  Forall (λ m, ∀ r, m = Some r → r < length src) ic →
  ∃ vs, mapM (λ m : option nat, match m with
                                | Some r => or_raise IndexError (src !! r)
                                | None => Ok fill_value
                                end) ic = Ok vs
        ∧ length vs = length ic
        ∧ ∀ i m, ic !! i = Some m →
                 vs !! i = Some (default fill_value (m ≫= (src !!.))).
Proof.
  induction 1 as [|m ic Hm _ (vs & Hvs & Hlen & Hat)].
  - exists []. by repeat split.
  - rewrite mapM_cons, Hvs.
    destruct m as [r|]; simpl.
    + destruct (lookup_lt_is_Some_2 src r (Hm r eq_refl)) as [v Hv]. rewrite Hv. simpl.
      exists (v :: vs). split; [done|]. split; [by rewrite <- Hlen|].
      intros [|i] m; simpl; [|by apply Hat]. intros [= <-]. simpl. by rewrite Hv.
    + exists (fill_value :: vs). split; [done|]. split; [by rewrite <- Hlen|].
      intros [|i] m; simpl; [|by apply Hat]. by intros [= <-].
Qed.

Lemma correspondence_bound (src dst : IndexBase) :
  Forall (λ m, ∀ r, m = Some r → r < length (labels src)) (from_correspondence src dst).
Proof.
  unfold from_correspondence. apply Forall_fmap, Forall_forall. intros l _ r Hr. simpl in Hr.
  apply position_of_Some in Hr. by eapply lookup_lt_Some.
Qed.

(** A Series reindexed onto unique labels carries them as its index, and at
    each of them its own value for that label, or the fill value. *)
Lemma Series_reindex_aligned (s : Series) (ix : IndexBase) (fill_value : element) :
  Series_wf s → NoDup (labels ix) →
  ∃ s', Series_reindex s (InitIndex ix) fill_value = Ok s'
        ∧ labels (s_index s') = labels ix
        ∧ length (s_values s') = length (labels ix)
        ∧ ∀ l, l ∈ labels ix →
               series_at s' l = Some (default fill_value (series_at s l)).
Proof.
  intros [Hlen Hnd] Hix. unfold Series_reindex, reindex_target, Index_init.
  rewrite decide_True by done. cbn [mbind result_bind]. rewrite index_eta.
  destruct (realign_values (s_values s) (from_correspondence (s_index s) ix) fill_value)
    as (vs & -> & Hvl & Hat).
  { rewrite Hlen. apply correspondence_bound. }
  cbn [mbind result_bind]. eexists. split; [done|]. simpl. split; [done|].
  unfold from_correspondence in Hvl, Hat. rewrite length_fmap in Hvl. split; [done|].
  intros l Hl. apply list_elem_of_lookup in Hl as [i Hi].
  unfold series_at at 1. simpl.
  rewrite (position_of_lookup (immutable_index_filter ix) i l Hix Hi). simpl.
  rewrite (Hat i (position_of (s_index s) l)); [done|].
  by rewrite list_lookup_fmap, Hi.
Qed.

Lemma resize_column_aligned (icr : list (option nat)) (fill_value : element)
    (tc : dtype * list element) :
  Forall (λ m, ∀ r, m = Some r → r < length tc.2) icr →
  ∃ vs dt, resize_column (Some icr) fill_value tc
           = Ok {| a_dtype := dt; a_ndim := 1; a_rows := length icr; a_columns := [vs] |}
           ∧ length vs = length icr
           ∧ ∀ i m, icr !! i = Some m →
                    vs !! i = Some (default fill_value (m ≫= (tc.2 !!.))).
Proof.
  intros Hb. destruct (realign_values tc.2 icr fill_value Hb) as (vs & Hvs & Hlen & Hat).
  unfold resize_column. rewrite Hvs. cbn [mbind result_bind]. rewrite Hlen. eauto.
Qed.

Lemma from_blocks_uniform (bs : list ndarray) (n : nat) :
  Forall (λ b, a_rows b = n) bs →
  ∃ sh, TypeBlocks_from_blocks bs = Ok {| blocks := bs; shape := sh |}
        ∧ sh.2 = sum_list (width <$> bs)
        ∧ (sh.1 ≠ 0 → sh.1 = n)
        ∧ (bs ≠ [] → sh.1 = n).
Proof.
  intros Hbs. unfold TypeBlocks_from_blocks. destruct bs as [|b bs]; [by exists (0, 0)|].
  match goal with
  | |- context [forallb ?f ?l] => assert (forallb f l = true) as ->
  end.
  { apply Is_true_true, forallb_True. eapply Forall_impl; [exact Hbs|].
    intros b' Hb'. apply bool_decide_pack. inversion Hbs; subst. done. }
  inversion Hbs; subst. eexists. split; [done|]. done.
Qed.

Lemma tb_columns_singles (bs : list ndarray) (cols : list (list element)) (sh : nat * nat) :
  Forall2 (λ b col, a_columns b = [col]) bs cols →
  tb_columns {| blocks := bs; shape := sh |} = cols
  ∧ sum_list (width <$> bs) = length cols.
Proof.
  induction 1 as [|b col bs cols Hb _ [IH1 IH2]]; [done|].
  rewrite tb_columns_cons, Hb, IH1, fmap_cons. simpl. unfold width at 1.
  rewrite Hb, IH2. done.
Qed.

(** The buffers of a resized store: one column for every target column,
    with at every target row the source value of the matching row and column,
    or the fill value. *)
Lemma resize_blocks_aligned (tb : TypeBlocks) (icr icc : list (option nat))
    (fill_value : element) :
  TypeBlocks_wf tb →
  Forall (λ m, ∀ r, m = Some r → r < (shape tb).1) icr →
  Forall (λ m, ∀ c, m = Some c → c < (shape tb).2) icc →
  ∃ bs cols,
    resize_blocks tb (Some icr) (Some icc) fill_value = Ok bs
    ∧ Forall (λ b, a_rows b = length icr) bs
    ∧ Forall2 (λ b col, a_columns b = [col]) bs cols
    ∧ length cols = length icc
    ∧ ∀ j mc col, icc !! j = Some mc → cols !! j = Some col →
        ∀ i mr, icr !! i = Some mr →
          col !! i = Some (default fill_value (r ← mr; c ← mc; cell tb r c)).
Proof.
  intros Hwf Hr Hc. destruct (wf_columns tb Hwf) as [Hlen Hall].
  unfold resize_blocks.
  induction Hc as [|mc icc Hmc _ (bs & cols & Hbs & Hrows & Hcols & Hl & Hat)].
  - exists [], []. repeat split; try done; constructor.
  - rewrite mapM_cons, Hbs.
    destruct mc as [c|].
    + destruct (lookup_lt_is_Some_2 (typed_columns tb) c) as [tc Htc].
      { rewrite typed_columns_length, Hlen. by apply Hmc. }
      assert (tb_columns tb !! c = Some tc.2) as Hcol.
      { unfold tb_columns. by rewrite list_lookup_fmap, Htc. }
      destruct (resize_column_aligned icr fill_value tc) as (vs & dt & Hvs & Hvl & Hv).
      { rewrite Forall_lookup in Hall. by rewrite (Hall c _ Hcol). }
      rewrite Htc. cbn [mbind result_bind or_raise]. rewrite Hvs.
      cbn [mbind result_bind mret result_ret].
      eexists (_ :: bs), (vs :: cols). split; [done|].
      split; [by constructor|]. split; [by constructor|]. split; [by simpl; rewrite Hl|].
      intros [|j] mc col; simpl; [|by apply Hat]. intros [= <-] [= <-] i mr Hmr.
      rewrite (Hv i mr Hmr). f_equal. f_equal. destruct mr as [r|]; [|done].
      simpl. unfold cell. by rewrite Hcol.
    + cbn [mbind result_bind mret result_ret].
      eexists (_ :: bs), (replicate (length icr) fill_value :: cols). split; [done|].
      split; [by constructor|]. split; [by constructor|]. split; [by simpl; rewrite Hl|].
      intros [|j] mc col; simpl; [|by apply Hat]. intros [= <-] [= <-] i mr Hmr.
      rewrite lookup_replicate_2 by by eapply lookup_lt_Some. by destruct mr.
Qed.

(** A Frame reindexed onto unique row and column labels carries them, and
    at each pair of them its own value at these labels, or the fill value. *)
Lemma reindex_aligned (g : Frame) (ri ci : IndexBase) (fill_value : element) :
  Frame_wf g → NoDup (labels ri) → NoDup (labels ci) →
  STATIC ci = COLUMN_CONSTRUCTOR_STATIC (cls g) →
  ∃ g', reindex g (InitIndex ri) (InitIndex ci) fill_value = Ok g'
        ∧ labels (_index g') = labels ri ∧ labels (_columns g') = labels ci
        ∧ ∀ r c, r ∈ labels ri → c ∈ labels ci →
                 frame_at g' r c = Some (default fill_value (frame_at g r c)).
Proof.
  intros (Hwf & Hrlen & Hclen & Hrn & Hcn & Hrs & Hcs) Hri Hci Hstatic.
  unfold reindex. cbn [is_none andb negb].
  unfold reindex_target, Index_init. rewrite !decide_True by done. rewrite !index_eta.
  cbn [mbind result_bind].
  rewrite (bool_decide_eq_false_2 (STATIC ci ≠ _)) by (intros H; by apply H).
  cbn [mbind result_bind].
  destruct (resize_blocks_aligned (_blocks g) (from_correspondence (_index g) ri)
              (from_correspondence (_columns g) ci) fill_value Hwf)
    as (bs & cols & -> & Hrows & Hcols & Hl & Hat).
  { rewrite <- Hrlen. apply correspondence_bound. }
  { rewrite <- Hclen. apply correspondence_bound. }
  cbn [mbind result_bind].
  destruct (from_blocks_uniform bs _ Hrows) as (sh & -> & Hsh2 & Hsh1 & _).
  cbn [mbind result_bind].
  destruct (tb_columns_singles bs cols sh Hcols) as [Htc Hsum].
  unfold from_correspondence in Hl, Hat, Hsh1. rewrite length_fmap in Hl, Hsh1.
  rewrite Frame_init_objects; try done; simpl.
  2: { by rewrite Hsh2, Hsum. }
  2: { intros Hne. by rewrite (Hsh1 Hne). }
  eexists. split; [done|]. simpl.
  split; [by destruct (STATIC ri && true)|].
  split; [by destruct (STATIC ci && _)|].
  intros r c Hr Hc.
  apply list_elem_of_lookup in Hr as [i Hi]. apply list_elem_of_lookup in Hc as [j Hj].
  unfold frame_at at 1. simpl.
  assert (position_of (if STATIC ri && true then ri
                       else {| labels := labels ri; STATIC := true |}) r = Some i) as ->.
  { destruct (STATIC ri && true); by apply position_of_lookup. }
  assert (position_of (if STATIC ci && COLUMN_CONSTRUCTOR_STATIC (cls g) then ci
                       else {| labels := labels ci;
                               STATIC := COLUMN_CONSTRUCTOR_STATIC (cls g) |}) c
          = Some j) as ->.
  { destruct (STATIC ci && _); by apply position_of_lookup. }
  simpl. unfold cell at 1. simpl. rewrite Htc.
  destruct (lookup_lt_is_Some_2 cols j) as [col Hcol].
  { rewrite Hl. by eapply lookup_lt_Some. }
  rewrite Hcol. simpl.
  rewrite (Hat j (position_of (_columns g) c) col) with (mr := position_of (_index g) r);
    [done| |done|]; by rewrite list_lookup_fmap, ?Hi, ?Hj.
Qed.

Lemma Index_extract_multi (ix : IndexBase) (key : GetItemKeyType) (ls : list label) :
  selected_labels ix key = Ok ls → NoDup ls → (∀ i, key ≠ KInt i) →
  ∃ ix', Index_extract_iloc ix key = Ok (InitIndex ix')
         ∧ labels ix' = ls ∧ STATIC ix' = STATIC ix.
Proof.
  intros Hls Hnd Hkey. unfold selected_labels in Hls.
  destruct (decide (key = KNone)) as [->|Hne].
  - simpl in Hls. rewrite labels_at_seq in Hls. injection Hls as <-. by exists ix.
  - exists {| labels := ls; STATIC := STATIC ix |}. split; [|done].
    apply bind_Ok in Hls as (ps & Hps & Hls). unfold Index_extract_iloc, Index_init.
    destruct key; try done; [by destruct (Hkey i)| | |];
      rewrite Hps; simpl; rewrite Hls; simpl; by rewrite decide_True.
Qed.

Lemma frame_ab_wf : Frame_wf frame_ab.
Proof.
  unfold Frame_wf, TypeBlocks_wf. simpl.
  repeat split; try reflexivity; try compute_done; repeat constructor.
Qed.

(** The value [10] of the source goes to the column [q] it is labelled
    with, not to the first column; the column [p], which the source does not
    have, takes the fill value. *)
Example assign_by_label :
  tb_columns <$> (_blocks <$> FrameAssign_call
    {| container := frame_ab; iloc_key := Tuple [KInt 0; NULL_SLICE] |}
    (AssignContainer (CSeries series_qz)) VNaN)
  = Ok [[VNaN; VInt 2]; [VInt 10; VInt 4]].
Proof. reflexivity. Qed.

(** ** Concatenation *)

Lemma remove_dups_length_le (ls : list label) : length (remove_dups ls) ≤ length ls.
Proof.
  induction ls as [|l ls IH]; simpl; [done|]. case_decide; simpl; lia.
Qed.

Lemma remove_dups_length_NoDup (ls : list label) :
  length (remove_dups ls) = length ls → NoDup ls.
Proof.
  induction ls as [|l ls IH]; simpl; [constructor|].
  pose proof (remove_dups_length_le ls). case_decide; simpl; [lia|].
  intros [= Hlen]. constructor; auto.
Qed.

Lemma ufunc_unique_length (ls : list label) :
  length (ufunc_unique ls) = length (remove_dups ls).
Proof. unfold ufunc_unique. by rewrite merge_sort_Permutation. Qed.

(** The uniqueness test of [from_concat]. *)
Lemma unique_test (ls : list label) :
  bool_decide (length (ufunc_unique ls) ≠ length ls) = bool_decide (¬ NoDup ls).
Proof.
  rewrite ufunc_unique_length. apply bool_decide_ext. split.
  - intros Hne Hnd. apply Hne. clear Hne.
    induction Hnd as [|l ls Hl _ IH]; simpl; [done|].
    case_decide; [done|]. simpl. by rewrite IH.
  - intros Hnd Hlen. by apply Hnd, remove_dups_length_NoDup.
Qed.

Lemma concat_resolved_pair (a b : ndarray) :
  width b = width a →
  ∃ x, concat_resolved [a; b] = Ok x
       ∧ a_rows x = a_rows a + a_rows b ∧ width x = width a.
Proof.
  intros Hw. unfold concat_resolved. simpl.
  rewrite bool_decide_eq_true_2 by done. simpl.
  eexists. split; [done|]. simpl. split; [lia|].
  unfold width. simpl. by rewrite length_imap.
Qed.

Lemma consolidate_blocks_rows (n : nat) (bs : list ndarray) :
  Forall (λ b, a_rows b = n) bs → Forall (λ b, a_rows b = n) (consolidate_blocks bs).
Proof.
  induction 1 as [|b bs Hb _ IH]; simpl; [constructor|].
  destruct (consolidate_blocks bs) as [|b' rest]; [by constructor|].
  inversion IH; subst. case_decide; by repeat constructor.
Qed.

Lemma consolidate_blocks_width (bs : list ndarray) :
  sum_list (width <$> consolidate_blocks bs) = sum_list (width <$> bs).
Proof.
  induction bs as [|b bs IH]; [done|].
  rewrite fmap_cons. cbn [sum_list sum_list_with]. rewrite <- IH. cbn [consolidate_blocks].
  destruct (consolidate_blocks bs) as [|b' rest]; [done|].
  case_decide; [|done]. rewrite !fmap_cons. cbn [sum_list sum_list_with].
  unfold width at 1 3 4. cbn [a_columns]. rewrite length_app. unfold id. lia.
Qed.

Lemma consolidate_blocks_nil (bs : list ndarray) :
  consolidate_blocks bs = [] → bs = [].
Proof.
  destruct bs as [|b bs]; simpl; [done|].
  destruct (consolidate_blocks bs); [done|]. by case_decide.
Qed.

Lemma reblock_widths (a b : TypeBlocks) :
  reblock_compatible a b = true →
  width <$> consolidate_blocks (blocks a) = width <$> consolidate_blocks (blocks b).
Proof.
  intros H. apply bool_decide_eq_true in H. unfold reblock_signature in H.
  apply (f_equal (fmap snd)) in H. by rewrite <- !list_fmap_compose in H.
Qed.

Lemma stack_block_Ok (t1 t2 : TypeBlocks) (idx : nat) (b1 b2 : ndarray) :
  blocks t1 !! idx = Some b1 → blocks t2 !! idx = Some b2 → width b2 = width b1 →
  ∃ x, stack_block [t1; t2] idx = Ok x
       ∧ a_rows x = a_rows b1 + a_rows b2 ∧ width x = width b1.
Proof.
  intros H1 H2 Hw. unfold stack_block. rewrite !mapM_cons, H1, H2. simpl.
  by apply (concat_resolved_pair (column_2d_filter b1) (column_2d_filter b2)).
Qed.

(** The stacked store when both stores have the same block widths: block
    by block, the first on top of the second. *)
Lemma stack_blockwise (t1 t2 : TypeBlocks) (r1 r2 : nat) :
  width <$> blocks t1 = width <$> blocks t2 →
  Forall (λ b, a_rows b = r1) (blocks t1) →
  Forall (λ b, a_rows b = r2) (blocks t2) →
  ∃ bs, mapM (stack_block [t1; t2]) (seq 0 (length (blocks t1))) = Ok bs
        ∧ Forall (λ b, a_rows b = r1 + r2) bs
        ∧ sum_list (width <$> bs) = sum_list (width <$> blocks t1)
        ∧ length bs = length (blocks t1).
Proof.
  intros Hw H1 H2.
  assert (∀ idx b1, blocks t1 !! idx = Some b1 →
            ∃ b2 x, blocks t2 !! idx = Some b2 ∧ stack_block [t1; t2] idx = Ok x
                    ∧ a_rows x = r1 + r2 ∧ width x = width b1) as Hstep.
  { intros idx b1 Hb1.
    assert ((width <$> blocks t2) !! idx = Some (width b1)) as Hb2.
    { by rewrite <- Hw, list_lookup_fmap, Hb1. }
    rewrite list_lookup_fmap in Hb2.
    destruct (blocks t2 !! idx) as [b2|] eqn:E2; [|done]. injection Hb2 as Hb2.
    destruct (stack_block_Ok t1 t2 idx b1 b2 Hb1 E2 Hb2) as (x & Hx & Hr & Hwx).
    exists b2, x. split; [done|]. split; [done|]. split; [|done].
    rewrite Forall_lookup in H1, H2. by rewrite Hr, (H1 _ _ Hb1), (H2 _ _ E2). }
  destruct (mapM_is_Ok (stack_block [t1; t2]) (seq 0 (length (blocks t1)))) as [bs Hbs].
  { apply Forall_forall. intros idx Hidx. apply elem_of_seq in Hidx as [_ Hidx].
    destruct (lookup_lt_is_Some_2 (blocks t1) idx) as [b1 Hb1]; [done|].
    destruct (Hstep idx b1 Hb1) as (b2 & x & _ & Hx & _). eauto. }
  exists bs. split; [done|].
  pose proof (mapM_result_length _ _ _ Hbs) as Hlen. rewrite length_seq in Hlen.
  assert (∀ i x, bs !! i = Some x →
            ∃ b1, blocks t1 !! i = Some b1 ∧ a_rows x = r1 + r2 ∧ width x = width b1)
    as Hat.
  { intros i x Hx.
    destruct (lookup_lt_is_Some_2 (blocks t1) i) as [b1 Hb1].
    { rewrite <- Hlen. by eapply lookup_lt_Some. }
    destruct (mapM_Ok_lookup _ _ _ i i Hbs) as (y & Hy & Hfy).
    { apply lookup_seq. split; [done|]. by eapply lookup_lt_Some. }
    destruct (Hstep i b1 Hb1) as (b2 & x' & _ & Hx' & ? & ?).
    exists b1. split; [done|]. assert (x = x') as -> by congruence. done. }
  split; [|split; [|done]].
  - apply Forall_lookup. intros i x Hx. by destruct (Hat i x Hx) as (? & _ & ? & _).
  - f_equal. apply list_eq_same_length with (length bs); rewrite ?length_fmap; try done.
    intros i w w' _. rewrite !list_lookup_fmap.
    destruct (bs !! i) as [x|] eqn:Ex; [|done].
    destruct (Hat i x Ex) as (b1 & -> & _ & Hwx). simpl. intros [= <-] [= <-]. done.
Qed.


Lemma assign_index_labels (static shared : bool) (ls : list label) (n : nat) :
  NoDup ls → (ls = [] → n = 0) →
  assign_index static shared false (InitLabels ls) (Some n)
  = Ok ({| labels := ls; STATIC := static |}, Some n).
Proof.
  intros Hnd Hn. unfold assign_index. simpl.
  destruct (bool_decide (ls = [])) eqn:E; simpl.
  - apply bool_decide_eq_true in E. rewrite (Hn E), E.
    by change (Index_range static 0) with (Ok {| labels := []; STATIC := static |}).
  - unfold Index_init. by rewrite decide_True.
Qed.

(** The constructor on an owned store and two sequences of labels. *)
Lemma Frame_init_labels c tb (ix cx : list label) name :
  NoDup ix → NoDup cx → ix ≠ [] →
  length cx = (shape tb).2 →
  ((shape tb).1 ≠ 0 → length ix = (shape tb).1) →
  Frame_init c (DataBlocks tb) (InitLabels ix) (InitLabels cx) name true false false
  = Ok {| cls := c; _blocks := tb;
          _columns := {| labels := cx; STATIC := COLUMN_CONSTRUCTOR_STATIC c |};
          _index := {| labels := ix; STATIC := true |};
          _name := name |}.
Proof.
  intros Hix Hcx Hne Hc Hr. unfold Frame_init. cbn [mbind result_bind].
  rewrite (assign_index_labels _ _ cx (shape tb).2 Hcx).
  2: { intros ->. by rewrite <- Hc. }
  cbn [mbind result_bind]. rewrite (assign_index_labels _ _ ix (shape tb).1 Hix) by done.
  cbn [mbind result_bind default]. by apply size_checks_Ok.
Qed.

Lemma ufunc_unique_NoDup (ls : list label) : NoDup (ufunc_unique ls).
Proof. unfold ufunc_unique. rewrite merge_sort_Permutation. apply NoDup_remove_dups. Qed.

Lemma array_set_ufunc_many_NoDup (arrays : list (list label)) (union : bool) :
  NoDup (array_set_ufunc_many arrays union).
Proof.
  unfold array_set_ufunc_many. destruct union; [apply ufunc_unique_NoDup|].
  destruct arrays; [constructor|apply ufunc_unique_NoDup].
Qed.

Lemma single_widths (bs : list ndarray) :
  Forall (λ b, width b = 1) bs → sum_list (width <$> bs) = length bs.
Proof. induction 1 as [|b bs Hb _ IH]; [done|]. rewrite fmap_cons. simpl. lia. Qed.

(** The buffers of a store resized along the columns only: one buffer for
    each target column, of the row count of the store. *)
Lemma resize_blocks_columns (tb : TypeBlocks) (icc : list (option nat))
    (fill_value : element) :
  TypeBlocks_wf tb →
  Forall (λ m, ∀ c, m = Some c → c < (shape tb).2) icc →
  ∃ bs, resize_blocks tb None (Some icc) fill_value = Ok bs
        ∧ Forall (λ b, a_rows b = (shape tb).1) bs
        ∧ Forall (λ b, width b = 1) bs
        ∧ length bs = length icc.
Proof.
  intros Hwf Hc. destruct (wf_columns tb Hwf) as [Hlen Hall].
  unfold resize_blocks.
  induction Hc as [|mc icc Hmc _ (bs & Hbs & Hrows & Hone & Hl)].
  - exists []. by repeat split.
  - rewrite mapM_cons, Hbs. destruct mc as [c|].
    + destruct (lookup_lt_is_Some_2 (typed_columns tb) c) as [tc Htc].
      { rewrite typed_columns_length, Hlen. by apply Hmc. }
      assert (length tc.2 = (shape tb).1) as Htl.
      { rewrite Forall_lookup in Hall. apply (Hall c).
        unfold tb_columns. by rewrite list_lookup_fmap, Htc. }
      rewrite Htc. cbn [mbind result_bind or_raise resize_column mret result_ret].
      eexists. split; [done|].
      split; [by constructor|]. split; [by constructor|]. by simpl; rewrite Hl.
    + cbn [mbind result_bind mret result_ret].
      eexists. split; [done|].
      split; [by constructor|]. split; [by constructor|]. by simpl; rewrite Hl.
Qed.

(** A frame reindexed onto unique column labels alone keeps its rows: every
    buffer of the new store has the row count of the frame, and the store
    is as wide as there are labels. *)
Lemma reindex_columns (g : Frame) (cols : list label) (fill_value : element) :
  Frame_wf g → NoDup cols →
  ∃ g', reindex g InitNone (InitLabels cols) fill_value = Ok g'
        ∧ Forall (λ b, a_rows b = (shape (_blocks g)).1) (blocks (_blocks g'))
        ∧ sum_list (width <$> blocks (_blocks g')) = length cols.
Proof.
  intros (Hwf & Hrlen & Hclen & Hrn & Hcn & Hrs & Hcs) Hnd.
  unfold reindex. cbn [is_none andb negb mbind result_bind Index_from].
  unfold Index_init. rewrite decide_True by done. cbn [mbind result_bind].
  set (cx := {| labels := cols; STATIC := COLUMN_CONSTRUCTOR_STATIC (cls g) |}).
  destruct (resize_blocks_columns (_blocks g) (from_correspondence (_columns g) cx)
              fill_value Hwf) as (bs & -> & Hrows & Hone & Hl).
  { rewrite <- Hclen. apply correspondence_bound. }
  assert (sum_list (width <$> bs) = length cols) as Hsum.
  { rewrite (single_widths _ Hone), Hl. unfold from_correspondence.
    by rewrite length_fmap. }
  cbn [mbind result_bind].
  destruct (from_blocks_uniform bs _ Hrows) as (sh & -> & Hsh2 & Hsh1 & _).
  cbn [mbind result_bind].
  rewrite Frame_init_objects; simpl; try done.
  - eexists. split; [done|]. by simpl.
  - by rewrite Hsh2, Hsum.
  - intros H. by rewrite (Hsh1 H).
Qed.

(** Every frame can be aligned on unique target columns; the aligned frame
    has the rows of the frame and the width of the target, and is the frame
    itself when the frame carries the target columns. *)
Lemma align_frame_rows (g : Frame) (cols : list label) :
  Frame_wf g → NoDup cols →
  ∃ a, align_frame (InitLabels cols) cols g = Ok a
       ∧ Forall (λ b, a_rows b = (shape (_blocks g)).1) (blocks (_blocks a))
       ∧ sum_list (width <$> blocks (_blocks a)) = length cols
       ∧ (labels (_columns g) = cols → a = g).
Proof.
  intros Hwf Hnd. unfold align_frame, differs. case_bool_decide as E.
  - destruct (reindex_columns g cols VNaN Hwf Hnd) as (g' & -> & ? & ?).
    exists g'. by repeat split.
  - exists g. split; [done|].
    destruct Hwf as ((Hb & Hw) & _ & Hc & _).
    split; [|split; [by rewrite Hw, <- Hc, E|done]].
    eapply Forall_impl; [exact Hb|]. by intros b [? _].
Qed.

(** The buffers of two stacked frames whose aligned stores are block
    compatible, or compatible after consolidation. *)
Lemma blocks_axis0_pair (f1 f2 a1 a2 : Frame) (cols : list label) (r1 r2 : nat) :
  align_frame (InitLabels cols) cols f1 = Ok a1 →
  align_frame (InitLabels cols) cols f2 = Ok a2 →
  Forall (λ b, a_rows b = r1) (blocks (_blocks a1)) →
  Forall (λ b, a_rows b = r2) (blocks (_blocks a2)) →
  sum_list (width <$> blocks (_blocks a1)) = length cols →
  block_compatible (_blocks a2) (_blocks a1)
  || reblock_compatible (_blocks a2) (_blocks a1) = true →
  ∃ bs, blocks_axis0 [f1; f2] (InitLabels cols) = Ok bs
        ∧ Forall (λ b, a_rows b = r1 + r2) bs
        ∧ sum_list (width <$> bs) = length cols.
Proof.
  intros Ha1 Ha2 Hr1 Hr2 Hw1 Hcompat.
  unfold blocks_axis0. cbn [initializer_labels mbind result_bind].
  rewrite !mapM_cons, Ha1, Ha2.
  cbn [mapM mbind result_bind mret result_ret].
  unfold pairwise. cbn [tail zip zip_with forallb fst snd]. rewrite !andb_true_r.
  rewrite Hcompat.
  destruct (block_compatible (_blocks a2) (_blocks a1)) eqn:Ebc;
    cbn [andb orb negb fmap list_fmap head or_raise mbind result_bind] in *.
  - apply bool_decide_eq_true in Ebc.
    destruct (stack_blockwise (_blocks a1) (_blocks a2) _ _ (eq_sym Ebc) Hr1 Hr2)
      as (bs & Hbs & Hrows & Hsum & _).
    exists bs. by rewrite Hbs, Hsum, Hw1.
  - rewrite Hcompat.
    destruct (stack_blockwise (consolidate (_blocks a1)) (consolidate (_blocks a2)) r1 r2)
      as (bs & Hbs & Hrows & Hsum & _).
    { symmetry. by apply reblock_widths. }
    { by apply consolidate_blocks_rows. }
    { by apply consolidate_blocks_rows. }
    exists bs. cbn [head or_raise mbind result_bind].
    rewrite Hbs, Hsum. simpl. by rewrite consolidate_blocks_width, Hw1.
Qed.

(** The buffers of two stacked frames that carry the target columns: the
    aligned frames are the frames, whichever way they are combined. *)
Lemma blocks_axis0_same (f1 f2 : Frame) :
  Frame_wf f1 → Frame_wf f2 →
  labels (_columns f2) = labels (_columns f1) →
  ∃ bs, blocks_axis0 [f1; f2] (InitLabels (labels (_columns f1))) = Ok bs
        ∧ Forall (λ b, a_rows b = (shape (_blocks f1)).1 + (shape (_blocks f2)).1) bs
        ∧ sum_list (width <$> bs) = length (labels (_columns f1)).
Proof.
  intros Hwf1 Hwf2 Hcols.
  assert (∀ f, align_frame (InitLabels (labels (_columns f1))) (labels (_columns f1)) f
               = if differs (labels (_columns f)) (labels (_columns f1))
                 then reindex f InitNone (InitLabels (labels (_columns f1))) VNaN
                 else Ok f) as Halign by done.
  destruct Hwf1 as ((Hb1 & Hw1) & _ & Hc1 & _), Hwf2 as ((Hb2 & Hw2) & _ & Hc2 & _).
  assert (Forall (λ b, a_rows b = (shape (_blocks f1)).1) (blocks (_blocks f1))) as Hr1.
  { eapply Forall_impl; [exact Hb1|]. by intros b [? _]. }
  assert (Forall (λ b, a_rows b = (shape (_blocks f2)).1) (blocks (_blocks f2))) as Hr2.
  { eapply Forall_impl; [exact Hb2|]. by intros b [? _]. }
  assert (align_frame (InitLabels (labels (_columns f1))) (labels (_columns f1)) f1 = Ok f1)
    as Ha1.
  { rewrite Halign. unfold differs. by rewrite bool_decide_eq_false_2 by (intros H; by apply H). }
  assert (align_frame (InitLabels (labels (_columns f1))) (labels (_columns f1)) f2 = Ok f2)
    as Ha2.
  { rewrite Halign. unfold differs. rewrite Hcols.
    by rewrite bool_decide_eq_false_2 by (intros H; by apply H). }
  destruct (block_compatible (_blocks f2) (_blocks f1)
            || reblock_compatible (_blocks f2) (_blocks f1)) eqn:Ecompat.
  { eapply blocks_axis0_pair; eauto. by rewrite Hw1. }
  apply orb_false_iff in Ecompat as [Ebc Erc].
  unfold blocks_axis0. cbn [initializer_labels mbind result_bind].
  rewrite !mapM_cons, Ha1, Ha2.
  cbn [mapM mbind result_bind mret result_ret].
  unfold pairwise. cbn [tail zip zip_with forallb fst snd]. rewrite !andb_true_r.
  rewrite Ebc, Erc. cbn [andb orb negb fmap list_fmap].
  destruct (concat_resolved_pair (tb_values (_blocks f1)) (tb_values (_blocks f2)))
    as (x & Hx & Hxr & Hxw).
  { unfold width. simpl. destruct f1 as [? [bs1 sh1] ? ? ?], f2 as [? [bs2 sh2] ? ? ?].
    simpl in *. rewrite !tb_columns_length. congruence. }
  rewrite Hx. cbn [mbind result_bind]. exists [x]. split; [done|].
  split; [by repeat constructor|]. simpl. rewrite Hxw. unfold width. simpl.
  destruct f1 as [? [bs1 sh1] ? ? ?]. simpl in *. rewrite tb_columns_length. lia.
Qed.

(** Where the vertical concatenation of two frames works.  For every pair
    of Frames with a common row label, [from_concat] along axis 0 without an
    index raises the RuntimeError of the uniqueness test.  With an explicit
    index of distinct labels, as many as the two Frames have rows, each Frame
    is aligned on the target columns, and the concatenation succeeds
    whenever the aligned Frames are block compatible, or compatible after
    consolidation, or the two Frames carry the target columns already: the
    result has the given row labels, the target columns and, when there is a
    column, as many rows as labels. *)
Theorem from_concat_rows (c : FrameClass) (f1 f2 : Frame) (a : label) (union : bool)
    (name : option label) (consolidate_blocks_ : bool) :
  a ∈ labels (_index f1) → a ∈ labels (_index f2) →
  (∀ columns,
     from_concat c [f1; f2] 0 union InitNone columns name consolidate_blocks_
     = Raise (RuntimeError
         "Index names after vertical concatenation are not unique; supply an index argument."))
  ∧ (∀ ix,
       Frame_wf f1 → Frame_wf f2 →
       NoDup ix →
       length ix = (shape (_blocks f1)).1 + (shape (_blocks f2)).1 →
       let cols :=
         array_set_ufunc_many [labels (_columns f1); labels (_columns f2)] union in
       ∃ a1 a2,
         align_frame (InitLabels cols) cols f1 = Ok a1
         ∧ align_frame (InitLabels cols) cols f2 = Ok a2
         ∧ (block_compatible (_blocks a2) (_blocks a1)
            || reblock_compatible (_blocks a2) (_blocks a1) = true
            ∨ (labels (_columns f1) = cols ∧ labels (_columns f2) = cols) →
            ∃ f, from_concat c [f1; f2] 0 union (InitLabels ix) InitNone name
                   consolidate_blocks_ = Ok f
                 ∧ labels (_index f) = ix
                 ∧ labels (_columns f) = cols
                 ∧ (cols ≠ [] → (shape (_blocks f)).1 = length ix))).
Proof.
  intros Ha1 Ha2. split.
  - intros columns. unfold from_concat. cbn [is_none fmap list_fmap].
    unfold concat_resolved_labels. cbn [mbind result_bind mjoin list_join].
    rewrite unique_test, bool_decide_eq_true_2; [done|].
    rewrite app_nil_r. intros Hnd. apply NoDup_app in Hnd as (_ & Hnd & _).
    by apply (Hnd a).
  - intros ix Hwf1 Hwf2 Hix Hlen cols.
    assert (NoDup cols) as Hcnd by apply array_set_ufunc_many_NoDup.
    destruct (align_frame_rows f1 cols Hwf1 Hcnd) as (a1 & Hal1 & Hr1 & Hw1 & _).
    destruct (align_frame_rows f2 cols Hwf2 Hcnd) as (a2 & Hal2 & Hr2 & Hw2 & _).
    exists a1, a2. split; [done|]. split; [done|]. intros Hcompat.
    assert (∃ bs, blocks_axis0 [f1; f2] (InitLabels cols) = Ok bs
                  ∧ Forall (λ b, a_rows b
                                 = (shape (_blocks f1)).1 + (shape (_blocks f2)).1) bs
                  ∧ sum_list (width <$> bs) = length cols) as (bs & Hbs & Hrows & Hsum).
    { destruct Hcompat as [Hcompat|[E1 E2]].
      - by eapply blocks_axis0_pair.
      - rewrite <- E1. apply blocks_axis0_same; [done..|]. by rewrite E1, E2. }
    unfold from_concat. cbn [is_none fmap list_fmap mbind result_bind].
    fold cols. rewrite Hbs. cbn [mbind result_bind].
    set (bs' := if consolidate_blocks_ then consolidate_blocks bs else bs).
    assert (Forall (λ b, a_rows b = (shape (_blocks f1)).1 + (shape (_blocks f2)).1) bs'
            ∧ sum_list (width <$> bs') = length cols) as [Hrows' Hsum'].
    { unfold bs'. destruct consolidate_blocks_; [|done].
      split; [by apply consolidate_blocks_rows|by rewrite consolidate_blocks_width]. }
    destruct (from_blocks_uniform bs' _ Hrows') as (sh & -> & Hsh2 & Hsh1 & Hne).
    cbn [mbind result_bind].
    rewrite Frame_init_labels; simpl; try done.
    + eexists. split; [done|]. simpl. split; [done|]. split; [done|].
      intros Hc. rewrite Hlen. apply Hne. intros ->. simpl in Hsum'.
      by destruct cols.
    + intros ->. apply list_elem_of_lookup in Ha1 as [i Hi].
      apply lookup_lt_Some in Hi. destruct Hwf1 as (_ & Hrl & _).
      simpl in Hlen. lia.
    + by rewrite Hsh2, Hsum'.
    + intros H. by rewrite (Hsh1 H).
Qed.

Lemma frame_ac_wf : Frame_wf frame_ac.
Proof.
  unfold Frame_wf, TypeBlocks_wf. simpl.
  repeat split; try reflexivity; try compute_done; repeat constructor.
Qed.

Lemma from_concat_rows_witness :
  ∃ f, from_concat Frame_cls [frame_ab; frame_ac] 0 true
         (InitLabels [LInt 0; LInt 1; LInt 2; LInt 3]) InitNone None false = Ok f
       ∧ labels (_index f) = [LInt 0; LInt 1; LInt 2; LInt 3]
       ∧ labels (_columns f) = [LStr "p"; LStr "q"]
       ∧ (shape (_blocks f)).1 = 4.
Proof.
  destruct (proj2 (from_concat_rows Frame_cls frame_ab frame_ac (LStr "a") true None false
                     ltac:(compute_done) ltac:(compute_done))
              [LInt 0; LInt 1; LInt 2; LInt 3] frame_ab_wf frame_ac_wf
              ltac:(compute_done) eq_refl) as (a1 & a2 & _ & _ & H).
  destruct H as (f & Hf & Hi & Hc & Hr); [right; split; reflexivity|].
  exists f. split; [done|]. split; [done|]. split; [done|]. by apply Hr.
Defined.

(** An explicit index of the right length whose labels repeat is refused
    by the constructor of the index. *)
Lemma from_concat_repeated_index :
  from_concat Frame_cls [frame_ab; frame_ac] 0 true
    (InitLabels [LInt 0; LInt 0; LInt 1; LInt 2]) InitNone None false
  = Raise ConstructionError.
Proof. reflexivity. Qed.

(** Without an index the two frames, which share the label [a], are
    refused; with [range(4)] they are stacked. *)
Example from_concat_ab_ac :
  from_concat Frame_cls [frame_ab; frame_ac] 0 true InitNone InitNone None false
  = Raise (RuntimeError
      "Index names after vertical concatenation are not unique; supply an index argument.")
  ∧ tb_columns <$> (_blocks <$> from_concat Frame_cls [frame_ab; frame_ac] 0 true
      (InitLabels [LInt 0; LInt 1; LInt 2; LInt 3]) InitNone None false)
    = Ok [[VInt 1; VInt 2; VInt 1; VInt 2]; [VInt 3; VInt 4; VInt 3; VInt 4]].
Proof. split; reflexivity. Qed.

(** Two frames that both differ from the union of their columns are both
    reindexed onto it, and stacked column by column. *)
Example from_concat_ab_qr :
  tb_columns <$> (_blocks <$> from_concat Frame_cls [frame_ab; frame_qr] 0 true
    (InitLabels [LInt 0; LInt 1; LInt 2; LInt 3]) InitNone None false)
  = Ok [[VInt 1; VInt 2; VNaN; VNaN]; [VInt 3; VInt 4; VInt 1; VInt 2];
        [VNaN; VNaN; VInt 3; VInt 4]].
Proof. reflexivity. Qed.

(** When the aligned stores are not compatible, the last branch of
    [blocks()] combines the values of the frames as they were given; here
    their widths differ. *)
Example from_concat_ab_p :
  from_concat Frame_cls [frame_ab; frame_p] 0 true
    (InitLabels [LInt 0; LInt 1; LInt 2; LInt 3]) InitNone None false
  = Raise ValueError.
Proof. reflexivity. Qed.

(** C1: the claim fails at inputs it covers, by a slip in the last branch
    of [blocks()].  The frames [frame_ab] and [frame_p] share the row label
    [a]; without an index their concatenation raises the RuntimeError, as
    the claim says.  With the index [range(4)] the second frame is aligned
    onto the columns [p, q], the aligned stores are neither block compatible
    nor compatible after consolidation, and the last branch stacks the
    values of the frames as they were given, not those of the aligned
    frames it has just built: the widths are 2 and 1, and the call raises a
    ValueError.  The values of the aligned frames do stack, to four rows.
    With [frame_qp], whose two columns are those of [frame_ab] in the other
    order, the same branch returns a frame that has the values of [q] under
    the label [p]. *)
Theorem from_concat_unaligned :
  LStr "a" ∈ labels (_index frame_ab) ∧ LStr "a" ∈ labels (_index frame_p)
  ∧ from_concat Frame_cls [frame_ab; frame_p] 0 true InitNone InitNone None false
    = Raise (RuntimeError
        "Index names after vertical concatenation are not unique; supply an index argument.")
  ∧ from_concat Frame_cls [frame_ab; frame_p] 0 true
      (InitLabels [LInt 0; LInt 1; LInt 2; LInt 3]) InitNone None false
    = Raise ValueError
  ∧ (aligned_frames ← mapM (align_frame (InitLabels [LStr "p"; LStr "q"])
                              [LStr "p"; LStr "q"]) [frame_ab; frame_p];
     a_columns <$> concat_resolved ((λ frame, tb_values (_blocks frame)) <$> aligned_frames))
    = Ok [[VInt 1; VInt 2; VInt 7; VInt 8]; [VInt 3; VInt 4; VNaN; VNaN]]
  ∧ ∃ f, from_concat Frame_cls [frame_ab; frame_qp] 0 true
           (InitLabels [LInt 0; LInt 1; LInt 2; LInt 3]) InitNone None false = Ok f
         ∧ labels (_columns f) = [LStr "p"; LStr "q"]
         ∧ frame_at frame_qp (LStr "a") (LStr "p") = Some (VInt 5)
         ∧ frame_at frame_qp (LStr "a") (LStr "q") = Some (VStr "u")
         ∧ frame_at f (LInt 2) (LStr "p") = Some (VStr "u")
         ∧ frame_at f (LInt 2) (LStr "q") = Some (VInt 5).
Proof.
  split; [compute_done|]. split; [compute_done|].
  split; [reflexivity|]. split; [reflexivity|]. split; [reflexivity|].
  eexists. split; [vm_compute; reflexivity|]. by repeat split.
Qed.

(** ** What the constructor has checked *)

Lemma collapse_checked self blocks_ index columns name_row name_column axis_nm
    own_index own_columns f :
  collapse self blocks_ index columns name_row name_column axis_nm own_index own_columns
  = Ok (RFrame f) →
  Frame_checked f.
Proof.
  unfold collapse. intros H.
  repeat case_match;
    first [ apply fmap_Ok in H as (? & H & [= <-]); by apply Frame_init_checked in H
          | repeat (apply bind_Ok in H as (? & _ & H));
            try (apply fmap_Ok in H as (? & _ & ?)); done ].
Qed.

Lemma extract_checked (self : Frame) (rk ck : GetItemKeyType) (f : Frame) :
  _extract self rk ck = Ok (RFrame f) → Frame_checked f.
Proof.
  unfold _extract. intros H. apply bind_Ok in H as ([v|b] & _ & H); [done|].
  apply bind_Ok in H as ([index name_row] & _ & H).
  apply bind_Ok in H as ([columns name_column] & _ & H).
  by apply collapse_checked in H.
Qed.

Lemma reindex_checked (self : Frame) index columns fill_value (f : Frame) :
  reindex self index columns fill_value = Ok f → Frame_checked f.
Proof.
  unfold reindex. intros H. case_match; [done|].
  apply bind_Ok in H as ([? ?] & _ & H). apply bind_Ok in H as ([? ?] & _ & H).
  apply bind_Ok in H as (? & _ & H). apply bind_Ok in H as (? & _ & H).
  by apply Frame_init_checked in H.
Qed.

Lemma FrameAssign_call_checked (fa : FrameAssign) val fill_value (f : Frame) :
  FrameAssign_call fa val fill_value = Ok f → Frame_checked f.
Proof.
  unfold FrameAssign_call. intros H.
  apply bind_Ok in H as (? & _ & H). apply bind_Ok in H as (? & _ & H).
  by apply Frame_init_checked in H.
Qed.

Lemma from_concat_checked c frames axis union index columns name cons (f : Frame) :
  from_concat c frames axis union index columns name cons = Ok f → Frame_checked f.
Proof.
  unfold from_concat. intros H.
  apply bind_Ok in H as ([[? ?] ?] & _ & H).
  apply bind_Ok in H as (? & _ & H). apply bind_Ok in H as (? & _ & H).
  by apply Frame_init_checked in H.
Qed.

(** * Further properties *)

(** ** Renaming and the two classes *)

Lemma TypeBlocks_copy_id (tb : TypeBlocks) : TypeBlocks_copy tb = tb.
Proof. by destruct tb. Qed.

(** The constructor on an owned store, an owned index object and a
    sequence of column labels. *)
Lemma Frame_init_view c tb (ix : IndexBase) (cx : list label) name :
  NoDup cx →
  length cx = (shape tb).2 →
  ((shape tb).1 ≠ 0 → length (labels ix) = (shape tb).1) →
  Frame_init c (DataBlocks tb) (InitIndex ix) (InitLabels cx) name true true false
  = Ok {| cls := c; _blocks := tb;
          _columns := {| labels := cx; STATIC := COLUMN_CONSTRUCTOR_STATIC c |};
          _index := ix; _name := name |}.
Proof.
  intros Hcx Hc Hr. unfold Frame_init. cbn [mbind result_bind].
  rewrite (assign_index_labels _ _ cx (shape tb).2 Hcx).
  2: { intros ->. by rewrite <- Hc. }
  cbn [mbind result_bind]. unfold assign_index. cbn [orb owned mbind result_bind default].
  by apply size_checks_Ok.
Qed.

(** Renaming changes the name and nothing else: the result has the store,
    the row index and the column index of the frame.  So the last of two
    renamings wins, and renaming to the present name returns the frame. *)
Theorem rename_name_only (self : Frame) (name : option label) :
  Frame_ok self →
  rename self name
  = Ok {| cls := cls self; _blocks := _blocks self; _columns := _columns self;
          _index := _index self; _name := name |}
  ∧ (∀ name', (f ← rename self name'; rename f name) = rename self name)
  ∧ rename self (_name self) = Ok self.
Proof.
  assert (∀ f n, Frame_ok f →
            rename f n = Ok {| cls := cls f; _blocks := _blocks f; _columns := _columns f;
                               _index := _index f; _name := n |}) as Hrename.
  { intros f n (Hc & Hr & Hcn & Hrn & Hcs & Hrs). unfold rename.
    rewrite TypeBlocks_copy_id, Frame_init_objects by done. simpl.
    rewrite <- Hcs, index_eta. by destruct (STATIC _ && STATIC _). }
  intros Hok. split; [by apply Hrename|]. split.
  - intros name'. rewrite (Hrename self name' Hok). cbn [mbind result_bind].
    rewrite (Hrename _ name) by done. by rewrite (Hrename self name Hok).
  - rewrite (Hrename self _ Hok). by destruct self.
Qed.

Lemma frame_ab_ok : Frame_ok frame_ab.
Proof. apply frame_of_ok; try done; compute_done. Qed.

Lemma rename_name_only_witness :
  rename frame_ab (Some (LStr "t"))
  = Ok {| cls := cls frame_ab; _blocks := _blocks frame_ab; _columns := _columns frame_ab;
          _index := _index frame_ab; _name := Some (LStr "t") |}.
Proof. exact (proj1 (rename_name_only frame_ab (Some (LStr "t")) frame_ab_ok)). Defined.

(** A [Frame] turned into a [FrameGO] and back is the frame it was; the
    grow-only view has the store, the row index, the labels of the columns
    and the name of the frame, and a column index that can grow.  A
    [FrameGO] refuses [to_frame_go]. *)
Theorem to_frame_go_round_trip (self : Frame) :
  Frame_ok self →
  (cls self = Frame_cls →
   ∃ g, to_frame_go self = Ok g
        ∧ cls g = FrameGO_cls ∧ _blocks g = _blocks self ∧ _index g = _index self
        ∧ labels (_columns g) = labels (_columns self) ∧ STATIC (_columns g) = false
        ∧ _name g = _name self
        ∧ to_frame g = Ok self)
  ∧ (cls self = FrameGO_cls →
     to_frame_go self = Raise (NotImplementedError "Already a FrameGO")
     ∧ ∃ f, to_frame self = Ok f
            ∧ cls f = Frame_cls ∧ STATIC (_columns f) = true
            ∧ to_frame_go f = Ok self).
Proof.
  intros (Hc & Hr & Hcn & Hrn & Hcs & Hrs). split; intros Hcls.
  - unfold to_frame_go. rewrite Hcls, TypeBlocks_copy_id, Frame_init_view by done.
    eexists. split; [done|]. simpl. repeat (split; [done|]).
    unfold to_frame. simpl. rewrite TypeBlocks_copy_id, Frame_init_view by done.
    rewrite Hcls in Hcs. simpl in Hcs. destruct self as [? ? [? ?] ? ?].
    simpl in *. by subst.
  - unfold to_frame_go, to_frame. rewrite Hcls. split; [done|].
    rewrite TypeBlocks_copy_id, Frame_init_view by done.
    eexists. split; [done|]. simpl. repeat (split; [done|]).
    rewrite TypeBlocks_copy_id, Frame_init_view by done.
    rewrite Hcls in Hcs. simpl in Hcs. destruct self as [? ? [? ?] ? ?].
    simpl in *. by subst.
Qed.

Lemma to_frame_go_round_trip_witness :
  ∃ g, to_frame_go frame_ab = Ok g
       ∧ cls g = FrameGO_cls ∧ _blocks g = _blocks frame_ab ∧ _index g = _index frame_ab
       ∧ labels (_columns g) = labels (_columns frame_ab) ∧ STATIC (_columns g) = false
       ∧ _name g = _name frame_ab
       ∧ to_frame g = Ok frame_ab.
Proof. exact (proj1 (to_frame_go_round_trip frame_ab frame_ab_ok) eq_refl). Defined.

(** ** The dictionary-like interface *)

Lemma selected_labels_single (ix : IndexBase) (p : nat) (l : label) :
  labels ix !! p = Some l → selected_labels ix (KInt (Z.of_nat p)) = Ok [l].
Proof.
  intros H. pose proof (lookup_lt_Some _ _ _ H) as Hlt.
  unfold selected_labels, select, norm_pos. rewrite decide_True by lia.
  cbn [mbind result_bind]. rewrite Nat2Z.id. unfold labels_at.
  rewrite mapM_cons, H. done.
Qed.

(** [get] never raises on a well-formed frame: a label that is not a
    column gives the default that was passed; a label that is a column
    gives what subscription gives, the Series of that column, indexed by the
    rows of the frame and named by the label. *)
Theorem get_or_default {D} (self : Frame) (key : label) (default : D) :
  Frame_wf self →
  (key ∉ labels (_columns self) → get self key default = Ok (inl default))
  ∧ (key ∈ labels (_columns self) →
     ∃ s, get self key default = Ok (inr (RSeries s))
          ∧ __getitem__ self (One (LocLabel key)) = Ok (RSeries s)
          ∧ labels (s_index s) = labels (_index self)
          ∧ s_name s = Some key
          ∧ length (s_values s) = length (labels (_index self))).
Proof.
  intros Hwf. unfold get, Index_contains. split; intros Hkey.
  - by rewrite bool_decide_eq_false_2.
  - rewrite bool_decide_eq_true_2 by done. cbn [negb].
    apply list_elem_of_lookup in Hkey as [p Hp].
    pose proof Hwf as (_ & _ & _ & _ & Hcn & _).
    pose proof (extract_kind self KNone (KInt (Z.of_nat p)) (labels (_index self)) [key]
                  Hwf) as Hkind.
    destruct Hkind as (s & Hs & Hl & Hn & Hv).
    { apply selected_labels_null. by left. }
    { by apply selected_labels_single. }
    { by destruct Hwf as (_ & _ & _ & ? & _). }
    { apply NoDup_singleton. }
    assert (__getitem__ self (One (LocLabel key)) = Ok (RSeries s)) as Hget.
    { unfold __getitem__, _compound_loc_to_getitem_iloc, loc_to_iloc, label_position.
      rewrite (position_of_lookup _ p key Hcn Hp). exact Hs. }
    exists s. rewrite Hget. done.
Qed.

Lemma get_or_default_witness :
  get frame_ab (LStr "z") VNone = Ok (inl VNone).
Proof.
  apply (proj1 (get_or_default frame_ab (LStr "z") VNone frame_ab_wf)). compute_done.
Defined.

(** ** The first and the last rows *)

Lemma positions_range (s : Z) (count : nat) :
  (0 ≤ s)%Z →
  (λ k, Z.to_nat (s + Z.of_nat k * 1)) <$> seq 0 count = seq (Z.to_nat s) count.
Proof.
  intros Hs. transitivity ((λ k, Z.to_nat s + k) <$> seq 0 count).
  - apply list_fmap_ext. intros i k _. lia.
  - rewrite fmap_add_seq. f_equal. lia.
Qed.

Lemma labels_at_range (ls : list label) (s k : nat) :
  s + k ≤ length ls → labels_at ls (seq s k) = Ok (take k (drop s ls)).
Proof.
  unfold labels_at. revert s. induction k as [|k IH]; intros s Hlen; [done|].
  destruct (lookup_lt_is_Some_2 ls s) as [x Hx]; [lia|].
  cbn [seq]. rewrite mapM_cons, Hx, IH by lia. cbn [or_raise mbind result_bind mret result_ret].
  by rewrite (drop_S ls x s Hx).
Qed.

(** The labels that [[:count]] selects. *)
Lemma selected_labels_stop (ix : IndexBase) (count : Z) :
  (0 ≤ count)%Z →
  selected_labels ix (KSlice None (Some count) None)
  = Ok (take (Z.to_nat count) (labels ix)).
Proof.
  intros Hc. unfold selected_labels, select, slice_positions, clamp.
  cbn [default from_option].
  destruct (decide (1 = 0)%Z) as [|_]; [lia|]. destruct (decide (0 < 1)%Z) as [_|]; [|lia].
  destruct (decide (count < 0)%Z) as [|_]; [lia|]. set (n := length (labels ix)).
  assert ((if decide (0 < Z.min count (Z.of_nat n))%Z
           then Z.to_nat ((Z.min count (Z.of_nat n) - 0 + 1 - 1) / 1) else 0)
          = min (Z.to_nat count) n) as ->.
  { case_decide; [rewrite Z.div_1_r|]; lia. }
  rewrite positions_range by done. cbn [mbind result_bind].
  change (Z.to_nat 0) with 0. rewrite labels_at_range by (unfold n; lia).
  rewrite drop_0. f_equal. unfold n.
  destruct (decide (Z.to_nat count ≤ length (labels ix))).
  - by rewrite Nat.min_l.
  - rewrite Nat.min_r by lia. by rewrite !take_ge by lia.
Qed.

(** The labels that [[-count:]] selects; the slice [[-0:]] is [[0:]]. *)
Lemma selected_labels_start (ix : IndexBase) (count : Z) :
  (0 ≤ count)%Z →
  selected_labels ix (KSlice (Some (- count)%Z) None None)
  = Ok (if decide (count = 0%Z) then labels ix
        else drop (length (labels ix) - Z.to_nat count) (labels ix)).
Proof.
  intros Hc. unfold selected_labels, select, slice_positions, clamp.
  cbn [default from_option].
  destruct (decide (1 = 0)%Z) as [|_]; [lia|]. destruct (decide (0 < 1)%Z) as [_|]; [|lia].
  set (n := length (labels ix)).
  set (s := if decide (- count < 0)%Z then Z.max (- count + Z.of_nat n) 0
            else Z.min (- count) (Z.of_nat n)).
  assert (0 ≤ s)%Z as Hs by (unfold s; case_decide; lia).
  assert (Z.to_nat s = if decide (count = 0%Z) then 0 else n - Z.to_nat count) as Hsn.
  { unfold s. repeat case_decide; lia. }
  assert (Z.to_nat s ≤ n) as Hle by (rewrite Hsn; case_decide; lia).
  assert ((if decide (s < Z.of_nat n)%Z
           then Z.to_nat ((Z.of_nat n - s + 1 - 1) / 1) else 0) = n - Z.to_nat s) as ->.
  { destruct (decide (s < Z.of_nat n)%Z); [rewrite Z.div_1_r|]; lia. }
  rewrite positions_range by done. cbn [mbind result_bind].
  rewrite labels_at_range by (unfold n; lia). f_equal.
  rewrite take_ge by (rewrite length_drop; unfold n; lia).
  rewrite Hsn. case_decide; [by rewrite drop_0|done].
Qed.

Lemma NoDup_take_drop (ls : list label) (i j : nat) :
  NoDup ls → NoDup (take i ls) ∧ NoDup (drop j ls).
Proof.
  intros H. split.
  - rewrite <- (take_drop i ls) in H. by apply NoDup_app in H as (? & _ & _).
  - rewrite <- (take_drop j ls) in H. by apply NoDup_app in H as (_ & _ & ?).
Qed.

(** [head(count)] for a count that is not negative returns a Frame (never a
    Series, not even for one row) of the first [count] rows, all of them
    when there are fewer, over the columns of the frame. *)
Theorem head_first_rows (self : Frame) (count : Z) :
  Frame_wf self → (0 ≤ count)%Z →
  ∃ f, Frame_head self count = Ok (RFrame f)
       ∧ labels (_index f) = take (Z.to_nat count) (labels (_index self))
       ∧ labels (_columns f) = labels (_columns self)
       ∧ shape (_blocks f)
         = (min (Z.to_nat count) (length (labels (_index self))),
            length (labels (_columns self))).
Proof.
  intros Hwf Hc. pose proof Hwf as (_ & _ & _ & Hrn & Hcn & _).
  destruct (extract_kind self (KSlice None (Some count) None) KNone
              (take (Z.to_nat count) (labels (_index self))) (labels (_columns self)) Hwf)
    as (f & Hf & Hr & Hcl & Hsh).
  { by apply selected_labels_stop. }
  { apply selected_labels_null. by left. }
  { exact (proj1 (NoDup_take_drop _ _ 0 Hrn)). }
  { done. }
  exists f. split; [exact Hf|]. split; [done|]. split; [done|].
  by rewrite Hsh, length_take.
Qed.

Lemma head_first_rows_witness :
  ∃ f, Frame_head frame_3x3 2 = Ok (RFrame f)
       ∧ labels (_index f) = [LStr "w"; LStr "x"]
       ∧ labels (_columns f) = labels (_columns frame_3x3)
       ∧ shape (_blocks f) = (2, 3).
Proof. exact (head_first_rows frame_3x3 2 frame_3x3_wf ltac:(lia)). Defined.

(** [tail(count)] for a positive count returns a Frame of the last [count]
    rows, all of them when there are fewer; [tail(0)] returns every row,
    since [-0] is [0]. *)
Theorem tail_last_rows (self : Frame) (count : Z) :
  Frame_wf self → (0 ≤ count)%Z →
  ∃ f, Frame_tail self count = Ok (RFrame f)
       ∧ labels (_index f)
         = (if decide (count = 0%Z) then labels (_index self)
            else drop (length (labels (_index self)) - Z.to_nat count)
                   (labels (_index self)))
       ∧ labels (_columns f) = labels (_columns self).
Proof.
  intros Hwf Hc. pose proof Hwf as (_ & _ & _ & Hrn & Hcn & _).
  destruct (extract_kind self (KSlice (Some (- count)%Z) None None) KNone
              (if decide (count = 0%Z) then labels (_index self)
               else drop (length (labels (_index self)) - Z.to_nat count)
                      (labels (_index self)))
              (labels (_columns self)) Hwf)
    as (f & Hf & Hr & Hcl & Hsh).
  { by apply selected_labels_start. }
  { apply selected_labels_null. by left. }
  { case_decide; [done|]. exact (proj2 (NoDup_take_drop _ 0 _ Hrn)). }
  { done. }
  by exists f.
Qed.

Lemma tail_last_rows_witness :
  ∃ f, Frame_tail frame_3x3 0 = Ok (RFrame f)
       ∧ labels (_index f) = [LStr "w"; LStr "x"; LStr "y"]
       ∧ labels (_columns f) = labels (_columns frame_3x3).
Proof. exact (tail_last_rows frame_3x3 0 frame_3x3_wf ltac:(lia)). Defined.

(** ** Growing a frame *)

Lemma tb_columns_app (bs bs' : list ndarray) (sh sh' sh'' : nat * nat) :
  tb_columns {| blocks := bs ++ bs'; shape := sh |}
  = tb_columns {| blocks := bs; shape := sh' |}
    ++ tb_columns {| blocks := bs'; shape := sh'' |}.
Proof.
  induction bs as [|b bs IH]; [apply tb_columns_shape|].
  by rewrite <- app_comm_cons, !tb_columns_cons, IH, app_assoc.
Qed.

(** A buffer of one column, as high as the frame, appended under a label
    that is not a column. *)
Lemma append_buffer (self : Frame) (key : label) (a : ndarray) (col : list element) :
  Frame_wf self → key ∉ labels (_columns self) →
  a_columns a = [col] → a_rows a = (shape (_blocks self)).1 →
  length col = (shape (_blocks self)).1 →
  ∃ tb ix,
    TypeBlocks_append (_blocks self) a = Ok tb
    ∧ Index_append (_columns self) key = Ok ix
    ∧ column_appended self (set_columns (set_blocks self tb) ix) key col.
Proof.
  intros (Hwf & Hrlen & Hclen & Hrn & Hcn & Hrs & Hcs) Hkey Ha Hrows Hcol.
  unfold TypeBlocks_append, Index_append, Index_contains.
  rewrite bool_decide_eq_true_2 by done. rewrite bool_decide_eq_false_2 by done.
  eexists _, _. split; [done|]. split; [done|].
  unfold column_appended, set_columns, set_blocks.
  destruct self as [c [bs sh] cx ix nm].
  cbn [_blocks _columns _index _name cls blocks shape labels STATIC] in *.
  split; [done|]. split.
  { rewrite (tb_columns_app bs [a] _ sh sh), tb_columns_cons, Ha. done. }
  repeat (split; [done|]). destruct Hwf as [Hb Hw].
  assert (width a = 1) as Hwa by (unfold width; by rewrite Ha).
  unfold Frame_wf, TypeBlocks_wf.
  cbn [_blocks _columns _index _name cls blocks shape labels STATIC fst snd] in *.
  repeat split; try done.
  - apply Forall_app. split; [done|]. constructor; [|done].
    split; [done|]. rewrite Ha. by constructor.
  - rewrite fmap_app, sum_list_with_app. cbn. lia.
  - rewrite length_app. cbn. lia.
  - apply NoDup_app. split; [done|]. split; [|apply NoDup_singleton].
    intros x Hx ->%list_elem_of_singleton. done.
Qed.

Lemma setitem_appends (self : Frame) (key : label) (val : SetItemValue)
    (fill_value : element) (a : ndarray) (col : list element) :
  cls self = FrameGO_cls → Frame_wf self → key ∉ labels (_columns self) →
  a_columns a = [col] → a_rows a = (shape (_blocks self)).1 →
  length col = (shape (_blocks self)).1 →
  match val with
  | SetSeries s =>
      (s' ← Series_reindex s (InitIndex (_index self)) fill_value;
       Ok (array_1d (s_values s'))) = Ok a
  | SetArray b | SetSequence b =>
      b = a ∧ a_ndim a = 1 ∧ a_rows a = length (labels (_index self))
  | SetGenerator vs => array_1d vs = a
  | SetElement v => array_1d (replicate (length (labels (_index self))) v) = a
  end →
  ∃ self', __setitem__ self key val fill_value = (self', Ok ())
           ∧ column_appended self self' key col.
Proof.
  intros Hcls Hwf Hkey Ha Hrows Hcol Hval.
  destruct (append_buffer self key a col Hwf Hkey Ha Hrows Hcol)
    as (tb & ix & Htb & Hix & Happ).
  exists (set_columns (set_blocks self tb) ix). split; [|done].
  unfold __setitem__. rewrite Hcls. unfold Index_contains at 1.
  rewrite bool_decide_eq_false_2 by done.
  destruct val as [s|b|vs|v|b].
  - rewrite Hval. cbn [mbind result_bind]. rewrite Htb.
    cbn [_columns set_blocks]. by rewrite Hix.
  - destruct Hval as (-> & Hn & Hr).
    rewrite (bool_decide_eq_false_2 (a_ndim a ≠ 1)) by (intros H; by apply H).
    rewrite (bool_decide_eq_false_2 (a_rows a ≠ _)) by (intros H; by apply H).
    cbn [orb mbind result_bind]. rewrite Htb. cbn [_columns set_blocks]. by rewrite Hix.
  - rewrite Hval. cbn [mbind result_bind]. rewrite Htb.
    cbn [_columns set_blocks]. by rewrite Hix.
  - rewrite Hval. cbn [mbind result_bind]. rewrite Htb.
    cbn [_columns set_blocks]. by rewrite Hix.
  - destruct Hval as (-> & Hn & Hr).
    rewrite (bool_decide_eq_false_2 (a_ndim a ≠ 1)) by (intros H; by apply H).
    rewrite (bool_decide_eq_false_2 (a_rows a ≠ _)) by (intros H; by apply H).
    cbn [orb mbind result_bind]. rewrite Htb. cbn [_columns set_blocks]. by rewrite Hix.
Qed.

Lemma frame_go_ab_wf : Frame_wf frame_go_ab.
Proof.
  unfold Frame_wf, TypeBlocks_wf. simpl.
  repeat split; try reflexivity; try compute_done; repeat constructor.
Qed.

(** Assigning a single element under a new label to a grow-only frame
    appends one column that holds the element in every row; the columns
    that were there, their labels and their order, the row index and the
    name stay as they were, and the frame stays well formed. *)
Theorem setitem_element_fills (self : Frame) (key : label) (v fill_value : element) :
  cls self = FrameGO_cls → Frame_wf self → key ∉ labels (_columns self) →
  ∃ self', __setitem__ self key (SetElement v) fill_value = (self', Ok ())
           ∧ column_appended self self' key
               (replicate (length (labels (_index self))) v).
Proof.
  intros Hcls Hwf Hkey. pose proof Hwf as (_ & Hrlen & _).
  eapply (setitem_appends self key (SetElement v) fill_value
            (array_1d (replicate (length (labels (_index self))) v))); try done.
  - cbn. by rewrite length_replicate.
  - by rewrite length_replicate.
Qed.

Lemma setitem_element_fills_witness :
  ∃ self', __setitem__ frame_go_ab (LStr "r") (SetElement (VInt 0)) VNaN = (self', Ok ())
           ∧ column_appended frame_go_ab self' (LStr "r") [VInt 0; VInt 0].
Proof.
  apply (setitem_element_fills frame_go_ab (LStr "r") (VInt 0) VNaN eq_refl frame_go_ab_wf).
  compute_done.
Defined.

(** Assigning an array or a sequence under a new label: a value that is
    not one-dimensional, or not as long as the row index, raises a
    RuntimeError and leaves the frame as it was; a one-dimensional value of
    the right length is appended as the last column. *)
Theorem setitem_array_sized (self : Frame) (key : label) (a : ndarray)
    (fill_value : element) :
  cls self = FrameGO_cls → Frame_wf self → key ∉ labels (_columns self) →
  (a_ndim a ≠ 1 ∨ a_rows a ≠ length (labels (_index self)) →
   __setitem__ self key (SetArray a) fill_value
   = (self, Raise (RuntimeError "incorrectly sized, unindexed value"))
   ∧ __setitem__ self key (SetSequence a) fill_value
     = (self, Raise (RuntimeError "incorrectly sized, unindexed value")))
  ∧ (∀ col, a_ndim a = 1 → a_rows a = length (labels (_index self)) →
       a_columns a = [col] → length col = a_rows a →
       ∃ self', __setitem__ self key (SetArray a) fill_value = (self', Ok ())
                ∧ __setitem__ self key (SetSequence a) fill_value = (self', Ok ())
                ∧ column_appended self self' key col).
Proof.
  intros Hcls Hwf Hkey. pose proof Hwf as (_ & Hrlen & _). split.
  - intros Hbad.
    assert (bool_decide (a_ndim a ≠ 1)
            || bool_decide (a_rows a ≠ length (labels (_index self))) = true) as Hb.
    { apply orb_true_iff. destruct Hbad; [left|right]; by apply bool_decide_eq_true. }
    unfold __setitem__. rewrite Hcls. unfold Index_contains.
    rewrite bool_decide_eq_false_2 by done. by rewrite Hb.
  - intros col Hn Hr Ha Hcol.
    destruct (setitem_appends self key (SetArray a) fill_value a col)
      as (self' & Hset & Happ); try done; try congruence.
    exists self'. split; [done|]. split; [|done].
    rewrite <- Hset. unfold __setitem__. by rewrite Hcls.
Qed.

Lemma setitem_array_sized_witness :
  __setitem__ frame_go_ab (LStr "r") (SetArray (array_1d [VInt 5])) VNaN
  = (frame_go_ab, Raise (RuntimeError "incorrectly sized, unindexed value")).
Proof.
  apply (proj1 (setitem_array_sized frame_go_ab (LStr "r") (array_1d [VInt 5]) VNaN
                  eq_refl frame_go_ab_wf ltac:(compute_done))).
  right. compute_done.
Defined.

(** Assigning a Series under a new label aligns it on the row labels of
    the frame: the appended column has, at every row, the value the Series
    has at the label of that row, or the fill value when the Series does
    not have the label; values of the Series at other labels are dropped. *)
Theorem setitem_series_by_label (self : Frame) (key : label) (s : Series)
    (fill_value : element) :
  cls self = FrameGO_cls → Frame_wf self → key ∉ labels (_columns self) →
  Series_wf s →
  ∃ self' col,
    __setitem__ self key (SetSeries s) fill_value = (self', Ok ())
    ∧ column_appended self self' key col
    ∧ ∀ i r, labels (_index self) !! i = Some r →
             col !! i = Some (default fill_value (series_at s r)).
Proof.
  intros Hcls Hwf Hkey Hs. pose proof Hwf as (_ & Hrlen & _ & Hrn & _).
  destruct (Series_reindex_aligned s (_index self) fill_value Hs Hrn)
    as (s' & Hs' & Hl & Hlen & Hat).
  destruct (setitem_appends self key (SetSeries s) fill_value
              (array_1d (s_values s')) (s_values s'))
    as (self' & Hset & Happ); try done; try (cbn; congruence).
  { by rewrite Hs'. }
  exists self', (s_values s'). split; [done|]. split; [done|].
  intros i r Hi. rewrite <- (Hat r) by (by eapply list_elem_of_lookup_2).
  unfold series_at at 1.
  rewrite (position_of_lookup (s_index s') i r); [done| |]; by rewrite Hl.
Qed.

Lemma setitem_series_by_label_witness :
  ∃ self' col,
    __setitem__ frame_go_ab (LStr "r") (SetSeries series_qz) VNaN = (self', Ok ())
    ∧ column_appended frame_go_ab self' (LStr "r") col
    ∧ ∀ i r, labels (_index frame_go_ab) !! i = Some r →
             col !! i = Some (default VNaN (series_at series_qz r)).
Proof.
  apply (setitem_series_by_label frame_go_ab (LStr "r") series_qz VNaN eq_refl
           frame_go_ab_wf).
  - compute_done.
  - split; [reflexivity|compute_done].
Defined.

Lemma extend_items_app (self : Frame) (ps qs : list (label * SetItemValue))
    (fill_value : element) :
  extend_items self (ps ++ qs) fill_value
  = match extend_items self ps fill_value with
    | (self', Ok _) => extend_items self' qs fill_value
    | (self', Raise e) => (self', Raise e)
    end.
Proof.
  revert self. induction ps as [|[k v] ps IH]; intros self; [done|].
  cbn [app extend_items]. destruct (__setitem__ self k v fill_value) as [self' [[]|e]]; [|done].
  apply IH.
Qed.

Lemma extend_items_fills (self : Frame) (pairs : list (label * element))
    (fill_value : element) :
  cls self = FrameGO_cls → Frame_wf self →
  NoDup (labels (_columns self) ++ pairs.*1) →
  ∃ self',
    extend_items self ((λ p, (p.1, SetElement p.2)) <$> pairs) fill_value = (self', Ok ())
    ∧ labels (_columns self') = labels (_columns self) ++ pairs.*1
    ∧ tb_columns (_blocks self')
      = tb_columns (_blocks self)
        ++ ((λ p, replicate (length (labels (_index self))) p.2) <$> pairs)
    ∧ _index self' = _index self ∧ _name self' = _name self ∧ cls self' = cls self
    ∧ Frame_wf self'.
Proof.
  revert self. induction pairs as [|[k v] pairs IH]; intros self Hcls Hwf Hnd.
  - exists self. cbn. by rewrite !app_nil_r.
  - assert (k ∉ labels (_columns self)) as Hk.
    { apply NoDup_app in Hnd as (_ & Hnd & _). intros H. apply (Hnd k H). by left. }
    destruct (setitem_appends self k (SetElement v) fill_value
                (array_1d (replicate (length (labels (_index self))) v))
                (replicate (length (labels (_index self))) v))
      as (s1 & Hset & Hl & Hc & Hi & Hn & Hcl & Hwf1); try done.
    { cbn. rewrite length_replicate. by destruct Hwf as (_ & ? & _). }
    { rewrite length_replicate. by destruct Hwf as (_ & ? & _). }
    destruct (IH s1) as (s2 & Hext & Hl2 & Hc2 & Hi2 & Hn2 & Hcl2 & Hwf2).
    { congruence. }
    { done. }
    { rewrite Hl, <- app_assoc. exact Hnd. }
    exists s2. cbn [fmap list_fmap extend_items fst snd]. rewrite Hset.
    split; [exact Hext|]. rewrite Hl2, Hc2, Hl, Hc, Hi, <- !app_assoc.
    split; [done|]. split; [done|].
    split; [congruence|]. split; [congruence|]. split; [congruence|done].
Qed.

(** [extend_items] with single elements under labels that are new and
    distinct appends one filled column for each pair, in the order of the
    pairs, and keeps what was there. *)
Theorem extend_items_appends_all (self : Frame) (pairs : list (label * element))
    (fill_value : element) :
  cls self = FrameGO_cls → Frame_wf self →
  NoDup (labels (_columns self) ++ pairs.*1) →
  ∃ self',
    extend_items self ((λ p, (p.1, SetElement p.2)) <$> pairs) fill_value = (self', Ok ())
    ∧ labels (_columns self') = labels (_columns self) ++ pairs.*1
    ∧ tb_columns (_blocks self')
      = tb_columns (_blocks self)
        ++ ((λ p, replicate (length (labels (_index self))) p.2) <$> pairs)
    ∧ _index self' = _index self ∧ _name self' = _name self
    ∧ Frame_wf self'.
Proof.
  intros Hcls Hwf Hnd.
  destruct (extend_items_fills self pairs fill_value Hcls Hwf Hnd)
    as (self' & ? & ? & ? & ? & ? & _ & ?).
  by exists self'.
Qed.

Lemma extend_items_appends_all_witness :
  ∃ self',
    extend_items frame_go_ab [(LStr "r", SetElement (VInt 0)); (LStr "s", SetElement VNaN)]
      VNaN = (self', Ok ())
    ∧ labels (_columns self') = [LStr "p"; LStr "q"; LStr "r"; LStr "s"]
    ∧ tb_columns (_blocks self')
      = tb_columns (_blocks frame_go_ab) ++ [[VInt 0; VInt 0]; [VNaN; VNaN]]
    ∧ _index self' = _index frame_go_ab ∧ _name self' = _name frame_go_ab
    ∧ Frame_wf self'.
Proof.
  apply (extend_items_appends_all frame_go_ab [(LStr "r", VInt 0); (LStr "s", VNaN)] VNaN
           eq_refl frame_go_ab_wf).
  compute_done.
Defined.

(** [extend_items] is not atomic: when a pair comes with a label that is a
    column by then (of the frame, or added by an earlier pair), the call
    raises the RuntimeError of [__setitem__], the pairs before it have been
    appended and stay, and the pairs after it are not looked at. *)
Theorem extend_items_stops_at_duplicate (self : Frame)
    (before : list (label * element)) (key : label) (val : SetItemValue)
    (rest : list (label * SetItemValue)) (fill_value : element) :
  cls self = FrameGO_cls → Frame_wf self →
  NoDup (labels (_columns self) ++ before.*1) →
  key ∈ labels (_columns self) ++ before.*1 →
  ∃ self',
    extend_items self
      (((λ p, (p.1, SetElement p.2)) <$> before) ++ (key, val) :: rest) fill_value
    = (self', Raise (RuntimeError
         "key already defined in columns; use .assign to get new Frame"))
    ∧ labels (_columns self') = labels (_columns self) ++ before.*1
    ∧ Frame_wf self'.
Proof.
  intros Hcls Hwf Hnd Hkey.
  destruct (extend_items_fills self before fill_value Hcls Hwf Hnd)
    as (self' & Hext & Hl & _ & _ & _ & Hcls' & Hwf').
  exists self'. split; [|done].
  rewrite extend_items_app, Hext. cbn [extend_items].
  unfold __setitem__. rewrite Hcls', Hcls. unfold Index_contains.
  by rewrite bool_decide_eq_true_2 by (by rewrite Hl).
Qed.

Lemma extend_items_stops_at_duplicate_witness :
  ∃ self',
    extend_items frame_go_ab
      [(LStr "r", SetElement (VInt 0)); (LStr "r", SetElement (VInt 1));
       (LStr "s", SetElement (VInt 2))] VNaN
    = (self', Raise (RuntimeError
         "key already defined in columns; use .assign to get new Frame"))
    ∧ labels (_columns self') = [LStr "p"; LStr "q"; LStr "r"]
    ∧ Frame_wf self'.
Proof.
  apply (extend_items_stops_at_duplicate frame_go_ab [(LStr "r", VInt 0)] (LStr "r")
           (SetElement (VInt 1)) [(LStr "s", SetElement (VInt 2))] VNaN
           eq_refl frame_go_ab_wf); compute_done.
Defined.

(** ** Selection interfaces in the style of subscription *)

(** Every interface that takes its key in the style of [__getitem__]
    ([drop], [mask], [assign], [astype]) refuses a tuple with the KeyError
    of [_compound_loc_to_getitem_iloc], before the store is looked at,
    whatever the operations of the store do. *)
Theorem getitem_interfaces_reject_tuples
    (TypeBlocks_drop : TypeBlocks → Compound GetItemKeyType → result TypeBlocks)
    (Index_drop_iloc : IndexBase → GetItemKeyType → result IndexBase)
    (TypeBlocks_extract_iloc_mask
      : TypeBlocks → Compound GetItemKeyType → result TypeBlocks)
    (self : Frame) (ks : list LocKeyType) :
  _drop_getitem TypeBlocks_drop Index_drop_iloc self (Tuple ks)
  = Raise (KeyError "__getitem__ does not support multiple indexers")
  ∧ _extract_getitem_mask TypeBlocks_extract_iloc_mask self (Tuple ks)
    = Raise (KeyError "__getitem__ does not support multiple indexers")
  ∧ _extract_getitem_assign self (Tuple ks)
    = Raise (KeyError "__getitem__ does not support multiple indexers")
  ∧ _extract_getitem_astype self (Tuple ks)
    = Raise (KeyError "__getitem__ does not support multiple indexers").
Proof. done. Qed.

(** ** Assignment and the operations on the values *)

Lemma extract_iloc_assign_shape (tb tb' : TypeBlocks) (key : Compound GetItemKeyType)
    (value : RawValue) :
  extract_iloc_assign tb key value = Ok tb' → shape tb' = shape tb.
Proof.
  unfold extract_iloc_assign. intros H.
  apply bind_Ok in H as (ks & _ & H). apply bind_Ok in H as (rows & _ & H).
  apply bind_Ok in H as (cols & _ & H).
  destruct (negb _); [done|]. by injection H as <-.
Qed.

(** The constructor on an owned store of the shape of a frame, with the
    index objects of the frame. *)
Lemma Frame_init_same_shape (self : Frame) (tb : TypeBlocks) (name : option label) :
  Frame_ok self → shape tb = shape (_blocks self) →
  Frame_init (cls self) (DataBlocks tb) (InitIndex (_index self))
    (InitIndex (_columns self)) name true false false
  = Ok {| cls := cls self; _blocks := tb; _columns := _columns self;
          _index := _index self; _name := name |}.
Proof.
  intros (Hc & Hr & Hcn & Hrn & Hcs & Hrs) Hsh.
  rewrite Frame_init_objects by (by rewrite ?Hsh). simpl.
  rewrite <- Hcs, Hrs, index_eta. simpl. by destruct (STATIC _ && STATIC _).
Qed.

(** An assignment never touches the labels: whatever the key and the
    value, the frame that [FrameAssign.__call__] returns has the row index,
    the column index, the name and the class of the frame assigned to, and
    a store of the same shape. *)
Theorem assign_keeps_labels (fa : FrameAssign) (value : AssignValue)
    (fill_value : element) (f : Frame) :
  Frame_ok (container fa) →
  FrameAssign_call fa value fill_value = Ok f →
  _index f = _index (container fa) ∧ _columns f = _columns (container fa)
  ∧ _name f = _name (container fa) ∧ cls f = cls (container fa)
  ∧ shape (_blocks f) = shape (_blocks (container fa)).
Proof.
  intros Hok H. unfold FrameAssign_call in H.
  apply bind_Ok in H as (v & _ & H). apply bind_Ok in H as (tb & Htb & H).
  apply extract_iloc_assign_shape in Htb.
  rewrite (Frame_init_same_shape _ tb _ Hok Htb) in H. by injection H as <-.
Qed.

Lemma assign_keeps_labels_witness :
  ∃ f, FrameAssign_call (_extract_iloc_assign frame_ab (Tuple [KInt 0; NULL_SLICE]))
         (AssignContainer (CSeries series_qz)) VNaN = Ok f
       ∧ _index f = _index frame_ab ∧ _columns f = _columns frame_ab
       ∧ _name f = _name frame_ab ∧ cls f = cls frame_ab
       ∧ shape (_blocks f) = shape (_blocks frame_ab).
Proof.
  eexists. split; [vm_compute; reflexivity|].
  apply (assign_keeps_labels (_extract_iloc_assign frame_ab (Tuple [KInt 0; NULL_SLICE]))
           (AssignContainer (CSeries series_qz)) VNaN _ frame_ab_ok).
  vm_compute. reflexivity.
Defined.

(** The methods that replace the values and keep the shape.  Whenever the
    operation of the store returns a store of the shape of the frame, the
    result carries the row index and the column labels of the frame;
    [fillna], [fillna_leading], [fillna_trailing] and [shift] keep the name
    and the class, a mask keeps the class and drops the name, and [isna]
    and [notna] return an unnamed [Frame] with a static column index even
    for a [FrameGO]. *)
Theorem value_operations_keep_labels (self : Frame) (tb' : TypeBlocks) :
  Frame_ok self → shape tb' = shape (_blocks self) →
  (∀ op v, op (_blocks self) v = Ok tb' →
     fillna op self v
     = Ok {| cls := cls self; _blocks := tb'; _columns := _columns self;
             _index := _index self; _name := _name self |})
  ∧ (∀ op v axis, op (_blocks self) v axis = Ok tb' →
       fillna_leading op self v axis
       = Ok {| cls := cls self; _blocks := tb'; _columns := _columns self;
               _index := _index self; _name := _name self |}
       ∧ fillna_trailing op self v axis
         = Ok {| cls := cls self; _blocks := tb'; _columns := _columns self;
                 _index := _index self; _name := _name self |})
  ∧ (∀ op bs i j v, op (_blocks self) i j false v = Ok bs →
       TypeBlocks_from_blocks bs = Ok tb' →
       shift op self i j v
       = Ok {| cls := cls self; _blocks := tb'; _columns := _columns self;
               _index := _index self; _name := _name self |})
  ∧ (∀ op key, op (_blocks self) key = Ok tb' →
       _extract_iloc_mask op self key
       = Ok {| cls := cls self; _blocks := tb'; _columns := _columns self;
               _index := _index self; _name := None |})
  ∧ (∀ op, op (_blocks self) = Ok tb' →
       isna op self
       = Ok {| cls := Frame_cls; _blocks := tb';
               _columns := {| labels := labels (_columns self); STATIC := true |};
               _index := _index self; _name := None |}
       ∧ notna op self
         = Ok {| cls := Frame_cls; _blocks := tb';
                 _columns := {| labels := labels (_columns self); STATIC := true |};
                 _index := _index self; _name := None |}).
Proof.
  intros Hok Hsh.
  pose proof (λ name, Frame_init_same_shape self tb' name Hok Hsh) as Hinit.
  split; [|split; [|split; [|split]]].
  - intros op v Hop. unfold fillna. rewrite Hop. apply Hinit.
  - intros op v axis Hop. unfold fillna_leading, fillna_trailing. rewrite Hop.
    split; apply Hinit.
  - intros op bs i j v Hop Hbs. unfold shift. rewrite Hop. cbn [mbind result_bind].
    rewrite Hbs. apply Hinit.
  - intros op key Hop. unfold _extract_iloc_mask. rewrite Hop. apply Hinit.
  - intros op Hop. unfold isna, notna. rewrite Hop. cbn [mbind result_bind].
    destruct Hok as (Hc & Hr & Hcn & Hrn & Hcs & Hrs).
    rewrite Frame_init_objects by (by rewrite ?Hsh). simpl.
    rewrite Hrs, andb_true_r. simpl.
    destruct (_columns self) as [ls [|]]; by simpl.
Qed.

Lemma value_operations_keep_labels_witness :
  fillna (λ tb _, Ok tb) frame_ab VNaN
  = Ok {| cls := cls frame_ab; _blocks := _blocks frame_ab; _columns := _columns frame_ab;
          _index := _index frame_ab; _name := _name frame_ab |}.
Proof.
  exact (proj1 (value_operations_keep_labels frame_ab (_blocks frame_ab) frame_ab_ok
                  eq_refl) (λ tb _, Ok tb) VNaN eq_refl).
Defined.

(** [astype] never changes the labels: when the conversion returns buffers
    as high as the frame that are together as wide, the result has the row
    index, the column index, the name and the class of the frame and a store
    of the same width, with the buffers consolidated or not. *)
Theorem astype_keeps_labels
    (TypeBlocks_astype_blocks
      : TypeBlocks → GetItemKeyType → dtype → result (list ndarray))
    (fa : FrameAsType) (dtype_ : dtype) (consolidate_blocks_ : bool)
    (bs : list ndarray) :
  Frame_wf (as_container fa) →
  TypeBlocks_astype_blocks (_blocks (as_container fa)) (column_key fa) dtype_ = Ok bs →
  Forall (λ b, a_rows b = (shape (_blocks (as_container fa))).1) bs →
  sum_list (width <$> bs) = (shape (_blocks (as_container fa))).2 →
  ∃ f, FrameAsType_call TypeBlocks_astype_blocks fa dtype_ consolidate_blocks_ = Ok f
       ∧ _index f = _index (as_container fa) ∧ _columns f = _columns (as_container fa)
       ∧ _name f = _name (as_container fa) ∧ cls f = cls (as_container fa)
       ∧ blocks (_blocks f) = (if consolidate_blocks_ then consolidate_blocks bs else bs)
       ∧ (shape (_blocks f)).2 = (shape (_blocks (as_container fa))).2.
Proof.
  intros (Hwf & Hrlen & Hclen & Hrn & Hcn & Hrs & Hcs) Hop Hrows Hsum.
  unfold FrameAsType_call. rewrite Hop. cbn [mbind result_bind].
  set (bs' := if consolidate_blocks_ then consolidate_blocks bs else bs).
  assert (Forall (λ b, a_rows b = (shape (_blocks (as_container fa))).1) bs'
          ∧ sum_list (width <$> bs') = (shape (_blocks (as_container fa))).2)
    as [Hrows' Hsum'].
  { unfold bs'. destruct consolidate_blocks_; [|done].
    split; [by apply consolidate_blocks_rows|by rewrite consolidate_blocks_width]. }
  destruct (from_blocks_uniform bs' _ Hrows') as (sh & -> & Hsh2 & Hsh1 & _).
  cbn [mbind result_bind]. rewrite Frame_init_objects; simpl; try done.
  - eexists. split; [done|]. simpl. rewrite <- Hcs, Hrs, index_eta. simpl.
    split; [done|]. split; [by destruct (STATIC _ && STATIC _)|].
    repeat (split; [done|]). by rewrite Hsh2.
  - by rewrite Hsh2, Hsum'.
  - intros H. by rewrite (Hsh1 H).
Qed.

Lemma astype_keeps_labels_witness :
  ∃ f, FrameAsType_call (λ tb _ _, Ok (blocks tb))
         {| as_container := frame_ab; column_key := KNone |} DInt true = Ok f
       ∧ _index f = _index frame_ab ∧ _columns f = _columns frame_ab
       ∧ _name f = _name frame_ab ∧ cls f = cls frame_ab
       ∧ blocks (_blocks f) = consolidate_blocks (blocks (_blocks frame_ab))
       ∧ (shape (_blocks f)).2 = (shape (_blocks frame_ab)).2.
Proof.
  apply (astype_keeps_labels (λ tb _ _, Ok (blocks tb))
           {| as_container := frame_ab; column_key := KNone |} DInt true
           (blocks (_blocks frame_ab)) frame_ab_wf eq_refl).
  - repeat constructor.
  - reflexivity.
Defined.

(** Transposition swaps the labels: when the store is transposed into a
    store of the swapped shape, the result has the column labels of the
    frame as its rows and the row labels as its columns, and keeps the name
    and the class; transposing twice gives back both sequences of labels. *)
Theorem transpose_swaps_labels (op : TypeBlocks → result TypeBlocks)
    (self : Frame) (tb' : TypeBlocks) :
  Frame_wf self →
  op (_blocks self) = Ok tb' →
  shape tb' = ((shape (_blocks self)).2, (shape (_blocks self)).1) →
  ∃ t, transpose op self = Ok t
       ∧ labels (_index t) = labels (_columns self)
       ∧ labels (_columns t) = labels (_index self)
       ∧ _blocks t = tb' ∧ _name t = _name self ∧ cls t = cls self
       ∧ Frame_ok t
       ∧ ∀ tb'', op tb' = Ok tb'' → shape tb'' = shape (_blocks self) →
           ∃ u, transpose op t = Ok u
                ∧ labels (_index u) = labels (_index self)
                ∧ labels (_columns u) = labels (_columns self)
                ∧ _blocks u = tb''.
Proof.
  intros (Hwf & Hrlen & Hclen & Hrn & Hcn & Hrs & Hcs) Hop Hsh.
  unfold transpose at 1. rewrite Hop. cbn [mbind result_bind].
  rewrite Frame_init_objects by (by rewrite ?Hsh).
  eexists. split; [done|]. cbn [_index _columns _blocks _name cls orb].
  assert (∀ (b : bool) (x y : IndexBase),
            labels x = labels y → labels (if b then x else y) = labels y) as Hif.
  { intros [] x y; by simpl. }
  rewrite !Hif by done. repeat (split; [done|]). split.
  - unfold Frame_ok. cbn [_index _columns _blocks _name cls].
    rewrite !Hif by done. rewrite Hsh. cbn [fst snd].
    repeat (split; [done|]). split.
    + rewrite Hrs. destruct (COLUMN_CONSTRUCTOR_STATIC (cls self)); simpl; congruence.
    + destruct (STATIC (_columns self)) eqn:E; simpl; congruence.
  - intros tb'' Hop' Hsh'. unfold transpose. cbn [_blocks]. rewrite Hop'.
    cbn [mbind result_bind _index _columns cls _name].
    assert (∀ (b : bool) (x y : IndexBase) l,
              labels x = l → labels y = l → labels (if b then x else y) = l) as Hif'.
    { by intros [] x y l. }
    rewrite Frame_init_objects; rewrite ?Hif; try done.
    + eexists. split; [done|]. cbn [_index _columns _blocks].
      split; [|split; [|done]]; repeat (apply Hif'; cbn [labels]); done.
    + by rewrite Hsh'.
    + by rewrite Hsh'.
Qed.

Lemma transpose_swaps_labels_witness :
  ∃ t, transpose (λ tb, Ok tb) frame_ab = Ok t
       ∧ labels (_index t) = labels (_columns frame_ab)
       ∧ labels (_columns t) = labels (_index frame_ab).
Proof.
  destruct (transpose_swaps_labels (λ tb, Ok tb) frame_ab (_blocks frame_ab)
              frame_ab_wf eq_refl eq_refl) as (t & Ht & Hi & Hc & _).
  by exists t.
Defined.

(** ** The constructor without an array *)

Lemma assign_index_new (static shared : bool) (ls : list label) :
  NoDup ls →
  ∃ count, assign_index static shared false (InitLabels ls) None
           = Ok ({| labels := ls; STATIC := static |}, count).
Proof.
  intros Hnd. unfold assign_index. cbn [orb is_static andb is_none is_empty].
  case_bool_decide as E.
  - subst ls. exists (Some 0). done.
  - exists None. cbn [Index_from mbind result_bind]. unfold Index_init.
    by rewrite decide_True.
Qed.

Lemma assign_index_absent (static shared : bool) :
  assign_index static shared false InitNone None
  = Ok ({| labels := []; STATIC := static |}, Some 0).
Proof. done. Qed.

Lemma tb_columns_full (sh sh' : nat * nat) (v : element) :
  tb_columns {| blocks := [np_full sh v]; shape := sh' |}
  = replicate sh.2 (replicate sh.1 v).
Proof. rewrite tb_columns_cons. unfold tb_columns. cbn. by rewrite app_nil_r. Qed.

(** A frame built from a single element (an object without a length that
    is not a string) and labels for both axes has one cell for every pair
    of labels, and every cell holds the element; an empty sequence of
    labels gives an empty axis. *)
Theorem init_element_broadcast (c : FrameClass) (v : element) (ix cx : list label)
    (name : option label) (own_data : bool) :
  NoDup ix → NoDup cx → (∀ s, v ≠ VStr s) →
  ∃ f, Frame_init c (DataElement v) (InitLabels ix) (InitLabels cx) name own_data
         false false = Ok f
       ∧ cls f = c ∧ _name f = name
       ∧ labels (_index f) = ix ∧ labels (_columns f) = cx
       ∧ shape (_blocks f) = (length ix, length cx)
       ∧ tb_columns (_blocks f) = replicate (length cx) (replicate (length ix) v)
       ∧ Frame_wf f.
Proof.
  intros Hix Hcx _. unfold Frame_init. cbn [mbind result_bind].
  destruct (assign_index_new (COLUMN_CONSTRUCTOR_STATIC c) (COLUMN_CONSTRUCTOR_STATIC c)
              cx Hcx) as [cc ->].
  cbn [mbind result_bind].
  destruct (assign_index_new true true ix Hix) as [rc ->].
  cbn [mbind result_bind labels]. rewrite from_blocks_singleton, np_full_shape.
  cbn [mbind result_bind]. unfold size_checks. cbn [labels].
  rewrite (bool_decide_eq_false_2 (length ix ≠ length ix)) by (intros H; by apply H).
  rewrite (bool_decide_eq_false_2 (length cx ≠ length cx)) by (intros H; by apply H).
  rewrite andb_false_r. eexists. split; [done|].
  cbn [cls _name _index _columns _blocks labels shape].
  repeat (split; [done|]). split; [apply tb_columns_full|].
  unfold Frame_wf, TypeBlocks_wf.
  cbn [cls _name _index _columns _blocks labels shape blocks STATIC fst snd].
  repeat split; try done.
  - constructor; [|done]. split; [done|]. cbn.
    apply Forall_replicate. by rewrite length_replicate.
  - cbn. unfold width. cbn. rewrite length_replicate. lia.
Qed.

Lemma init_element_broadcast_witness :
  ∃ f, Frame_init Frame_cls (DataElement (VInt 0)) (InitLabels [LStr "a"; LStr "b"])
         (InitLabels [LStr "p"]) None false false false = Ok f
       ∧ cls f = Frame_cls ∧ _name f = None
       ∧ labels (_index f) = [LStr "a"; LStr "b"] ∧ labels (_columns f) = [LStr "p"]
       ∧ shape (_blocks f) = (2, 1)
       ∧ tb_columns (_blocks f) = [[VInt 0; VInt 0]]
       ∧ Frame_wf f.
Proof.
  apply (init_element_broadcast Frame_cls (VInt 0) [LStr "a"; LStr "b"] [LStr "p"]
           None false); [compute_done|compute_done|done].
Defined.

(** A frame built without data and with labels for the rows only has
    these rows and no column, and is well formed; a grow-only frame built
    this way takes a first column by item assignment, filled over exactly
    these rows. *)
Theorem init_index_only (c : FrameClass) (ix : list label) (name : option label)
    (own_data : bool) :
  NoDup ix →
  ∃ f, Frame_init c DataNone (InitLabels ix) InitNone name own_data false false = Ok f
       ∧ labels (_index f) = ix ∧ labels (_columns f) = []
       ∧ shape (_blocks f) = (length ix, 0) ∧ blocks (_blocks f) = []
       ∧ Frame_wf f
       ∧ (c = FrameGO_cls →
          ∀ key v fill_value,
            ∃ g, __setitem__ f key (SetElement v) fill_value = (g, Ok ())
                 ∧ labels (_columns g) = [key]
                 ∧ tb_columns (_blocks g) = [replicate (length ix) v]
                 ∧ labels (_index g) = ix).
Proof.
  intros Hix. unfold Frame_init. cbn [mbind result_bind is_none orb].
  rewrite assign_index_absent. cbn [mbind result_bind].
  destruct (assign_index_new true true ix Hix) as [rc ->].
  cbn [mbind result_bind labels length]. unfold size_checks, TypeBlocks_from_none.
  cbn [labels length].
  rewrite (bool_decide_eq_false_2 (length ix ≠ length ix)) by (intros H; by apply H).
  rewrite (bool_decide_eq_false_2 (0 ≠ 0)) by (intros H; by apply H).
  rewrite andb_false_r. eexists. split; [done|].
  cbn [cls _name _index _columns _blocks labels shape blocks].
  repeat (split; [done|]).
  match goal with |- Frame_wf ?f ∧ _ => assert (Frame_wf f) as Hwf end.
  { unfold Frame_wf, TypeBlocks_wf.
    cbn [cls _name _index _columns _blocks labels shape blocks STATIC fst snd].
    repeat split; try done; constructor. }
  split; [done|]. intros -> key v fill_value.
  match type of Hwf with Frame_wf ?f =>
    destruct (setitem_appends f key (SetElement v) fill_value
                (array_1d (replicate (length ix) v)) (replicate (length ix) v))
      as (g & Hg & Hl & Hc & Hi & _); try done
  end.
  { cbn. apply not_elem_of_nil. }
  { cbn. by rewrite length_replicate. }
  { cbn. by rewrite length_replicate. }
  exists g. split; [exact Hg|]. cbn in Hl, Hc, Hi. by rewrite Hl, Hc, Hi.
Qed.

Lemma init_index_only_witness :
  ∃ f, Frame_init FrameGO_cls DataNone (InitLabels [LStr "a"; LStr "b"]) InitNone None
         false false false = Ok f
       ∧ labels (_index f) = [LStr "a"; LStr "b"] ∧ labels (_columns f) = []
       ∧ shape (_blocks f) = (2, 0) ∧ blocks (_blocks f) = []
       ∧ Frame_wf f.
Proof.
  destruct (init_index_only FrameGO_cls [LStr "a"; LStr "b"] None false
              ltac:(compute_done)) as (f & Hf & Hi & Hc & Hs & Hb & Hwf & _).
  by exists f.
Defined.

(** ** Horizontal concatenation *)

(** The constructor on an owned store and two sequences of labels, either
    of which may be empty. *)
Lemma Frame_init_sequences c tb (ix cx : list label) name :
  NoDup ix → NoDup cx →
  length cx = (shape tb).2 →
  ((shape tb).1 ≠ 0 → length ix = (shape tb).1) →
  Frame_init c (DataBlocks tb) (InitLabels ix) (InitLabels cx) name true false false
  = Ok {| cls := c; _blocks := tb;
          _columns := {| labels := cx; STATIC := COLUMN_CONSTRUCTOR_STATIC c |};
          _index := {| labels := ix; STATIC := true |};
          _name := name |}.
Proof.
  intros Hix Hcx Hc Hr. unfold Frame_init. cbn [mbind result_bind].
  rewrite (assign_index_labels _ _ cx (shape tb).2 Hcx).
  2: { intros ->. by rewrite <- Hc. }
  cbn [mbind result_bind]. rewrite (assign_index_labels _ _ ix (shape tb).1 Hix).
  2: { intros ->. destruct (decide ((shape tb).1 = 0)) as [|Hne]; [done|].
       by rewrite <- (Hr Hne). }
  cbn [mbind result_bind default]. by apply size_checks_Ok.
Qed.

(** The buffers of a store resized along the rows only: one buffer for
    each column, as high as the target, holding at each target row the
    value of the matched source row or the fill value. *)
Lemma resize_blocks_rows (tb : TypeBlocks) (icr : list (option nat))
    (fill_value : element) :
  TypeBlocks_wf tb →
  Forall (λ m, ∀ r, m = Some r → r < (shape tb).1) icr →
  ∃ bs cols,
    resize_blocks tb (Some icr) None fill_value = Ok bs
    ∧ Forall (λ b, a_rows b = length icr) bs
    ∧ Forall2 (λ b col, a_columns b = [col]) bs cols
    ∧ length cols = (shape tb).2
    ∧ ∀ j col, cols !! j = Some col →
        ∀ i mr, icr !! i = Some mr →
          col !! i = Some (default fill_value (r ← mr; cell tb r j)).
Proof.
  intros Hwf Hr. destruct (wf_columns tb Hwf) as [Hlen Hall].
  unfold resize_blocks, cell. rewrite <- Hlen. unfold tb_columns in *.
  revert Hall. generalize (typed_columns tb). clear Hlen Hwf.
  induction l as [|tc tcs IH]; intros Hall.
  - exists [], []. repeat split; try done; constructor.
  - rewrite fmap_cons in Hall. apply Forall_cons in Hall as [Htc Hall].
    destruct (IH Hall) as (bs & cols & Hbs & Hrows & Hcols & Hl & Hat).
    destruct (resize_column_aligned icr fill_value tc) as (vs & dt & Hvs & Hvl & Hv).
    { by rewrite Htc. }
    rewrite mapM_cons, Hvs, Hbs. cbn [mbind result_bind mret result_ret].
    eexists (_ :: bs), (vs :: cols). split; [done|].
    split; [by constructor|]. split; [by constructor|].
    split; [by rewrite fmap_cons; simpl; rewrite Hl|].
    intros [|j] col; simpl.
    + intros [= <-] i mr Hmr. rewrite (Hv i mr Hmr). by destruct mr.
    + intros Hcol i mr Hmr. rewrite (Hat j col Hcol i mr Hmr). by destruct mr.
Qed.

(** A frame reindexed onto unique row labels alone keeps its columns:
    the new store has one buffer for each column, as high as the target,
    and holds at a target label the values of the row of that label, or the
    fill value. *)
Lemma reindex_rows (g : Frame) (ls : list label) (fill_value : element) :
  Frame_wf g → NoDup ls →
  ∃ g', reindex g (InitLabels ls) InitNone fill_value = Ok g'
        ∧ Forall (λ b, a_rows b = length ls) (blocks (_blocks g'))
        ∧ sum_list (width <$> blocks (_blocks g')) = (shape (_blocks g)).2
        ∧ length (tb_columns (_blocks g')) = (shape (_blocks g)).2
        ∧ ∀ j col, tb_columns (_blocks g') !! j = Some col →
            ∀ i r, ls !! i = Some r →
              col !! i = Some (default fill_value
                                 (p ← position_of (_index g) r; cell (_blocks g) p j)).
Proof.
  intros (Hwf & Hrlen & Hclen & Hrn & Hcn & Hrs & Hcs) Hnd.
  unfold reindex. cbn [is_none andb negb reindex_target Index_from].
  unfold Index_init. rewrite decide_True by done. cbn [mbind result_bind].
  set (ix := {| labels := ls; STATIC := true |}).
  destruct (resize_blocks_rows (_blocks g) (from_correspondence (_index g) ix)
              fill_value Hwf) as (bs & cols & -> & Hrows & Hcols & Hl & Hat).
  { rewrite <- Hrlen. apply correspondence_bound. }
  cbn [mbind result_bind].
  destruct (from_blocks_uniform bs _ Hrows) as (sh & -> & Hsh2 & Hsh1 & _).
  cbn [mbind result_bind].
  destruct (tb_columns_singles bs cols sh Hcols) as [Htc Hsum].
  unfold from_correspondence in Hrows, Hat, Hsh1. rewrite length_fmap in Hrows, Hsh1.
  rewrite Frame_init_objects; try done; simpl.
  2: { by rewrite Hsh2, Hsum, Hl. }
  2: { intros Hne. by rewrite (Hsh1 Hne). }
  eexists. split; [done|]. simpl. split; [done|]. split; [by rewrite Hsum|].
  rewrite Htc. split; [done|]. intros j col Hcol i r Hi.
  apply (Hat j col Hcol i). unfold ix. cbn [labels]. by rewrite list_lookup_fmap, Hi.
Qed.

Lemma tb_columns_consolidate (bs : list ndarray) (sh sh' : nat * nat) :
  tb_columns {| blocks := consolidate_blocks bs; shape := sh |}
  = tb_columns {| blocks := bs; shape := sh' |}.
Proof.
  induction bs as [|b bs IH]; [done|]. cbn [consolidate_blocks].
  rewrite (tb_columns_cons b bs), <- IH.
  destruct (consolidate_blocks bs) as [|b' rest]; [by rewrite !tb_columns_cons|].
  case_decide; rewrite !tb_columns_cons; cbn [a_columns]; by rewrite ?app_assoc.
Qed.

(** One turn of the loop of [blocks()] for [axis=1]: a frame whose rows
    are not the target rows is reindexed onto them; the aligned frame is as
    high as the target, as wide as the frame, and holds at a target label
    the values of the row of that label, or NaN. *)
Lemma align_rows (g : Frame) (ls : list label) :
  Frame_wf g → NoDup ls →
  ∃ a, (if differs (labels (_index g)) ls
        then reindex g (InitLabels ls) InitNone VNaN else Ok g) = Ok a
       ∧ Forall (λ b, a_rows b = length ls) (blocks (_blocks a))
       ∧ sum_list (width <$> blocks (_blocks a)) = (shape (_blocks g)).2
       ∧ length (tb_columns (_blocks a)) = (shape (_blocks g)).2
       ∧ ∀ j col, tb_columns (_blocks a) !! j = Some col →
           ∀ i r, ls !! i = Some r →
             col !! i = Some (default VNaN
                                (p ← position_of (_index g) r; cell (_blocks g) p j)).
Proof.
  intros Hwf Hnd. unfold differs. case_bool_decide as E.
  - apply (reindex_rows g ls VNaN Hwf Hnd).
  - exists g. split; [done|].
    destruct Hwf as (Hwf & Hrlen & Hclen & Hrn & Hcn & Hrs & Hcs).
    destruct (wf_columns _ Hwf) as [Hlen Hall]. pose proof Hwf as [Hb Hw].
    split; [|split; [done|split; [done|]]].
    + eapply Forall_impl; [exact Hb|]. intros b [-> _]. by rewrite <- Hrlen, E.
    + intros j col Hcol i r Hi.
      rewrite (position_of_lookup (_index g) i r) by (by rewrite ?E).
      cbn [mbind option_bind]. unfold cell. rewrite Hcol. cbn [mbind option_bind].
      rewrite Forall_lookup in Hall. specialize (Hall j col Hcol).
      destruct (lookup_lt_is_Some_2 col i) as [x ->]; [|done].
      rewrite Hall, <- Hrlen, E. by eapply lookup_lt_Some.
Qed.

Lemma position_of_app_l (ix : IndexBase) (l1 l2 : list label) (c : label) (j : nat) :
  labels ix = l1 ++ l2 → NoDup (l1 ++ l2) → l1 !! j = Some c → position_of ix c = Some j.
Proof.
  intros Hl Hnd Hj. apply position_of_lookup; rewrite Hl; [done|].
  by apply lookup_app_l_Some.
Qed.

Lemma position_of_app_r (ix : IndexBase) (l1 l2 : list label) (c : label) (j : nat) :
  labels ix = l1 ++ l2 → NoDup (l1 ++ l2) → l2 !! j = Some c →
  position_of ix c = Some (length l1 + j).
Proof.
  intros Hl Hnd Hj. apply position_of_lookup; rewrite Hl; [done|].
  by rewrite lookup_app_r, Nat.add_comm, Nat.add_sub by lia.
Qed.

(** Concatenation along axis 1 (side by side).  When the column labels of
    the two frames together have a repetition and no columns are given, the
    call raises a RuntimeError whatever the index argument is.  When they
    are distinct, the call succeeds for any two well-formed frames: the rows
    of the result are the union (or the intersection) of the row labels in
    sorted order, its columns are the columns of the first frame followed
    by those of the second, and each cell holds the value its frame has at
    that row label and column label, or NaN where the frame does not have
    the row. *)
Theorem from_concat_columns_by_label (c : FrameClass) (f1 f2 : Frame) (union : bool)
    (name : option label) (consolidate_blocks_ : bool) :
  Frame_wf f1 → Frame_wf f2 →
  let ix := array_set_ufunc_many [labels (_index f1); labels (_index f2)] union in
  let cx := labels (_columns f1) ++ labels (_columns f2) in
  (¬ NoDup cx →
   ∀ index,
     from_concat c [f1; f2] 1 union index InitNone name consolidate_blocks_
     = Raise (RuntimeError
         "Column names after horizontal concatenation are not unique; supply a columns argument."))
  ∧ (NoDup cx →
     ∃ f, from_concat c [f1; f2] 1 union InitNone InitNone name consolidate_blocks_ = Ok f
          ∧ labels (_index f) = ix ∧ labels (_columns f) = cx
          ∧ (∀ r col, r ∈ ix → col ∈ labels (_columns f1) →
               frame_at f r col = Some (default VNaN (frame_at f1 r col)))
          ∧ (∀ r col, r ∈ ix → col ∈ labels (_columns f2) →
               frame_at f r col = Some (default VNaN (frame_at f2 r col)))).
Proof.
  intros Hwf1 Hwf2 ix cx. split.
  - intros Hdup index. unfold from_concat. cbn [is_none fmap list_fmap].
    unfold concat_resolved_labels. cbn [mbind result_bind mjoin list_join].
    rewrite app_nil_r. fold cx. by rewrite unique_test, bool_decide_eq_true_2.
  - intros Hcx.
    assert (NoDup ix) as Hix by apply array_set_ufunc_many_NoDup.
    destruct (align_rows f1 ix Hwf1 Hix) as (a1 & Ha1 & Hr1 & Hw1 & Hl1 & Hat1).
    destruct (align_rows f2 ix Hwf2 Hix) as (a2 & Ha2 & Hr2 & Hw2 & Hl2 & Hat2).
    pose proof Hwf1 as (_ & _ & Hclen1 & _ & Hcn1 & _).
    pose proof Hwf2 as (_ & _ & Hclen2 & _ & Hcn2 & _).
    unfold from_concat. cbn [is_none fmap list_fmap].
    unfold concat_resolved_labels. cbn [mbind result_bind mjoin list_join].
    rewrite app_nil_r. fold cx. fold ix.
    rewrite unique_test, bool_decide_eq_false_2 by (intros H; by apply H).
    cbn [mbind result_bind]. unfold blocks_axis1.
    cbn [initializer_labels mbind result_bind]. rewrite !mapM_cons, Ha1, Ha2.
    cbn [mapM mbind result_bind mret result_ret mjoin list_join]. rewrite app_nil_r.
    set (bs := blocks (_blocks a1) ++ blocks (_blocks a2)).
    set (bs' := if consolidate_blocks_ then consolidate_blocks bs else bs).
    assert (Forall (λ b, a_rows b = length ix) bs) as Hrows.
    { apply Forall_app. by split. }
    assert (sum_list (width <$> bs) = length cx) as Hsum.
    { unfold bs, cx. rewrite fmap_app, sum_list_with_app, length_app. lia. }
    assert (Forall (λ b, a_rows b = length ix) bs'
            ∧ sum_list (width <$> bs') = length cx) as [Hrows' Hsum'].
    { unfold bs'. destruct consolidate_blocks_; [|done].
      split; [by apply consolidate_blocks_rows|by rewrite consolidate_blocks_width]. }
    destruct (from_blocks_uniform bs' _ Hrows') as (sh & -> & Hsh2 & Hsh1 & _).
    cbn [mbind result_bind].
    rewrite Frame_init_sequences;
      [|done|done|cbn [shape]; by rewrite Hsh2, Hsum'
       |cbn [shape]; intros H; by rewrite (Hsh1 H)].
    eexists. split; [done|]. cbn [_index _columns labels].
    split; [done|]. split; [done|].
    assert (tb_columns {| blocks := bs'; shape := sh |}
            = tb_columns (_blocks a1) ++ tb_columns (_blocks a2)) as Hcols.
    { transitivity (tb_columns {| blocks := bs; shape := sh |}).
      - unfold bs'. destruct consolidate_blocks_; [apply tb_columns_consolidate|done].
      - unfold bs. destruct (_blocks a1) as [b1 s1], (_blocks a2) as [b2 s2].
        apply tb_columns_app. }
    split.
    + intros r col Hr Hcol.
      apply list_elem_of_lookup in Hr as [i Hi].
      apply list_elem_of_lookup in Hcol as [j Hj].
      unfold frame_at. cbn [_index _columns _blocks].
      rewrite (position_of_lookup {| labels := ix; STATIC := true |} i r) by done.
      rewrite (position_of_app_l
                 {| labels := cx; STATIC := COLUMN_CONSTRUCTOR_STATIC c |}
                 (labels (_columns f1)) (labels (_columns f2)) col j eq_refl Hcx Hj).
      rewrite (position_of_lookup (_columns f1) j col) by done.
      cbn [mbind option_bind]. unfold cell at 1. cbn [_blocks]. rewrite Hcols.
      destruct (lookup_lt_is_Some_2 (tb_columns (_blocks a1)) j) as [cl Hcl].
      { rewrite Hl1, <- Hclen1. by eapply lookup_lt_Some. }
      rewrite (lookup_app_l_Some _ _ _ _ Hcl). cbn [mbind option_bind].
      rewrite (Hat1 j cl Hcl i r Hi).
      by destruct (position_of (_index f1) r).
    + intros r col Hr Hcol.
      apply list_elem_of_lookup in Hr as [i Hi].
      apply list_elem_of_lookup in Hcol as [j Hj].
      unfold frame_at. cbn [_index _columns _blocks].
      rewrite (position_of_lookup {| labels := ix; STATIC := true |} i r) by done.
      rewrite (position_of_app_r
                 {| labels := cx; STATIC := COLUMN_CONSTRUCTOR_STATIC c |}
                 (labels (_columns f1)) (labels (_columns f2)) col j eq_refl Hcx Hj).
      rewrite (position_of_lookup (_columns f2) j col) by done.
      cbn [mbind option_bind]. unfold cell at 1. cbn [_blocks]. rewrite Hcols.
      destruct (lookup_lt_is_Some_2 (tb_columns (_blocks a2)) j) as [cl Hcl].
      { rewrite Hl2, <- Hclen2. by eapply lookup_lt_Some. }
      rewrite lookup_app_r by (rewrite Hl1, <- Hclen1; lia).
      rewrite Hl1, <- Hclen1, Nat.add_comm, Nat.add_sub, Hcl. cbn [mbind option_bind].
      rewrite (Hat2 j cl Hcl i r Hi).
      by destruct (position_of (_index f2) r).
Qed.

Lemma frame_rs_wf : Frame_wf frame_rs.
Proof.
  unfold Frame_wf, TypeBlocks_wf. simpl.
  repeat split; try reflexivity; try compute_done; repeat constructor.
Qed.

Lemma from_concat_columns_by_label_witness :
  ∃ f, from_concat Frame_cls [frame_ab; frame_rs] 1 true InitNone InitNone None false = Ok f
       ∧ labels (_index f) = [LStr "a"; LStr "b"; LStr "c"]
       ∧ labels (_columns f) = [LStr "p"; LStr "q"; LStr "r"; LStr "s"].
Proof.
  destruct (proj2 (from_concat_columns_by_label Frame_cls frame_ab frame_rs true None false
                     frame_ab_wf frame_rs_wf) ltac:(compute_done))
    as (f & Hf & Hi & Hc & _).
  exists f. split; [exact Hf|]. split; [exact Hi|exact Hc].
Defined.

(** Rows [a] and [b] of the first frame and rows [a] and [c] of the second,
    side by side: NaN where a frame does not have the row. *)
Example from_concat_ab_rs :
  tb_columns <$> (_blocks <$> from_concat Frame_cls [frame_ab; frame_rs] 1 true
    InitNone InitNone None false)
  = Ok [[VInt 1; VInt 2; VNaN]; [VInt 3; VInt 4; VNaN];
        [VInt 1; VNaN; VInt 2]; [VInt 3; VNaN; VInt 4]].
Proof. reflexivity. Qed.

(** ** Iteration with a mapping *)

Lemma mapM_raises {A B} (f : A → result B) (l : list A) (x : A) (e : exception) :
  x ∈ l → f x = Raise e → ∃ e', mapM f l = Raise e'.
Proof.
  induction l as [|y l IH]; [by intros ?%elem_of_nil|].
  intros [->|Hx]%elem_of_cons Hf; rewrite mapM_cons.
  - rewrite Hf. by exists e.
  - destruct (f y); [|by eexists]. destruct (IH Hx Hf) as [e' ->]. by exists e'.
Qed.




Lemma mapM_type_error {A B} (f : A → result B) (l : list A) (x : A) :
  Forall (λ y, f y = Raise TypeError ∨ ∃ r, f y = Ok r) l →
  x ∈ l → f x = Raise TypeError → mapM f l = Raise TypeError.
Proof.
  induction 1 as [|y l Hy _ IH]; [by intros ?%elem_of_nil|].
  intros [->|Hx]%elem_of_cons Hf; rewrite mapM_cons.
  - by rewrite Hf.
  - destruct Hy as [->|[r ->]]; [done|]. cbn [mbind result_bind]. by rewrite IH.
Qed.

(** Over an iteration that yields items, [apply] with a mapping asks the
    mapping for the value of an item and, if the mapping contains it, calls
    [__getitem__] with the key and the value, two arguments where the method
    takes one: the call raises a TypeError.  When the mapping contains none
    of the values, every item comes back as the pair of its key and its
    value under its key.  So no result is ever taken from the mapping. *)
Theorem apply_mapping_items {C} (self : IterNodeDelegate C)
    (contains : pyobj → bool) (getitem : pyobj → result pyobj) :
  _yield_type self = ITEMS →
  ((∀ kv, kv ∈ _func_items self → contains kv.2 = false) →
   apply_iter_items self (Mapping contains getitem)
   = Ok ((λ kv, (kv.1, PTuple [kv.1; kv.2])) <$> _func_items self))
  ∧ (∀ kv, kv ∈ _func_items self → contains kv.2 = true →
       apply_iter_items self (Mapping contains getitem) = Raise TypeError).
Proof.
  intros Hyt.
  assert (yt_is_values self = false) as Hv by (unfold yt_is_values; by rewrite Hyt).
  unfold apply_iter_items. rewrite Hv. split.
  - generalize (_func_items self). induction l as [|[k v] items IH]; intros Hall; [done|].
    rewrite fmap_cons, mapM_cons, IH by (intros kv Hkv; apply Hall; by right).
    assert (contains v = false) as -> by (apply (Hall (k, v)); by left). done.
  - intros kv Hkv Hc. apply (mapM_type_error _ _ kv); [|done|].
    + apply Forall_forall. intros [k v] _. destruct (contains v); cbn [negb]; eauto.
    + destruct kv as [k v]. cbn [snd] in Hc. by rewrite Hc.
Qed.

Lemma apply_mapping_items_witness :
  apply_iter_items (two_elements ITEMS) (Mapping one_contains one_getitem)
  = Raise TypeError.
Proof.
  apply (proj2 (apply_mapping_items (two_elements ITEMS) one_contains one_getitem eq_refl)
           (PLabel (LStr "w"), PElement (VInt 1))); [by left|done].
Defined.

(** ** Reindexing onto new labels *)

(** Reindexing onto sequences of distinct labels for both axes returns a
    frame with exactly these rows and columns, in this order; a cell holds
    the value the frame has at that row label and column label when it has
    both, and the fill value otherwise. *)
Theorem reindex_by_label (g : Frame) (ls cs : list label) (fill_value : element) :
  Frame_wf g → NoDup ls → NoDup cs →
  ∃ g', reindex g (InitLabels ls) (InitLabels cs) fill_value = Ok g'
        ∧ labels (_index g') = ls ∧ labels (_columns g') = cs
        ∧ ∀ r c, r ∈ ls → c ∈ cs →
                 frame_at g' r c = Some (default fill_value (frame_at g r c)).
Proof.
  intros Hwf Hls Hcs.
  destruct (reindex_aligned g {| labels := ls; STATIC := true |}
              {| labels := cs; STATIC := COLUMN_CONSTRUCTOR_STATIC (cls g) |}
              fill_value Hwf Hls Hcs eq_refl) as (g' & Hg' & Hl & Hc & Hat).
  exists g'. split; [|done]. rewrite <- Hg'. unfold reindex.
  cbn [is_none andb negb reindex_target Index_from labels STATIC].
  by rewrite (bool_decide_eq_false_2 (_ ≠ _)) by (intros H; by apply H).
Qed.

Lemma reindex_by_label_witness :
  ∃ g', reindex frame_ab (InitLabels [LStr "b"; LStr "z"]) (InitLabels [LStr "q"]) VNaN
        = Ok g'
        ∧ labels (_index g') = [LStr "b"; LStr "z"] ∧ labels (_columns g') = [LStr "q"]
        ∧ ∀ r c, r ∈ [LStr "b"; LStr "z"] → c ∈ [LStr "q"] →
                 frame_at g' r c = Some (default VNaN (frame_at frame_ab r c)).
Proof.
  apply (reindex_by_label frame_ab [LStr "b"; LStr "z"] [LStr "q"] VNaN frame_ab_wf);
    compute_done.
Defined.

(** ** Export as pairs *)

Lemma elem_of_zip_lookup {A B} (ks : list A) (vs : list B) (k : A) (v : B) :
  (k, v) ∈ zip ks vs ↔ ∃ i, ks !! i = Some k ∧ vs !! i = Some v.
Proof.
  rewrite list_elem_of_lookup. split.
  - intros [i Hi]. exists i. apply lookup_zip_with_Some in Hi as (x & y & [= -> ->] & ? & ?).
    done.
  - intros (i & Hk & Hv). exists i. apply lookup_zip_with_Some. eauto.
Qed.

Lemma frame_at_lookup (self : Frame) (r c : label) (v : element) :
  Frame_wf self →
  frame_at self r c = Some v
  ↔ ∃ i j, labels (_index self) !! i = Some r ∧ labels (_columns self) !! j = Some c
           ∧ cell (_blocks self) i j = Some v.
Proof.
  intros (_ & _ & _ & Hrn & Hcn & _). unfold frame_at. split.
  - destruct (position_of (_index self) r) as [i|] eqn:Hi; [|done].
    destruct (position_of (_columns self) c) as [j|] eqn:Hj; [|done].
    simpl. intros Hv. exists i, j. eauto using position_of_Some.
  - intros (i & j & Hi & Hj & Hv).
    by rewrite (position_of_lookup _ i r), (position_of_lookup _ j c).
Qed.

Lemma pairs_lookup (major minor : list label) (vs : list (list element))
    (a b : label) (x : element) :
  (∃ ps, (a, ps) ∈ zip major ((λ v, zip minor v) <$> vs) ∧ (b, x) ∈ ps)
  ↔ ∃ i j, major !! i = Some a ∧ minor !! j = Some b ∧ (vs !! i ≫= (.!! j)) = Some x.
Proof.
  split.
  - intros (ps & (i & Ha & Hps)%elem_of_zip_lookup & Hb).
    rewrite list_lookup_fmap in Hps. destruct (vs !! i) as [v|] eqn:Hv; [|done].
    injection Hps as <-. apply elem_of_zip_lookup in Hb as (j & Hb & Hx).
    exists i, j. by rewrite Hv.
  - intros (i & j & Ha & Hb & Hx). destruct (vs !! i) as [v|] eqn:Hv; [|done].
    exists (zip minor v). split; apply elem_of_zip_lookup; [|by eauto].
    exists i. by rewrite list_lookup_fmap, Hv.
Qed.

(** [to_pairs] exports every element of a frame once under its two labels.
    Given that the store yields its columns along axis 0 and its rows along
    axis 1: for axis 0 an element is at a row and a column label exactly
    when the pairs hold it under the column label and, there, under the row
    label; for axis 1 the row label comes first.  Any other axis raises
    NotImplementedError, whatever the store does. *)
Theorem to_pairs_by_label
    (axis_values : TypeBlocks → Z → result (list (list element)))
    (self : Frame) (rows : list (list element)) :
  Frame_wf self →
  axis_values (_blocks self) 0%Z = Ok (tb_columns (_blocks self)) →
  axis_values (_blocks self) 1%Z = Ok rows →
  (∀ i j, rows !! i ≫= (.!! j) = cell (_blocks self) i j) →
  (∃ p0, to_pairs axis_values self 0 = Ok p0
         ∧ p0.*1 = labels (_columns self)
         ∧ ∀ r c v, frame_at self r c = Some v
                    ↔ ∃ ps, (c, ps) ∈ p0 ∧ (r, v) ∈ ps)
  ∧ (∃ p1, to_pairs axis_values self 1 = Ok p1
           ∧ ∀ r c v, frame_at self r c = Some v
                      ↔ ∃ ps, (r, ps) ∈ p1 ∧ (c, v) ∈ ps)
  ∧ ∀ axis, axis ≠ 0%Z → axis ≠ 1%Z →
            to_pairs axis_values self axis = Raise (NotImplementedError EmptyString).
Proof.
  intros Hwf H0 H1 Hrows. split; [|split].
  - unfold to_pairs. rewrite decide_False, decide_True by done.
    cbn [mbind result_bind]. rewrite H0. cbn [mbind result_bind].
    eexists. split; [done|]. split.
    + apply fst_zip. rewrite length_fmap.
      destruct Hwf as ([_ Hw] & _ & Hc & _). rewrite Hc, <- Hw.
      destruct (_blocks self) as [bs sh]. by rewrite tb_columns_length.
    + intros r c v. rewrite pairs_lookup, (frame_at_lookup _ _ _ _ Hwf).
      unfold cell. split; intros (i & j & ? & ? & Hv); exists j, i; split_and!; try done.
  - unfold to_pairs. rewrite decide_True by done.
    cbn [mbind result_bind]. rewrite H1. cbn [mbind result_bind].
    eexists. split; [done|].
    intros r c v. rewrite pairs_lookup, (frame_at_lookup _ _ _ _ Hwf).
    split; intros (i & j & ? & ? & Hv); exists i, j; split_and!; try done.
    + by rewrite Hrows.
    + by rewrite <- Hrows.
  - intros axis Hn0 Hn1. unfold to_pairs. by rewrite !decide_False by done.
Qed.

Lemma to_pairs_by_label_witness :
  (∃ p0, to_pairs columns_or_rows frame_ab 0 = Ok p0
         ∧ p0.*1 = labels (_columns frame_ab)
         ∧ ∀ r c v, frame_at frame_ab r c = Some v
                    ↔ ∃ ps, (c, ps) ∈ p0 ∧ (r, v) ∈ ps)
  ∧ (∃ p1, to_pairs columns_or_rows frame_ab 1 = Ok p1
           ∧ ∀ r c v, frame_at frame_ab r c = Some v
                      ↔ ∃ ps, (r, ps) ∈ p1 ∧ (c, v) ∈ ps)
  ∧ ∀ axis, axis ≠ 0%Z → axis ≠ 1%Z →
            to_pairs columns_or_rows frame_ab axis = Raise (NotImplementedError EmptyString).
Proof.
  apply (to_pairs_by_label columns_or_rows frame_ab
           [[VInt 1; VInt 3]; [VInt 2; VInt 4]] frame_ab_wf); [reflexivity|reflexivity|].
  by intros [|[|i]] [|[|j]].
Defined.

(** ** Selection keeps the values under their labels *)

Lemma take_rows_lookup (n : nat) (rk : GetItemKeyType) (rows : list nat)
    (col out : list element) (i p : nat) :
  select n rk = Ok rows → take_rows rk rows col = Ok out →
  rows !! i = Some p → out !! i = col !! p.
Proof.
  intros Hrows. unfold take_rows. destruct (key_is_none rk) eqn:E.
  - destruct rk; try done. injection Hrows as <-. intros [= <-] Hp.
    apply lookup_seq in Hp as [-> _]. done.
  - intros Hout Hp. destruct (mapM_Ok_lookup _ _ _ _ _ Hout Hp) as (y & -> & Hy).
    by destruct (col !! p); [injection Hy as ->|].
Qed.

Lemma block_rows_columns (rk : GetItemKeyType) (rows : list nat) (b b' : ndarray) :
  block_rows rk rows b = Ok b' →
  Forall2 (λ col out, take_rows rk rows col = Ok out) (a_columns b) (a_columns b').
Proof.
  unfold block_rows. destruct (key_is_none rk) eqn:E.
  - intros [= <-]. apply Forall_Forall2_diag, Forall_forall. intros col _.
    unfold take_rows. by rewrite E.
  - intros H. apply bind_Ok in H as (cs & Hcs & [= <-]). by apply mapM_Ok_Forall2.
Qed.

Lemma blocks_rows_columns (rk : GetItemKeyType) (rows : list nat) (bs bs' : list ndarray)
    (sh sh' : nat * nat) :
  mapM (block_rows rk rows) bs = Ok bs' →
  Forall2 (λ col out, take_rows rk rows col = Ok out)
    (tb_columns {| blocks := bs; shape := sh |})
    (tb_columns {| blocks := bs'; shape := sh' |}).
Proof.
  intros H. apply mapM_Ok_Forall2 in H.
  induction H as [|b b' bs bs' Hb _ IH]; [constructor|].
  rewrite !tb_columns_cons. apply Forall2_app; [by apply block_rows_columns|done].
Qed.

Lemma columns_of_positions (tb : TypeBlocks) (rk : GetItemKeyType) (rows cols : list nat)
    (bs : list ndarray) (sh : nat * nat) :
  mapM (block_of_column tb rk rows) cols = Ok bs →
  Forall2 (λ c out, ∃ col, tb_columns tb !! c = Some col ∧ take_rows rk rows col = Ok out)
    cols (tb_columns {| blocks := bs; shape := sh |}).
Proof.
  intros H. apply mapM_Ok_Forall2 in H.
  induction H as [|c b cols bs Hb _ IH]; [constructor|].
  rewrite tb_columns_cons. unfold block_of_column in Hb.
  apply bind_Ok in Hb as (tc & Htc & Hb). apply bind_Ok in Hb as (out & Hout & [= <-]).
  cbn [a_columns app]. constructor; [|done]. exists tc.2. split; [|done].
  unfold tb_columns. rewrite list_lookup_fmap.
  by destruct (typed_columns tb !! c); [injection Htc as ->|].
Qed.

(** The store of a selection has, at the place of a selected row and a
    selected column, the element of the store at that row and column. *)
Lemma extract_blocks_cells (tb b : TypeBlocks) (rk ck : GetItemKeyType)
    (rows cols : list nat) :
  select (shape tb).1 rk = Ok rows → select (shape tb).2 ck = Ok cols →
  extract_blocks tb rk ck rows cols = Ok (Blocks b) →
  ∀ i j p q, rows !! i = Some p → cols !! j = Some q → cell b i j = cell tb p q.
Proof.
  intros Hrows Hcols Hb i j p q Hp Hq. unfold extract_blocks in Hb.
  apply bind_Ok in Hb as (bs & Hbs & [= <-]). unfold cell.
  destruct (key_is_none ck) eqn:E.
  - destruct ck; try done. injection Hcols as <-. apply lookup_seq in Hq as [-> _].
    destruct tb as [tbs sh]. cbn [blocks] in Hbs.
    pose proof (blocks_rows_columns rk rows tbs bs sh
                  (length rows, length (seq 0 sh.2)) Hbs) as Hall.
    simpl. destruct (tb_columns {| blocks := tbs; shape := sh |} !! j) as [col|] eqn:Hcol.
    + destruct (Forall2_lookup_l _ _ _ j col Hall Hcol) as (out & -> & Hout). simpl.
      by apply (take_rows_lookup sh.1 rk rows).
    + destruct (tb_columns {| blocks := bs; shape := _ |} !! j) as [out|] eqn:Hout;
        [|done].
      destruct (Forall2_lookup_r _ _ _ j out Hall Hout) as (col & Hc & _).
      congruence.
  - destruct (Forall2_lookup_l _ _ _ j q
                (columns_of_positions tb rk rows cols bs (length rows, length cols) Hbs) Hq)
      as (out & -> & col & -> & Hout).
    simpl. by apply (take_rows_lookup (shape tb).1 rk rows).
Qed.

Lemma labels_at_lookup (ls out : list label) (ps : list nat) (i : nat) (l : label) :
  labels_at ls ps = Ok out → out !! i = Some l →
  ∃ p, ps !! i = Some p ∧ ls !! p = Some l.
Proof.
  intros H Hl. unfold labels_at in H.
  destruct (ps !! i) as [p|] eqn:Hp.
  - destruct (mapM_Ok_lookup _ _ _ _ _ H Hp) as (y & Hy & Hlp).
    exists p. split; [done|]. rewrite Hl in Hy. injection Hy as <-.
    by destruct (ls !! p); [injection Hlp as ->|].
  - apply mapM_result_length in H. apply lookup_ge_None in Hp.
    apply lookup_lt_Some in Hl. lia.
Qed.

(** [_extract] with two keys that are not integers returns a Frame over
    the selected rows and columns that has the value of the frame at every
    selected pair of labels. *)
Lemma extract_selected_values (f : Frame) (rk ck : GetItemKeyType) (rl cl : list label) :
  Frame_wf f →
  selected_labels (_index f) rk = Ok rl →
  selected_labels (_columns f) ck = Ok cl →
  NoDup rl → NoDup cl →
  (∀ i, rk ≠ KInt i) → (∀ j, ck ≠ KInt j) →
  ∃ f', _extract f rk ck = Ok (RFrame f')
        ∧ labels (_index f') = rl ∧ labels (_columns f') = cl
        ∧ _name f' = _name f ∧ cls f' = cls f
        ∧ ∀ r c, r ∈ rl → c ∈ cl → frame_at f' r c = frame_at f r c.
Proof.
  intros Hf Hrl Hcl Hrnd Hcnd Hrk Hck.
  pose proof Hf as (Hwf & Hrlen & Hclen & Hrn & Hcn & Hrs & Hcs).
  destruct (selected_positions _ _ _ Hrl) as (rows & Hrows & Hrb & Hrll).
  destruct (selected_positions _ _ _ Hcl) as (cols & Hcols & Hcb & Hcll).
  assert (labels_at (labels (_index f)) rows = Ok rl) as Hrat.
  { unfold selected_labels in Hrl. by rewrite Hrows in Hrl. }
  assert (labels_at (labels (_columns f)) cols = Ok cl) as Hcat.
  { unfold selected_labels in Hcl. by rewrite Hcols in Hcl. }
  rewrite Hrlen in Hrows, Hrb. rewrite Hclen in Hcols, Hcb.
  destruct (extract_blocks_Ok (_blocks f) rk ck rows cols Hwf Hrows Hcols Hrb Hcb)
    as (b & Hb & Hshape & _).
  edestruct (collapse_frame f b rl cl (length rows) (length cols) Hshape)
    as (f' & Hf' & Hl & Hc & Hbf & Hnm & Hcls); [done..|].
  exists f'. split.
  { rewrite <- Hf'. unfold _extract, TypeBlocks_extract. rewrite Hrows, Hcols.
    cbn [mbind result_bind].
    assert (match rk, ck with
            | KInt _, KInt _ =>
                v ← or_raise IndexError (r ← head rows; c ← head cols; cell (_blocks f) r c);
                Ok (Element v)
            | _, _ => extract_blocks (_blocks f) rk ck rows cols
            end = Ok (Blocks b)) as ->.
    { destruct rk; try done. by destruct (Hrk i). }
    cbn [mbind result_bind].
    rewrite (axis_index_multi _ _ _ Hrl Hrnd Hrk), (axis_index_multi _ _ _ Hcl Hcnd Hck).
    cbn [mbind result_bind]. rewrite Hrs.
    assert (_extract_axis_not_multi rk ck = (false, false)) as ->; [|done].
    destruct rk; try (by destruct (Hrk i)); destruct ck; try done;
      by destruct (Hck i). }
  split; [done|]. split; [done|]. split; [done|]. split; [done|].
  intros r c [i Hi]%list_elem_of_lookup [j Hj]%list_elem_of_lookup.
  destruct (labels_at_lookup _ _ _ _ _ Hrat Hi) as (p & Hp & Hlp).
  destruct (labels_at_lookup _ _ _ _ _ Hcat Hj) as (q & Hq & Hlq).
  unfold frame_at.
  rewrite (position_of_lookup (_index f') i r), (position_of_lookup (_columns f') j c),
    (position_of_lookup (_index f) p r), (position_of_lookup (_columns f) q c)
    by (rewrite ?Hl, ?Hc; done).
  cbn [mbind option_bind]. rewrite Hbf.
  by apply (extract_blocks_cells (_blocks f) b rk ck rows cols).
Qed.

(** A selection by position ([iloc]) with a row key and a column key that
    are not integers returns a Frame over the selected rows and columns in
    which every selected row label and column label lead to the value they
    lead to in the frame: the values follow their labels, whatever the order
    and the number of the selected positions.  With a row key alone all the
    columns are kept.  The name and the class are those of the frame. *)
Theorem iloc_keeps_values (f : Frame) (rk ck : GetItemKeyType) (rl cl : list label) :
  Frame_wf f →
  selected_labels (_index f) rk = Ok rl →
  selected_labels (_columns f) ck = Ok cl →
  NoDup rl → NoDup cl →
  (∀ i, rk ≠ KInt i) → (∀ j, ck ≠ KInt j) →
  (∃ f', _extract_iloc f (Tuple [rk; ck]) = Ok (RFrame f')
         ∧ labels (_index f') = rl ∧ labels (_columns f') = cl
         ∧ _name f' = _name f ∧ cls f' = cls f
         ∧ ∀ r c, r ∈ rl → c ∈ cl → frame_at f' r c = frame_at f r c)
  ∧ (∃ g, _extract_iloc f (One rk) = Ok (RFrame g)
          ∧ labels (_index g) = rl ∧ labels (_columns g) = labels (_columns f)
          ∧ _name g = _name f ∧ cls g = cls f
          ∧ ∀ r c, r ∈ rl → frame_at g r c = frame_at f r c).
Proof.
  intros Hwf Hrl Hcl Hrnd Hcnd Hrk Hck. split.
  - exact (extract_selected_values f rk ck rl cl Hwf Hrl Hcl Hrnd Hcnd Hrk Hck).
  - pose proof Hwf as (_ & _ & _ & _ & Hcn & _).
    destruct (extract_selected_values f rk KNone rl (labels (_columns f)) Hwf Hrl
                (selected_labels_null _ _ (or_introl eq_refl)) Hrnd Hcn Hrk)
      as (g & Hg & Hl & Hc & Hnm & Hcls & Hat); [done|].
    exists g. split; [exact Hg|]. split; [done|]. split; [done|]. split; [done|].
    split; [done|]. intros r c Hr.
    destruct (decide (c ∈ labels (_columns f))) as [Hin|Hout]; [by apply Hat|].
    unfold frame_at. rewrite (position_of_None (_columns g)) by (by rewrite Hc).
    rewrite (position_of_None (_columns f)) by done.
    by destruct (position_of (_index g) r), (position_of (_index f) r).
Qed.

Lemma iloc_keeps_values_witness :
  ∃ f', _extract_iloc frame_3x3 (Tuple [KList [2; 0]%Z; KSlice (Some 1%Z) None None])
        = Ok (RFrame f')
        ∧ labels (_index f') = [LStr "y"; LStr "w"]
        ∧ labels (_columns f') = [LStr "q"; LStr "r"]
        ∧ _name f' = _name frame_3x3 ∧ cls f' = cls frame_3x3
        ∧ ∀ r c, r ∈ [LStr "y"; LStr "w"] → c ∈ [LStr "q"; LStr "r"] →
                 frame_at f' r c = frame_at frame_3x3 r c.
Proof.
  apply (iloc_keeps_values frame_3x3 (KList [2; 0]%Z) (KSlice (Some 1%Z) None None)
           [LStr "y"; LStr "w"] [LStr "q"; LStr "r"] frame_3x3_wf);
    [reflexivity|reflexivity|compute_done|compute_done|done|done].
Defined.

(** ** Sorting by the labels *)

Lemma labels_at_fmap (ls out : list label) (ps : list nat) :
  labels_at ls ps = Ok out → out = (λ p, default (LInt 0) (ls !! p)) <$> ps.
Proof.
  unfold labels_at. intros H. apply mapM_Ok_Forall2 in H.
  induction H as [|p l ps out Hp _ IH]; [done|].
  rewrite fmap_cons, <- IH. f_equal. by destruct (ls !! p); [injection Hp as ->|].
Qed.

Lemma labels_at_Permutation (ls out : list label) (ps : list nat) :
  labels_at ls ps = Ok out → ps ≡ₚ seq 0 (length ls) → out ≡ₚ ls.
Proof.
  intros Hout Hps. rewrite (labels_at_fmap _ _ _ Hout), Hps.
  by rewrite <- (labels_at_fmap _ _ _ (labels_at_seq ls)).
Qed.

Lemma labels_at_Ok (ls : list label) (ps : list nat) :
  Forall (λ p, p < length ls) ps → ∃ out, labels_at ls ps = Ok out.
Proof.
  intros H. apply mapM_is_Ok. eapply Forall_impl; [exact H|].
  intros p Hp. simpl. destruct (lookup_lt_is_Some_2 ls p Hp) as [l ->]. by exists l.
Qed.

(** The constructor on an owned store, a sequence of row labels and the
    column index of a frame. *)
Lemma Frame_init_row_labels c tb (ix : list label) (cx : IndexBase) name :
  NoDup ix → NoDup (labels cx) →
  length (labels cx) = (shape tb).2 → length ix = (shape tb).1 →
  Frame_init c (DataBlocks tb) (InitLabels ix) (InitIndex cx) name true false false
  = Ok {| cls := c; _blocks := tb;
          _columns := if STATIC cx && COLUMN_CONSTRUCTOR_STATIC c then cx
                      else {| labels := labels cx; STATIC := COLUMN_CONSTRUCTOR_STATIC c |};
          _index := {| labels := ix; STATIC := true |};
          _name := name |}.
Proof.
  intros Hix Hcx Hc Hr. unfold Frame_init. cbn [mbind result_bind].
  rewrite (assign_index_object _ _ _ cx (shape tb).2 Hcx Hc).
  cbn [mbind result_bind orb]. rewrite (assign_index_labels _ _ ix (shape tb).1 Hix).
  2: { intros ->. by rewrite <- Hr. }
  cbn [mbind result_bind default]. apply size_checks_Ok.
  split; [done|]. split; [|done]. by destruct (STATIC cx && _).
Qed.

(** The constructor on an owned store, the row index of a frame and a
    sequence of column labels. *)
Lemma Frame_init_column_labels c tb (ix : IndexBase) (cx : list label) name :
  NoDup (labels ix) → NoDup cx → STATIC ix = true →
  length cx = (shape tb).2 → length (labels ix) = (shape tb).1 →
  Frame_init c (DataBlocks tb) (InitIndex ix) (InitLabels cx) name true false false
  = Ok {| cls := c; _blocks := tb;
          _columns := {| labels := cx; STATIC := COLUMN_CONSTRUCTOR_STATIC c |};
          _index := ix; _name := name |}.
Proof.
  intros Hix Hcx Hs Hc Hr. unfold Frame_init. cbn [mbind result_bind].
  rewrite (assign_index_labels _ _ cx (shape tb).2 Hcx).
  2: { intros ->. by rewrite <- Hc. }
  cbn [mbind result_bind]. rewrite (assign_index_object _ _ _ ix (shape tb).1 Hix Hr).
  rewrite Hs. cbn [mbind result_bind default orb andb]. by apply size_checks_Ok.
Qed.

(** [sort_index] moves the rows, never the values off their labels.  For
    any order that [np_argsort] returns as a permutation of the positions,
    and a store that brings its rows into a given order: the row labels of
    the result are those of the frame in that order (reversed when
    descending), the columns, the name and the class are kept, and every
    pair of labels leads to the value it leads to in the frame. *)
Theorem sort_index_keeps_values
    (np_argsort : list label → result (list nat))
    (TypeBlocks_iloc_rows : TypeBlocks → list nat → result TypeBlocks)
    (self : Frame) (ascending : bool) (order : list nat) (tb' : TypeBlocks) :
  Frame_wf self →
  np_argsort (labels (_index self)) = Ok order →
  order ≡ₚ seq 0 (length (labels (_index self))) →
  let o := if ascending then order else reverse order in
  TypeBlocks_iloc_rows (_blocks self) o = Ok tb' →
  TypeBlocks_wf tb' → shape tb' = shape (_blocks self) →
  (∀ i p j, o !! i = Some p → cell tb' i j = cell (_blocks self) p j) →
  ∃ f, sort_index np_argsort TypeBlocks_iloc_rows self ascending = Ok f
       ∧ labels_at (labels (_index self)) o = Ok (labels (_index f))
       ∧ labels (_index f) ≡ₚ labels (_index self)
       ∧ labels (_columns f) = labels (_columns self)
       ∧ _name f = _name self ∧ cls f = cls self
       ∧ Frame_wf f
       ∧ ∀ r c, frame_at f r c = frame_at self r c.
Proof.
  intros Hwf Harg Hperm o Hiloc Hwf' Hshape Hcells.
  pose proof Hwf as (Htb & Hrlen & Hclen & Hrn & Hcn & Hrs & Hcs).
  assert (o ≡ₚ seq 0 (length (labels (_index self)))) as Ho.
  { unfold o. destruct ascending; [done|]. by rewrite reverse_Permutation. }
  destruct (labels_at_Ok (labels (_index self)) o) as [iv Hiv].
  { apply Forall_forall. intros p Hp. rewrite Ho in Hp. apply elem_of_seq in Hp. lia. }
  pose proof (labels_at_Permutation _ _ _ Hiv Ho) as Hivp.
  assert (NoDup iv) as Hivn by (by rewrite Hivp).
  unfold sort_index. rewrite Harg. cbn [mbind result_bind].
  replace (if negb ascending then reverse order else order) with o
    by (by destruct ascending).
  rewrite Hiv. cbn [mbind result_bind]. rewrite Hiloc. cbn [mbind result_bind].
  rewrite Frame_init_row_labels; [|done|done|by rewrite Hshape|].
  2: { by rewrite Hshape, <- Hrlen, Hivp. }
  eexists. split; [done|]. cbn [_index _columns _name cls _blocks labels].
  split; [done|]. split; [done|].
  split; [by destruct (STATIC _ && _)|]. split; [done|]. split; [done|]. split.
  - unfold Frame_wf. cbn [_index _columns _name cls _blocks labels STATIC].
    split_and!; try done.
    + by rewrite Hshape, <- Hrlen, Hivp.
    + destruct (STATIC _ && _); cbn [labels]; by rewrite Hshape.
    + by destruct (STATIC _ && _).
    + destruct (STATIC (_columns self) && _) eqn:E; [|done].
      by apply andb_prop in E as [-> ->].
  - intros r c. unfold frame_at. cbn [_index _columns _blocks].
    assert (position_of (if STATIC (_columns self) && COLUMN_CONSTRUCTOR_STATIC (cls self)
                         then _columns self
                         else {| labels := labels (_columns self);
                                 STATIC := COLUMN_CONSTRUCTOR_STATIC (cls self) |}) c
            = position_of (_columns self) c) as ->.
    { by destruct (STATIC _ && _). }
    destruct (decide (r ∈ iv)) as [Hr|Hr].
    + apply list_elem_of_lookup in Hr as [i Hi].
      destruct (labels_at_lookup _ _ _ _ _ Hiv Hi) as (p & Hp & Hlp).
      rewrite (position_of_lookup {| labels := iv; STATIC := true |} i r),
        (position_of_lookup (_index self) p r) by done.
      cbn [mbind option_bind]. destruct (position_of (_columns self) c) as [j|]; [|done].
      cbn [mbind option_bind]. by apply Hcells.
    + rewrite (position_of_None {| labels := iv; STATIC := true |}) by done.
      rewrite (position_of_None (_index self)); [done|]. by rewrite <- Hivp.
Qed.

Lemma frame_ba_wf : Frame_wf frame_ba.
Proof.
  unfold Frame_wf, TypeBlocks_wf. simpl.
  repeat split; try reflexivity; try compute_done; repeat constructor.
Qed.

Lemma sort_index_keeps_values_witness :
  ∃ f, sort_index argsort_labels rows_at frame_ba true = Ok f
       ∧ labels (_index f) = [LStr "a"; LStr "b"]
       ∧ ∀ r c, frame_at f r c = frame_at frame_ba r c.
Proof.
  destruct (sort_index_keeps_values argsort_labels rows_at frame_ba true [1; 0]
              {| blocks := [{| a_dtype := DInt; a_ndim := 2; a_rows := 2;
                               a_columns := [[VInt 2; VInt 1]; [VInt 4; VInt 3]] |}];
                 shape := (2, 2) |} frame_ba_wf eq_refl)
    as (f & Hf & Hl & _ & _ & _ & _ & _ & Hat).
  - apply perm_swap.
  - reflexivity.
  - unfold TypeBlocks_wf. simpl.
    repeat split; try reflexivity; repeat constructor.
  - reflexivity.
  - by intros [|[|i]] p [|[|j]] [= <-].
  - exists f. split; [exact Hf|]. split; [|exact Hat].
    change (Ok [LStr "a"; LStr "b"] = Ok (labels (_index f))) in Hl.
    by injection Hl as <-.
Defined.

(** [sort_columns] moves the columns, never the values off their labels:
    for any order that [np_argsort] returns as a permutation of the
    positions, and a store that brings its columns into a given order, the
    column labels of the result are those of the frame in that order
    (reversed when descending), the row index, the name and the class are
    kept, and every pair of labels leads to the value it leads to in the
    frame. *)
Theorem sort_columns_keeps_values
    (np_argsort : list label → result (list nat))
    (TypeBlocks_getitem_columns : TypeBlocks → list nat → result TypeBlocks)
    (self : Frame) (ascending : bool) (order : list nat) (tb' : TypeBlocks) :
  Frame_wf self →
  np_argsort (labels (_columns self)) = Ok order →
  order ≡ₚ seq 0 (length (labels (_columns self))) →
  let o := if ascending then order else reverse order in
  TypeBlocks_getitem_columns (_blocks self) o = Ok tb' →
  TypeBlocks_wf tb' → shape tb' = shape (_blocks self) →
  (∀ i j q, o !! j = Some q → cell tb' i j = cell (_blocks self) i q) →
  ∃ f, sort_columns np_argsort TypeBlocks_getitem_columns self ascending = Ok f
       ∧ labels_at (labels (_columns self)) o = Ok (labels (_columns f))
       ∧ labels (_columns f) ≡ₚ labels (_columns self)
       ∧ _index f = _index self
       ∧ _name f = _name self ∧ cls f = cls self
       ∧ Frame_wf f
       ∧ ∀ r c, frame_at f r c = frame_at self r c.
Proof.
  intros Hwf Harg Hperm o Hget Hwf' Hshape Hcells.
  pose proof Hwf as (Htb & Hrlen & Hclen & Hrn & Hcn & Hrs & Hcs).
  assert (o ≡ₚ seq 0 (length (labels (_columns self)))) as Ho.
  { unfold o. destruct ascending; [done|]. by rewrite reverse_Permutation. }
  destruct (labels_at_Ok (labels (_columns self)) o) as [cv Hcv].
  { apply Forall_forall. intros p Hp. rewrite Ho in Hp. apply elem_of_seq in Hp. lia. }
  pose proof (labels_at_Permutation _ _ _ Hcv Ho) as Hcvp.
  assert (NoDup cv) as Hcvn by (by rewrite Hcvp).
  unfold sort_columns. rewrite Harg. cbn [mbind result_bind].
  replace (if negb ascending then reverse order else order) with o
    by (by destruct ascending).
  rewrite Hcv. cbn [mbind result_bind]. rewrite Hget. cbn [mbind result_bind].
  rewrite Frame_init_column_labels; [|done|done|done| |by rewrite Hshape].
  2: { by rewrite Hshape, <- Hclen, Hcvp. }
  eexists. split; [done|]. cbn [_index _columns _name cls _blocks labels].
  split; [done|]. split; [done|]. split; [done|]. split; [done|]. split; [done|]. split.
  - unfold Frame_wf. cbn [_index _columns _name cls _blocks labels STATIC].
    split_and!; try done.
    + by rewrite Hshape.
    + by rewrite Hshape, <- Hclen, Hcvp.
  - intros r c. unfold frame_at. cbn [_index _columns _blocks].
    destruct (position_of (_index self) r) as [i|]; [|done]. cbn [mbind option_bind].
    destruct (decide (c ∈ cv)) as [Hc|Hc].
    + apply list_elem_of_lookup in Hc as [j Hj].
      destruct (labels_at_lookup _ _ _ _ _ Hcv Hj) as (q & Hq & Hlq).
      rewrite (position_of_lookup {| labels := cv; STATIC := _ |} j c),
        (position_of_lookup (_columns self) q c) by done.
      cbn [mbind option_bind]. by apply Hcells.
    + rewrite (position_of_None {| labels := cv; STATIC := _ |}) by done.
      rewrite (position_of_None (_columns self)); [done|]. by rewrite <- Hcvp.
Qed.

Lemma sort_columns_keeps_values_witness :
  ∃ f, sort_columns argsort_labels columns_at frame_ab false = Ok f
       ∧ labels (_columns f) = [LStr "q"; LStr "p"]
       ∧ ∀ r c, frame_at f r c = frame_at frame_ab r c.
Proof.
  destruct (sort_columns_keeps_values argsort_labels columns_at frame_ab false [0; 1]
              {| blocks := [{| a_dtype := DInt; a_ndim := 1; a_rows := 2;
                               a_columns := [[VInt 3; VInt 4]] |};
                            {| a_dtype := DInt; a_ndim := 1; a_rows := 2;
                               a_columns := [[VInt 1; VInt 2]] |}];
                 shape := (2, 2) |} frame_ab_wf eq_refl)
    as (f & Hf & Hl & _ & _ & _ & _ & _ & Hat).
  - reflexivity.
  - reflexivity.
  - unfold TypeBlocks_wf. simpl.
    repeat split; try reflexivity; repeat constructor.
  - reflexivity.
  - by intros [|[|i]] [|[|j]] q [= <-].
  - exists f. split; [exact Hf|]. split; [|exact Hat].
    change (Ok [LStr "q"; LStr "p"] = Ok (labels (_columns f))) in Hl.
    by injection Hl as <-.
Defined.

(** ** Selection by lists of labels *)

Lemma position_of_elem (ix : IndexBase) (l : label) :
  l ∈ labels ix → ∃ p, position_of ix l = Some p ∧ labels ix !! p = Some l.
Proof.
  intros Hl. destruct (position_of ix l) as [p|] eqn:Hp.
  - exists p. split; [done|]. by apply position_of_Some.
  - unfold position_of in Hp.
    destruct (list_find_elem_of (λ x, x = l) (labels ix) l Hl eq_refl) as [[i x] Hx].
    by rewrite Hx in Hp.
Qed.

(** A list of labels of an index is translated into the list of their
    positions, which selects these labels in the order of the list. *)
Lemma loc_list_selects (ix : IndexBase) (ls : list label) :
  Forall (λ l, l ∈ labels ix) ls →
  ∃ ps, loc_to_iloc ix (LocList ls) = Ok (KList (Z.of_nat <$> ps))
        ∧ selected_labels ix (KList (Z.of_nat <$> ps)) = Ok ls.
Proof.
  intros Hall.
  assert (∃ ps, mapM (label_position ix) ls = Ok ps
                ∧ mapM (norm_pos (length (labels ix))) (Z.of_nat <$> ps) = Ok ps
                ∧ labels_at (labels ix) ps = Ok ls) as (ps & Hps & Hsel & Hat).
  { induction Hall as [|l ls Hl _ (ps & Hps & Hsel & Hat)]; [by exists []|].
    destruct (position_of_elem ix l Hl) as (p & Hp & Hlp).
    exists (p :: ps). rewrite fmap_cons. unfold labels_at. rewrite !mapM_cons.
    unfold labels_at in Hat. rewrite Hps, Hsel, Hat, Hlp.
    unfold label_position. rewrite Hp. cbn [or_raise mbind result_bind].
    split; [done|]. split; [|done].
    unfold norm_pos. rewrite decide_True; [by rewrite Nat2Z.id|].
    apply lookup_lt_Some in Hlp. lia. }
  exists ps. unfold loc_to_iloc, selected_labels, select.
  rewrite Hps, Hsel. cbn [mbind result_bind]. done.
Qed.

(** A selection by label with a list of row labels and a list of column
    labels, all of them labels of the frame and none repeated, returns a
    Frame with exactly these rows and columns in the order of the lists, in
    which every pair of labels leads to the value it leads to in the frame.
    Subscription with a list of column labels does the same over all the
    rows.  A label that is missing from its axis makes the selection
    raise. *)
Theorem loc_lists_keep_values (f : Frame) (rs cs : list label) :
  Frame_wf f → NoDup rs → NoDup cs →
  (Forall (λ r, r ∈ labels (_index f)) rs → Forall (λ c, c ∈ labels (_columns f)) cs →
   (∃ f', _extract_loc f (Tuple [LocList rs; LocList cs]) = Ok (RFrame f')
          ∧ labels (_index f') = rs ∧ labels (_columns f') = cs
          ∧ ∀ r c, r ∈ rs → c ∈ cs → frame_at f' r c = frame_at f r c)
   ∧ (∃ g, __getitem__ f (One (LocList cs)) = Ok (RFrame g)
           ∧ labels (_index g) = labels (_index f) ∧ labels (_columns g) = cs
           ∧ ∀ r c, r ∈ labels (_index f) → c ∈ cs → frame_at g r c = frame_at f r c))
  ∧ (∀ c, c ∈ cs → c ∉ labels (_columns f) →
       (∃ e, _extract_loc f (Tuple [LocList rs; LocList cs]) = Raise e)
       ∧ ∃ e, __getitem__ f (One (LocList cs)) = Raise e).
Proof.
  intros Hwf Hrs Hcs. split.
  - intros Hrall Hcall.
    destruct (loc_list_selects _ _ Hrall) as (rp & Hrp & Hrsel).
    destruct (loc_list_selects _ _ Hcall) as (cp & Hcp & Hcsel).
    split.
    + destruct (extract_selected_values f _ _ rs cs Hwf Hrsel Hcsel Hrs Hcs)
        as (f' & Hf' & Hl & Hc & _ & _ & Hat); [done..|].
      exists f'. split; [|done]. unfold _extract_loc, _compound_loc_to_iloc.
      rewrite Hcp. cbn [mbind result_bind]. rewrite Hrp. done.
    + pose proof Hwf as (_ & _ & _ & Hrn & _).
      destruct (extract_selected_values f KNone _ (labels (_index f)) cs Hwf
                  (selected_labels_null _ _ (or_introl eq_refl)) Hcsel Hrn Hcs)
        as (g & Hg & Hl & Hc & _ & _ & Hat); [done..|].
      exists g. split; [|done]. unfold __getitem__, _compound_loc_to_getitem_iloc.
      rewrite Hcp. done.
  - intros c Hc Hnot.
    destruct (mapM_raises (label_position (_columns f)) cs c (KeyError "label not found") Hc)
      as [e He].
    { unfold label_position. by rewrite position_of_None. }
    split; exists e.
    + unfold _extract_loc, _compound_loc_to_iloc, loc_to_iloc. by rewrite He.
    + unfold __getitem__, _compound_loc_to_getitem_iloc, loc_to_iloc. by rewrite He.
Qed.

Lemma loc_lists_keep_values_witness :
  ∃ f', _extract_loc frame_3x3
          (Tuple [LocList [LStr "y"; LStr "w"]; LocList [LStr "r"; LStr "p"]])
        = Ok (RFrame f')
        ∧ labels (_index f') = [LStr "y"; LStr "w"]
        ∧ labels (_columns f') = [LStr "r"; LStr "p"]
        ∧ ∀ r c, r ∈ [LStr "y"; LStr "w"] → c ∈ [LStr "r"; LStr "p"] →
                 frame_at f' r c = frame_at frame_3x3 r c.
Proof.
  destruct (proj1 (loc_lists_keep_values frame_3x3 [LStr "y"; LStr "w"]
                     [LStr "r"; LStr "p"] frame_3x3_wf
                     ltac:(compute_done) ltac:(compute_done)))
    as [Hloc _]; [compute_done|compute_done|exact Hloc].
Defined.

(** ** Dropping missing values *)

Lemma mask_positions_all (m : list bool) :
  forallb id m = true → mask_positions m = seq 0 (length m).
Proof.
  unfold mask_positions.
  assert (∀ k, forallb id m = true →
               (λ p : nat * bool, p.1)
                 <$> filter (λ p, p.2 = true) (imap (λ i b, (k + i, b)) m)
               = seq k (length m)) as H; [|apply (H 0)].
  induction m as [|b m IH]; intros k Hall; [done|].
  apply andb_prop in Hall as [Hb Hall]. destruct b; [|done].
  cbn [imap length seq]. rewrite filter_cons_True by done.
  rewrite fmap_cons. cbn [fst]. rewrite Nat.add_0_r. f_equal.
  rewrite <- (IH (S k) Hall). do 2 f_equal. apply imap_ext. intros i b _. simpl.
  f_equal. lia.
Qed.

Lemma mask_positions_NoDup (m : list bool) : NoDup (mask_positions m).
Proof.
  unfold mask_positions.
  apply (sublist_NoDup _ ((λ p : nat * bool, p.1) <$> imap (λ i b, (i, b)) m)).
  2: { apply fmap_sublist, sublist_filter. }
  assert (∀ k, (λ p : nat * bool, p.1) <$> imap (λ i b, (k + i, b)) m
               = seq k (length m)) as H.
  { induction m as [|b m IH]; intros k; [done|].
    cbn [imap length seq fmap list_fmap fst]. rewrite Nat.add_0_r. f_equal.
    rewrite <- (IH (S k)). f_equal. apply imap_ext. intros i b' _. simpl.
    f_equal. lia. }
  specialize (H 0). cbn [Nat.add] in H. rewrite H. apply NoDup_seq.
Qed.

Lemma labels_at_NoDup (ls out : list label) (ps : list nat) :
  NoDup ls → NoDup ps → labels_at ls ps = Ok out → NoDup out.
Proof.
  intros Hls Hps Hout. apply NoDup_alt. intros i j l Hi Hj.
  destruct (labels_at_lookup _ _ _ _ _ Hout Hi) as (p & Hp & Hlp).
  destruct (labels_at_lookup _ _ _ _ _ Hout Hj) as (q & Hq & Hlq).
  assert (p = q) as -> by exact (NoDup_lookup ls p q l Hls Hlp Hlq).
  exact (NoDup_lookup ps i j q Hps Hp Hq).
Qed.

Lemma mask_key_selects (ix : IndexBase) (m : option (list bool)) (ls : list label) :
  NoDup (labels ix) → selected_labels ix (mask_key m) = Ok ls →
  NoDup ls
  ∧ (∀ i, mask_key m ≠ KInt i)
  ∧ (∀ bs, m = Some bs → forallb id bs = true → ls = labels ix).
Proof.
  intros Hix Hls. destruct m as [bs|]; cbn [mask_key] in *.
  - unfold selected_labels, select in Hls.
    destruct (decide (length bs = length (labels ix))) as [Hlen|]; [|done].
    cbn [mbind result_bind] in Hls. split; [|split; [done|]].
    + eapply labels_at_NoDup; [done| |done]. apply mask_positions_NoDup.
    + intros ? [= <-] Hall. rewrite mask_positions_all, Hlen, labels_at_seq in Hls by done.
      by injection Hls as <-.
  - rewrite selected_labels_null in Hls by (by left). injection Hls as <-. done.
Qed.

(** [dropna] returns a Frame over the rows and the columns that the store
    says to keep, in which every kept pair of labels leads to the value it
    leads to in the frame; the name and the class are kept.  A [Frame] of
    which everything is kept on both axes is returned itself. *)
Theorem dropna_keeps_values
    (TypeBlocks_dropna_to_keep_locations
      : TypeBlocks → Z → (list bool → bool)
        → result (option (list bool) * option (list bool)))
    (self : Frame) (axis : Z) (condition : list bool → bool)
    (row_key column_key : option (list bool)) (rl cl : list label) :
  Frame_wf self →
  TypeBlocks_dropna_to_keep_locations (_blocks self) axis condition
  = Ok (row_key, column_key) →
  selected_labels (_index self) (mask_key row_key) = Ok rl →
  selected_labels (_columns self) (mask_key column_key) = Ok cl →
  ∃ f, dropna TypeBlocks_dropna_to_keep_locations self axis condition = Ok (RFrame f)
       ∧ labels (_index f) = rl ∧ labels (_columns f) = cl
       ∧ _name f = _name self ∧ cls f = cls self
       ∧ (∀ r c, r ∈ rl → c ∈ cl → frame_at f r c = frame_at self r c)
       ∧ (cls self = Frame_cls →
          (∃ rm cm, row_key = Some rm ∧ column_key = Some cm
                    ∧ forallb id rm = true ∧ forallb id cm = true) →
          f = self).
Proof.
  intros Hwf Hkeep Hrl Hcl.
  pose proof Hwf as (_ & _ & _ & Hrn & Hcn & _).
  destruct (mask_key_selects _ _ _ Hrn Hrl) as (Hrnd & Hrk & Hrall).
  destruct (mask_key_selects _ _ _ Hcn Hcl) as (Hcnd & Hck & Hcall).
  destruct (extract_selected_values self _ _ rl cl Hwf Hrl Hcl Hrnd Hcnd Hrk Hck)
    as (f' & Hf' & Hl & Hc & Hnm & Hcls & Hat).
  unfold dropna. rewrite Hkeep. cbn [mbind result_bind].
  destruct (match cls self, row_key, column_key with
            | Frame_cls, Some rm, Some cm => forallb id rm && forallb id cm
            | _, _, _ => false
            end) eqn:E.
  - exists self. destruct (cls self) eqn:Ec; [|done].
    destruct row_key as [rm|]; [|done]. destruct column_key as [cm|]; [|done].
    apply andb_prop in E as [Er Ec'].
    rewrite (Hrall rm eq_refl Er), (Hcall cm eq_refl Ec'). done.
  - exists f'. split; [done|]. split; [done|]. split; [done|]. split; [done|].
    split; [done|]. split; [done|].
    intros Hc' (rm & cm & -> & -> & Hr & Hcm). by rewrite Hc', Hr, Hcm in E.
Qed.

Lemma frame_nan_wf : Frame_wf frame_nan.
Proof.
  unfold Frame_wf, TypeBlocks_wf. simpl.
  repeat split; try reflexivity; try compute_done; repeat constructor.
Qed.

Lemma dropna_keeps_values_witness :
  ∃ f, dropna keep_rows frame_nan 0 (forallb id) = Ok (RFrame f)
       ∧ labels (_index f) = [LStr "a"]
       ∧ labels (_columns f) = [LStr "p"; LStr "q"]
       ∧ ∀ r c, r ∈ [LStr "a"] → c ∈ [LStr "p"; LStr "q"] →
                frame_at f r c = frame_at frame_nan r c.
Proof.
  destruct (dropna_keeps_values keep_rows frame_nan 0 (forallb id)
              (Some [true; false]) None [LStr "a"] [LStr "p"; LStr "q"]
              frame_nan_wf eq_refl eq_refl eq_refl)
    as (f & Hf & Hl & Hc & _ & _ & Hat & _).
  by exists f.
Defined.

(** ** Binary operators align by label *)

Lemma frame_at_cell (f : Frame) (r c : label) (i j : nat) :
  NoDup (labels (_index f)) → NoDup (labels (_columns f)) →
  labels (_index f) !! i = Some r → labels (_columns f) !! j = Some c →
  frame_at f r c = cell (_blocks f) i j.
Proof.
  intros Hrn Hcn Hi Hj. unfold frame_at.
  by rewrite (position_of_lookup _ i r), (position_of_lookup _ j c).
Qed.

(** A binary operator on two frames aligns them by label before it
    computes.  Both frames are reindexed onto the union of the row labels
    and the union of the column labels, with NaN where a frame has no value,
    and the result has, at every pair of these labels, the operator applied
    to the two values; it has no name.  A frame whose columns are of the
    other kind than the union makes the call raise. *)
Theorem binary_operator_aligns
    (Index_union : IndexBase → IndexBase → IndexBase)
    (TypeBlocks_ufunc_binary_operator
      : (element → element → element) → TypeBlocks → StoreOther → result TypeBlocks)
    (self other : Frame) (operator : element → element → element) :
  let ci := Index_union (_columns self) (_columns other) in
  let ri := Index_union (_index self) (_index other) in
  Frame_wf self → Frame_wf other →
  NoDup (labels ri) → NoDup (labels ci) →
  STATIC ci = COLUMN_CONSTRUCTOR_STATIC (cls self) →
  (COLUMN_CONSTRUCTOR_STATIC (cls other) = COLUMN_CONSTRUCTOR_STATIC (cls self) →
   (∀ f1 f2, reindex self (InitIndex ri) (InitIndex ci) VNaN = Ok f1 →
             reindex other (InitIndex ri) (InitIndex ci) VNaN = Ok f2 →
      ∃ tb, TypeBlocks_ufunc_binary_operator operator (_blocks f1)
              (StoreBlocks (_blocks f2)) = Ok tb
            ∧ shape tb = shape (_blocks f1)
            ∧ ∀ i j, cell tb i j
                     = (a ← cell (_blocks f1) i j; b ← cell (_blocks f2) i j;
                        Some (operator a b))) →
   ∃ f, _ufunc_binary_operator Index_union TypeBlocks_ufunc_binary_operator self operator
          (OtherFrame other) = Ok f
        ∧ labels (_index f) = labels ri ∧ labels (_columns f) = labels ci
        ∧ _name f = None ∧ cls f = cls self
        ∧ ∀ r c, r ∈ labels ri → c ∈ labels ci →
            frame_at f r c
            = Some (operator (default VNaN (frame_at self r c))
                             (default VNaN (frame_at other r c))))
  ∧ (COLUMN_CONSTRUCTOR_STATIC (cls other) ≠ COLUMN_CONSTRUCTOR_STATIC (cls self) →
     _ufunc_binary_operator Index_union TypeBlocks_ufunc_binary_operator self operator
       (OtherFrame other)
     = Raise (Exception_
         "static status of index does not match expected column static status")).
Proof.
  intros ci ri Hself Hother Hrn Hcn Hstatic.
  destruct (reindex_aligned self ri ci VNaN Hself Hrn Hcn Hstatic)
    as (f1 & Hf1 & Hl1 & Hc1 & Hat1).
  split.
  - intros Hkind Hop.
    destruct (reindex_aligned other ri ci VNaN Hother Hrn Hcn) as (f2 & Hf2 & Hl2 & Hc2 & Hat2).
    { by rewrite Hkind. }
    destruct (Hop f1 f2 Hf1 Hf2) as (tb & Htb & Hshape & Hcell).
    destruct (reindex_checked _ _ _ _ _ Hf1) as [Hck2 Hck1].
    unfold _ufunc_binary_operator. fold ci ri. rewrite Hf1. cbn [mbind result_bind].
    rewrite Hf2. cbn [mbind result_bind]. rewrite Htb. cbn [mbind result_bind].
    rewrite Frame_init_objects; [|done|done|by rewrite Hshape, <- Hc1|].
    2: { rewrite Hshape, <- Hl1. exact Hck1. }
    eexists. split; [done|]. cbn [_index _columns _name cls _blocks].
    split; [by destruct (false || _)|]. split; [by destruct (false || _)|].
    split; [done|]. split; [done|].
    intros r c Hr Hc. pose proof Hr as [i Hi]%list_elem_of_lookup.
    pose proof Hc as [j Hj]%list_elem_of_lookup.
    rewrite (frame_at_cell _ r c i j); cbn [_index _columns _blocks].
    2, 3, 4, 5: by destruct (false || _).
    rewrite Hcell.
    rewrite <- (frame_at_cell f1 r c i j), <- (frame_at_cell f2 r c i j)
      by (by rewrite ?Hl1, ?Hc1, ?Hl2, ?Hc2).
    by rewrite (Hat1 r c Hr Hc), (Hat2 r c Hr Hc).
  - intros Hkind. unfold _ufunc_binary_operator. fold ci ri. rewrite Hf1.
    cbn [mbind result_bind]. unfold reindex. cbn [is_none andb negb].
    unfold reindex_target, Index_init. rewrite !decide_True by done.
    cbn [mbind result_bind].
    rewrite (bool_decide_eq_true_2 (STATIC ci ≠ _)) by (by rewrite Hstatic).
    done.
Qed.

Lemma frame_qr_wf : Frame_wf frame_qr.
Proof.
  unfold Frame_wf, TypeBlocks_wf. simpl.
  repeat split; try reflexivity; try compute_done; repeat constructor.
Qed.

Lemma binary_operator_aligns_witness :
  ∃ f, _ufunc_binary_operator union_sorted blocks_elementwise frame_ab element_add
         (OtherFrame frame_qr) = Ok f
       ∧ labels (_index f) = [LStr "a"; LStr "b"; LStr "d"]
       ∧ labels (_columns f) = [LStr "p"; LStr "q"; LStr "r"]
       ∧ frame_at f (LStr "a") (LStr "q") = Some (VInt 4)
       ∧ frame_at f (LStr "b") (LStr "q") = Some VNaN.
Proof.
  destruct (proj1 (binary_operator_aligns union_sorted blocks_elementwise frame_ab frame_qr
                     element_add frame_ab_wf frame_qr_wf
                     ltac:(compute_done) ltac:(compute_done) eq_refl) eq_refl)
    as (f & Hf & Hl & Hc & _ & _ & Hat).
  - intros f1 f2 H1 H2. vm_compute in H1, H2.
    injection H1 as <-. injection H2 as <-.
    eexists. split; [vm_compute; reflexivity|]. split; [reflexivity|].
    by intros [|[|[|i]]] [|[|[|j]]].
  - exists f. split; [exact Hf|]. split; [exact Hl|]. split; [exact Hc|].
    split; rewrite Hat; try reflexivity; compute_done.
Defined.

(** * Assignment by label *)

Lemma index_in_lookup (ps : list nat) (i p : nat) :
  NoDup ps → ps !! i = Some p → index_in ps p = Some i.
Proof.
  intros Hnd Hp. unfold index_in.
  assert (list_find (λ x, x = p) ps = Some (i, p)) as ->; [|done].
  apply list_find_Some. split; [done|]. split; [done|].
  intros j y Hy Hlt ->. assert (i = j) by exact (NoDup_lookup ps i j p Hnd Hp Hy). lia.
Qed.

Lemma index_in_None (ps : list nat) (p : nat) : p ∉ ps → index_in ps p = None.
Proof.
  intros Hp. unfold index_in.
  destruct (list_find _ _) as [[i x]|] eqn:E; [|done].
  apply list_find_Some in E as (Hx & -> & _).
  destruct Hp. by eapply list_elem_of_lookup_2.
Qed.

Lemma tb_columns_imap_single {A} (f : nat → A → ndarray) (g : nat → A → list element)
    (l : list A) (sh : nat * nat) :
  (∀ i x, a_columns (f i x) = [g i x]) →
  tb_columns {| blocks := imap f l; shape := sh |} = imap g l.
Proof.
  revert f g. induction l as [|x l IH]; intros f g Hfg; [done|].
  cbn [imap]. rewrite tb_columns_cons, Hfg. cbn [app]. f_equal.
  apply IH. intros i y. apply Hfg.
Qed.

(** The store of an assignment has the shape of the store assigned to; a
    cell at a selected row and a selected column holds the value assigned to
    this place, every other cell the value it had. *)
Lemma extract_iloc_assign_cells (tb : TypeBlocks) (key : Compound GetItemKeyType)
    (rk ck : GetItemKeyType) (rows cols : list nat) (value : RawValue) :
  unpack_iloc_key key = Ok (rk, ck) →
  select (shape tb).1 rk = Ok rows → select (shape tb).2 ck = Ok cols →
  assign_shape_ok value (_extract_axis_not_multi rk ck).2 rows cols = true →
  ∃ tb', extract_iloc_assign tb key value = Ok tb'
         ∧ shape tb' = shape tb
         ∧ ∀ p q, cell tb' p q
                  = (λ old, match index_in cols q, index_in rows p with
                            | Some j, Some i =>
                                default old
                                  (assigned value (_extract_axis_not_multi rk ck).2 i j)
                            | _, _ => old
                            end) <$> cell tb p q.
Proof.
  intros Hkey Hrows Hcols Hok. unfold extract_iloc_assign.
  rewrite Hkey. cbn [mbind result_bind fst snd]. rewrite Hrows, Hcols.
  cbn [mbind result_bind]. rewrite Hok. cbn [negb].
  eexists. split; [done|]. split; [done|]. intros p q. unfold cell at 1.
  rewrite (tb_columns_imap_single _
             (λ c (tc : dtype * list element),
                match index_in cols c with
                | None => tc.2
                | Some j =>
                    imap (λ r old,
                      match index_in rows r with
                      | None => old
                      | Some i =>
                          default old
                            (assigned value (_extract_axis_not_multi rk ck).2 i j)
                      end) tc.2
                end)).
  2: { intros c tc. destruct (index_in cols c); reflexivity. }
  rewrite list_lookup_imap. unfold cell, tb_columns. rewrite list_lookup_fmap.
  destruct (typed_columns tb !! q) as [tc|]; [|done]. cbn [fmap option_fmap option_map
    mbind option_bind].
  destruct (index_in cols q) as [j|].
  - rewrite list_lookup_imap. by destruct (tc.2 !! p), (index_in rows p).
  - by destruct (tc.2 !! p).
Qed.

Lemma labels_at_NoDup_positions (ls out : list label) (ps : list nat) :
  labels_at ls ps = Ok out → NoDup out → NoDup ps.
Proof.
  intros Hout Hnd. apply NoDup_alt. intros i j p Hi Hj. unfold labels_at in Hout.
  destruct (mapM_Ok_lookup _ _ _ _ _ Hout Hi) as (l & Hl & Hlp).
  destruct (mapM_Ok_lookup _ _ _ _ _ Hout Hj) as (l' & Hl' & Hlp').
  assert (l = l') as <- by congruence.
  exact (NoDup_lookup out i j l Hnd Hl Hl').
Qed.

(** The place of a position among the selected positions is the place of
    its label among the selected labels. *)
Lemma selected_index_in (ls out : list label) (ps : list nat) (p : nat) (l : label) :
  NoDup ls → labels_at ls ps = Ok out → NoDup out → ls !! p = Some l →
  (∀ i, out !! i = Some l → index_in ps p = Some i)
  ∧ (l ∉ out → index_in ps p = None).
Proof.
  intros Hls Hout Hnd Hp. split.
  - intros i Hi. destruct (labels_at_lookup _ _ _ _ _ Hout Hi) as (p' & Hp' & Hlp').
    assert (p' = p) as -> by exact (NoDup_lookup ls p' p l Hls Hlp' Hp).
    apply index_in_lookup; [|done]. by eapply labels_at_NoDup_positions.
  - intros Hl. apply index_in_None. intros [i Hi]%list_elem_of_lookup.
    unfold labels_at in Hout. destruct (mapM_Ok_lookup _ _ _ _ _ Hout Hi) as (l' & Hl' & Hlp).
    rewrite Hp in Hlp. injection Hlp as <-. apply Hl. by eapply list_elem_of_lookup_2.
Qed.

Lemma Frame_wf_ok (f : Frame) : Frame_wf f → Frame_ok f.
Proof. intros (_ & Hr & Hc & Hrn & Hcn & Hrs & Hcs). by repeat split. Qed.

(** An assignment of plain values of the shape of the region: the frame
    returned has the labels of the frame assigned to; at the [i]-th selected
    row label and the [j]-th selected column label it has the value given
    for this place, and at every other pair of labels the value of the
    frame. *)
Lemma assign_raw_cells (self : Frame) (key : Compound GetItemKeyType)
    (rk ck : GetItemKeyType) (rl cl : list label) (value : RawValue)
    (fill_value : element) :
  Frame_wf self →
  unpack_iloc_key key = Ok (rk, ck) →
  selected_labels (_index self) rk = Ok rl →
  selected_labels (_columns self) ck = Ok cl →
  NoDup rl → NoDup cl →
  match value with
  | RawElement _ => True
  | Raw1D vs =>
      length vs = if (_extract_axis_not_multi rk ck).2 then length rl else length cl
  | Raw2D a => a_rows a = length rl ∧ width a = length cl
  end →
  ∃ f', FrameAssign_call {| container := self; iloc_key := key |} (AssignRaw value)
          fill_value = Ok f'
        ∧ _index f' = _index self ∧ _columns f' = _columns self
        ∧ (∀ i j r c v, rl !! i = Some r → cl !! j = Some c →
             assigned value (_extract_axis_not_multi rk ck).2 i j = Some v →
             frame_at f' r c = Some v)
        ∧ (∀ r c, r ∉ rl ∨ c ∉ cl → frame_at f' r c = frame_at self r c).
Proof.
  intros Hwf Hkey Hrl Hcl Hrnd Hcnd Hshape.
  pose proof Hwf as (Htb & Hrlen & Hclen & Hrn & Hcn & Hrs & Hcs).
  destruct (selected_positions _ _ _ Hrl) as (rows & Hrows & Hrb & Hrll).
  destruct (selected_positions _ _ _ Hcl) as (cols & Hcols & Hcb & Hcll).
  assert (labels_at (labels (_index self)) rows = Ok rl) as Hrat.
  { unfold selected_labels in Hrl. by rewrite Hrows in Hrl. }
  assert (labels_at (labels (_columns self)) cols = Ok cl) as Hcat.
  { unfold selected_labels in Hcl. by rewrite Hcols in Hcl. }
  rewrite Hrlen in Hrows. rewrite Hclen in Hcols.
  destruct (extract_iloc_assign_cells (_blocks self) key rk ck rows cols value
              Hkey Hrows Hcols) as (tb' & Htb' & Hsh & Hcell).
  { unfold assign_shape_ok. destruct value as [v|vs|a]; [done| |].
    - apply bool_decide_eq_true. rewrite Hshape, Hrll, Hcll. done.
    - destruct Hshape as [-> ->]. rewrite Hrll, Hcll.
      by rewrite !bool_decide_eq_true_2. }
  unfold FrameAssign_call. cbn [container iloc_key mbind result_bind].
  rewrite Htb'. cbn [mbind result_bind].
  rewrite (Frame_init_same_shape self tb' (_name self) (Frame_wf_ok _ Hwf) Hsh).
  eexists. split; [done|]. cbn [_index _columns _blocks].
  split; [done|]. split; [done|].
  destruct (wf_columns _ Htb) as [Hwidth Hheights].
  assert (∀ p q r c, labels (_index self) !! p = Some r → labels (_columns self) !! q = Some c →
            ∃ old, cell (_blocks self) p q = Some old) as Hold.
  { intros p q r c Hp Hq. unfold cell.
    destruct (lookup_lt_is_Some_2 (tb_columns (_blocks self)) q) as [col Hcol].
    { rewrite Hwidth, <- Hclen. by eapply lookup_lt_Some. }
    rewrite Hcol. cbn [mbind option_bind]. apply lookup_lt_is_Some_2.
    rewrite Forall_lookup in Hheights. rewrite (Hheights q col Hcol), <- Hrlen.
    by eapply lookup_lt_Some. }
  split.
  - intros i j r c v Hi Hj Hv.
    destruct (labels_at_lookup _ _ _ _ _ Hrat Hi) as (p & Hp & Hlp).
    destruct (labels_at_lookup _ _ _ _ _ Hcat Hj) as (q & Hq & Hlq).
    unfold frame_at. cbn [_index _columns _blocks].
    rewrite (position_of_lookup _ p r), (position_of_lookup _ q c) by done.
    cbn [mbind option_bind]. rewrite Hcell.
    destruct (Hold p q r c Hlp Hlq) as [old ->].
    rewrite (proj1 (selected_index_in _ _ _ p r Hrn Hrat Hrnd Hlp) i Hi).
    rewrite (proj1 (selected_index_in _ _ _ q c Hcn Hcat Hcnd Hlq) j Hj).
    cbn [fmap option_fmap option_map]. by rewrite Hv.
  - intros r c Hout. unfold frame_at. cbn [_index _columns _blocks].
    destruct (position_of (_index self) r) as [p|] eqn:Hp; [|done].
    destruct (position_of (_columns self) c) as [q|] eqn:Hq; [|done].
    cbn [mbind option_bind]. rewrite Hcell.
    apply position_of_Some in Hp, Hq.
    destruct (Hold p q r c Hp Hq) as [old ->]. cbn [fmap option_fmap option_map].
    destruct Hout as [Hr|Hc].
    + rewrite (proj2 (selected_index_in _ _ _ p r Hrn Hrat Hrnd Hp) Hr).
      by destruct (index_in cols q).
    + by rewrite (proj2 (selected_index_in _ _ _ q c Hcn Hcat Hcnd Hq) Hc).
Qed.

(** The store of a Frame reindexed onto unique row and column labels: it
    has a column for each column label, and is as high as the row labels
    are many when there is a column. *)
Lemma reindex_aligned_store (g : Frame) (ri ci : IndexBase) (fill_value : element) :
  Frame_wf g → NoDup (labels ri) → NoDup (labels ci) →
  STATIC ci = COLUMN_CONSTRUCTOR_STATIC (cls g) →
  ∃ g', reindex g (InitIndex ri) (InitIndex ci) fill_value = Ok g'
        ∧ labels (_index g') = labels ri ∧ labels (_columns g') = labels ci
        ∧ length (tb_columns (_blocks g')) = length (labels ci)
        ∧ (labels ci ≠ [] → (shape (_blocks g')).1 = length (labels ri)).
Proof.
  intros (Hwf & Hrlen & Hclen & Hrn & Hcn & Hrs & Hcs) Hri Hci Hstatic.
  unfold reindex. cbn [is_none andb negb].
  unfold reindex_target, Index_init. rewrite !decide_True by done. rewrite !index_eta.
  cbn [mbind result_bind].
  rewrite (bool_decide_eq_false_2 (STATIC ci ≠ _)) by (intros H; by apply H).
  cbn [mbind result_bind].
  destruct (resize_blocks_aligned (_blocks g) (from_correspondence (_index g) ri)
              (from_correspondence (_columns g) ci) fill_value Hwf)
    as (bs & cols & -> & Hrows & Hcols & Hl & _).
  { rewrite <- Hrlen. apply correspondence_bound. }
  { rewrite <- Hclen. apply correspondence_bound. }
  cbn [mbind result_bind].
  destruct (from_blocks_uniform bs _ Hrows) as (sh & -> & Hsh2 & Hsh1 & Hsh1').
  cbn [mbind result_bind].
  destruct (tb_columns_singles bs cols sh Hcols) as [Htc Hsum].
  unfold from_correspondence in Hl, Hsh1, Hsh1'. rewrite length_fmap in Hl, Hsh1, Hsh1'.
  rewrite Frame_init_objects; try done; simpl.
  2: { by rewrite Hsh2, Hsum. }
  2: { intros Hne. by rewrite (Hsh1 Hne). }
  eexists. split; [done|]. simpl.
  split; [by destruct (STATIC ri && true)|].
  split; [by destruct (STATIC ci && _)|].
  split; [by rewrite Htc|].
  intros Hne. apply Hsh1'. intros ->. apply Forall2_nil_inv_l in Hcols as ->.
  by destruct (labels ci).
Qed.

(** C7, as amended: an assignment from a labelled container first reindexes
    it by label onto the sub-labels of the target region, and the cells of
    the region take the values of the reindexed container, label by label.
    For a Series and a key that selects a single row, the frame returned
    has in this row, under every selected column label, the value the
    Series has at that label, or the fill value; for a key that selects a
    single column, the same along the selected row labels.  For a Frame
    with columns of the kind of the target's and a key that selects several
    rows and at least one of several columns, every cell of the region has
    the value the Frame has at the two labels of the cell, or the fill
    value.  In each case every cell outside the region keeps its value, and
    the labels are those of the frame assigned to.  A Frame with columns of
    the other kind is refused by [reindex], and every other combination of
    container and key raises; nothing is assigned then. *)
Theorem assign_realigns (self : Frame) (key : Compound GetItemKeyType)
    (rk ck : GetItemKeyType) (rl cl : list label) (fill_value : element) :
  Frame_wf self →
  unpack_iloc_key key = Ok (rk, ck) →
  selected_labels (_index self) rk = Ok rl →
  selected_labels (_columns self) ck = Ok cl →
  NoDup rl → NoDup cl →
  let fa := {| container := self; iloc_key := key |} in
  (∀ s, Series_wf s → _extract_axis_not_multi rk ck = (true, false) →
     ∃ s' f', _reindex_other_like_iloc self (CSeries s) key fill_value = Ok (CSeries s')
              ∧ labels (s_index s') = cl
              ∧ (∀ l, l ∈ cl → series_at s' l = Some (default fill_value (series_at s l)))
              ∧ FrameAssign_call fa (AssignContainer (CSeries s)) fill_value = Ok f'
              ∧ _index f' = _index self ∧ _columns f' = _columns self
              ∧ (∀ r c, r ∈ rl → c ∈ cl →
                   frame_at f' r c = Some (default fill_value (series_at s c)))
              ∧ (∀ r c, r ∉ rl ∨ c ∉ cl → frame_at f' r c = frame_at self r c))
  ∧ (∀ s, Series_wf s → _extract_axis_not_multi rk ck = (false, true) →
       ∃ s' f', _reindex_other_like_iloc self (CSeries s) key fill_value = Ok (CSeries s')
                ∧ labels (s_index s') = rl
                ∧ (∀ l, l ∈ rl →
                     series_at s' l = Some (default fill_value (series_at s l)))
                ∧ FrameAssign_call fa (AssignContainer (CSeries s)) fill_value = Ok f'
                ∧ _index f' = _index self ∧ _columns f' = _columns self
                ∧ (∀ r c, r ∈ rl → c ∈ cl →
                     frame_at f' r c = Some (default fill_value (series_at s r)))
                ∧ (∀ r c, r ∉ rl ∨ c ∉ cl → frame_at f' r c = frame_at self r c))
  ∧ (∀ g, Frame_wf g →
       COLUMN_CONSTRUCTOR_STATIC (cls g) = COLUMN_CONSTRUCTOR_STATIC (cls self) →
       _extract_axis_not_multi rk ck = (false, false) → cl ≠ [] →
       ∃ g' f', _reindex_other_like_iloc self (CFrame g) key fill_value = Ok (CFrame g')
                ∧ labels (_index g') = rl ∧ labels (_columns g') = cl
                ∧ (∀ r c, r ∈ rl → c ∈ cl →
                     frame_at g' r c = Some (default fill_value (frame_at g r c)))
                ∧ FrameAssign_call fa (AssignContainer (CFrame g)) fill_value = Ok f'
                ∧ _index f' = _index self ∧ _columns f' = _columns self
                ∧ (∀ r c, r ∈ rl → c ∈ cl →
                     frame_at f' r c = Some (default fill_value (frame_at g r c)))
                ∧ (∀ r c, r ∉ rl ∨ c ∉ cl → frame_at f' r c = frame_at self r c))
  ∧ (∀ g, COLUMN_CONSTRUCTOR_STATIC (cls g) ≠ COLUMN_CONSTRUCTOR_STATIC (cls self) →
       _extract_axis_not_multi rk ck = (false, false) →
       FrameAssign_call fa (AssignContainer (CFrame g)) fill_value
       = Raise (Exception_
           "static status of index does not match expected column static status"))
  ∧ (∀ c, assignable c (_extract_axis_not_multi rk ck) = false →
       FrameAssign_call fa (AssignContainer c) fill_value
       = Raise (Exception_ "cannot assign with key configuration")).
Proof.
  intros Hself Hkey Hrl Hcl Hrnd Hcnd fa.
  pose proof Hself as (Hwf & Hrlen & Hclen & Hrn & Hcn & Hrs & Hcs).
  assert (∀ c v, _reindex_other_like_iloc self c key fill_value = Ok v →
                 FrameAssign_call fa (AssignContainer c) fill_value
                 = FrameAssign_call fa (AssignRaw (container_values v)) fill_value)
    as Hcall.
  { intros c v Hv. unfold FrameAssign_call, fa. simpl. by rewrite Hv. }
  pose proof (not_int_not_single rk ck) as [Hnr Hnc].
  split; [|split; [|split; [|split]]].
  - intros s Hs Hnm. rewrite Hnm in Hnr, Hnc. simpl in Hnr, Hnc.
    destruct (Index_extract_multi _ ck cl Hcl Hcnd) as (ci & Hci & Hcil & _).
    { intros j ->. done. }
    destruct (Series_reindex_aligned s ci fill_value Hs) as (s' & Hs' & Hl & Hlen & Hat).
    { by rewrite Hcil. }
    assert (_reindex_other_like_iloc self (CSeries s) key fill_value = Ok (CSeries s'))
      as Hre.
    { unfold _reindex_other_like_iloc. rewrite Hkey. cbn [mbind result_bind].
      rewrite Hnm. cbn [andb negb]. rewrite Hci. cbn [mbind result_bind].
      by rewrite Hs'. }
    rewrite Hcil in Hl, Hlen, Hat.
    destruct (assign_raw_cells self key rk ck rl cl (Raw1D (s_values s')) fill_value
                Hself Hkey Hrl Hcl Hrnd Hcnd) as (f' & Hf' & Hfi & Hfc & Hin & Hout).
    { by rewrite Hnm. }
    exists s', f'. split; [done|]. split; [done|]. split; [done|].
    split; [by rewrite (Hcall _ _ Hre)|]. split; [done|]. split; [done|].
    split; [|done]. intros r c [i Hi]%list_elem_of_lookup Hc.
    pose proof Hc as [j Hj]%list_elem_of_lookup.
    apply (Hin i j r c); [done|done|]. rewrite Hnm. cbn [assigned snd].
    rewrite <- (Hat c Hc). unfold series_at.
    by rewrite (position_of_lookup (s_index s') j c) by (by rewrite Hl).
  - intros s Hs Hnm. rewrite Hnm in Hnr, Hnc. simpl in Hnr, Hnc.
    destruct (Index_extract_multi _ rk rl Hrl Hrnd) as (ri & Hri & Hril & _).
    { intros j ->. done. }
    destruct (Series_reindex_aligned s ri fill_value Hs) as (s' & Hs' & Hl & Hlen & Hat).
    { by rewrite Hril. }
    assert (_reindex_other_like_iloc self (CSeries s) key fill_value = Ok (CSeries s'))
      as Hre.
    { unfold _reindex_other_like_iloc. rewrite Hkey. cbn [mbind result_bind].
      rewrite Hnm. cbn [andb negb]. rewrite Hri. cbn [mbind result_bind].
      by rewrite Hs'. }
    rewrite Hril in Hl, Hlen, Hat.
    destruct (assign_raw_cells self key rk ck rl cl (Raw1D (s_values s')) fill_value
                Hself Hkey Hrl Hcl Hrnd Hcnd) as (f' & Hf' & Hfi & Hfc & Hin & Hout).
    { by rewrite Hnm. }
    exists s', f'. split; [done|]. split; [done|]. split; [done|].
    split; [by rewrite (Hcall _ _ Hre)|]. split; [done|]. split; [done|].
    split; [|done]. intros r c Hr [j Hj]%list_elem_of_lookup.
    pose proof Hr as [i Hi]%list_elem_of_lookup.
    apply (Hin i j r c); [done|done|]. rewrite Hnm. cbn [assigned snd].
    rewrite <- (Hat r Hr). unfold series_at.
    by rewrite (position_of_lookup (s_index s') i r) by (by rewrite Hl).
  - intros g Hg Hcls Hnm Hne. rewrite Hnm in Hnr, Hnc. simpl in Hnr, Hnc.
    destruct (Index_extract_multi _ rk rl Hrl Hrnd) as (ri & Hri & Hril & _).
    { intros j ->. done. }
    destruct (Index_extract_multi _ ck cl Hcl Hcnd) as (ci & Hci & Hcil & Hcis).
    { intros j ->. done. }
    destruct (reindex_aligned g ri ci fill_value Hg) as (g' & Hg' & Hgr & Hgc & Hat).
    { by rewrite Hril. }
    { by rewrite Hcil. }
    { by rewrite Hcis, Hcs. }
    destruct (reindex_aligned_store g ri ci fill_value Hg) as (g'' & Hg'' & _ & _ & Hw & Hh).
    { by rewrite Hril. }
    { by rewrite Hcil. }
    { by rewrite Hcis, Hcs. }
    rewrite Hg' in Hg''. injection Hg'' as <-.
    rewrite Hril in Hgr, Hat, Hh. rewrite Hcil in Hgc, Hat, Hw, Hh.
    assert (_reindex_other_like_iloc self (CFrame g) key fill_value = Ok (CFrame g'))
      as Hre.
    { unfold _reindex_other_like_iloc. rewrite Hkey. cbn [mbind result_bind].
      rewrite Hnm. cbn [andb negb]. rewrite Hci. cbn [mbind result_bind].
      rewrite Hri. cbn [mbind result_bind]. by rewrite Hg'. }
    destruct (assign_raw_cells self key rk ck rl cl (Raw2D (tb_values (_blocks g')))
                fill_value Hself Hkey Hrl Hcl Hrnd Hcnd)
      as (f' & Hf' & Hfi & Hfc & Hin & Hout).
    { split; [by apply Hh|]. exact Hw. }
    exists g', f'. split; [done|]. split; [done|]. split; [done|]. split; [done|].
    split; [by rewrite (Hcall _ _ Hre)|]. split; [done|]. split; [done|].
    split; [|done]. intros r c Hr Hc.
    pose proof Hr as [i Hi]%list_elem_of_lookup.
    pose proof Hc as [j Hj]%list_elem_of_lookup.
    apply (Hin i j r c); [done|done|]. cbn [assigned tb_values a_columns].
    rewrite <- (Hat r c Hr Hc).
    by rewrite (frame_at_cell g' r c i j) by (by rewrite ?Hgr, ?Hgc).
  - intros g Hcls Hnm. rewrite Hnm in Hnr, Hnc. simpl in Hnr, Hnc.
    destruct (Index_extract_multi _ rk rl Hrl Hrnd) as (ri & Hri & Hril & _).
    { intros j ->. done. }
    destruct (Index_extract_multi _ ck cl Hcl Hcnd) as (ci & Hci & Hcil & Hcis).
    { intros j ->. done. }
    unfold FrameAssign_call, fa. cbn [container iloc_key].
    assert (_reindex_other_like_iloc self (CFrame g) key fill_value
            = Raise (Exception_
                "static status of index does not match expected column static status"))
      as ->; [|done].
    unfold _reindex_other_like_iloc. rewrite Hkey. cbn [mbind result_bind].
    rewrite Hnm. cbn [andb negb]. rewrite Hci. cbn [mbind result_bind].
    rewrite Hri. cbn [mbind result_bind].
    unfold reindex, reindex_target, Index_init. cbn [is_none andb negb].
    destruct (decide (NoDup (labels ri))) as [_|Hn]; [|by rewrite Hril in Hn].
    cbn [mbind result_bind].
    rewrite bool_decide_eq_true_2; [done|]. rewrite Hcis, Hcs. congruence.
  - intros c Hc. unfold FrameAssign_call, fa. cbn [container iloc_key].
    assert (_reindex_other_like_iloc self c key fill_value
            = Raise (Exception_ "cannot assign with key configuration")) as ->; [|done].
    unfold _reindex_other_like_iloc. rewrite Hkey. cbn [mbind result_bind].
    by destruct (_extract_axis_not_multi rk ck) as [[|] [|]], c.
Qed.

Lemma assign_realigns_witness :
  ∃ s' f', _reindex_other_like_iloc frame_ab (CSeries series_qz)
             (Tuple [KInt 0; NULL_SLICE]) VNaN = Ok (CSeries s')
           ∧ labels (s_index s') = [LStr "p"; LStr "q"]
           ∧ (∀ l, l ∈ [LStr "p"; LStr "q"] →
                series_at s' l = Some (default VNaN (series_at series_qz l)))
           ∧ FrameAssign_call
               {| container := frame_ab; iloc_key := Tuple [KInt 0; NULL_SLICE] |}
               (AssignContainer (CSeries series_qz)) VNaN = Ok f'
           ∧ _index f' = _index frame_ab ∧ _columns f' = _columns frame_ab
           ∧ (∀ r c, r ∈ [LStr "a"] → c ∈ [LStr "p"; LStr "q"] →
                frame_at f' r c = Some (default VNaN (series_at series_qz c)))
           ∧ (∀ r c, r ∉ [LStr "a"] ∨ c ∉ [LStr "p"; LStr "q"] →
                frame_at f' r c = frame_at frame_ab r c).
Proof.
  apply (proj1 (assign_realigns frame_ab (Tuple [KInt 0; NULL_SLICE]) (KInt 0)
                  NULL_SLICE [LStr "a"] [LStr "p"; LStr "q"] VNaN frame_ab_wf
                  eq_refl eq_refl eq_refl ltac:(compute_done) ltac:(compute_done))
           series_qz).
  - split; [reflexivity|compute_done].
  - reflexivity.
Defined.

(** C7, the claim as stated fails: not every labelled container is
    reindexed and assigned.  A grow-only frame assigned to a region of a
    Frame is refused, its labels and its size notwithstanding, and so is a
    Series assigned to a region of several rows and several columns. *)
Lemma assign_container_refused :
  FrameAssign_call {| container := frame_ab; iloc_key := Tuple [NULL_SLICE; NULL_SLICE] |}
    (AssignContainer (CFrame frame_go_ab)) VNaN
  = Raise (Exception_
      "static status of index does not match expected column static status")
  ∧ FrameAssign_call {| container := frame_ab; iloc_key := Tuple [NULL_SLICE; NULL_SLICE] |}
      (AssignContainer (CSeries series_qz)) VNaN
    = Raise (Exception_ "cannot assign with key configuration").
Proof. split; reflexivity. Qed.

(** * The size invariant *)

(** The store and the counts the constructor has after its first stage,
    for data with a shape of its own. *)
Lemma Frame_init_shaped c data index columns name own_data own_index own_columns f0 :
  has_shape data = true →
  Frame_init c data InitNone InitNone name own_data false false = Ok f0 →
  Frame_init c data index columns name own_data own_index own_columns
  = (cc ← assign_index (COLUMN_CONSTRUCTOR_STATIC c) (COLUMN_CONSTRUCTOR_STATIC c)
            own_columns columns (Some (shape (_blocks f0)).2);
     rc ← assign_index true true own_index index (Some (shape (_blocks f0)).1);
     size_checks c (_blocks f0) cc.1 rc.1 name (default 0 rc.2) (default 0 cc.2)).
Proof.
  intros Hdata H0. unfold Frame_init in *.
  assert (∃ tb, match data with
                | DataBlocks tb =>
                    if own_data then Ok tb else TypeBlocks_from_blocks (blocks tb)
                | DataArray a | DataSequence a => TypeBlocks_from_blocks [a]
                | _ => Raise TypeError
                end = Ok tb) as [tb Htb].
  { destruct data as [tb|a| | |v|a]; try done.
    - destruct own_data; [eauto|]. destruct (TypeBlocks_from_blocks _); [eauto|done].
    - destruct (TypeBlocks_from_blocks _); [eauto|done].
    - destruct (TypeBlocks_from_blocks _); [eauto|done]. }
  assert (∀ columns index : IndexInitializer,
            match data with
            | DataBlocks tb =>
                if own_data then Ok (inl tb)
                else inl <$> TypeBlocks_from_blocks (blocks tb)
            | DataArray a => inl <$> TypeBlocks_from_blocks [a]
            | DataDict =>
                Raise (RuntimeError "use Frame.from_dict to create a Frmae from a dict")
            | DataNone =>
                if is_none columns || is_none index
                then Ok (inr (λ sh, Ok (TypeBlocks_from_none sh)))
                else Ok (inr (λ sh, TypeBlocks_from_blocks [np_full sh VNone]))
            | DataElement v => Ok (inr (λ sh, TypeBlocks_from_blocks [np_full sh v]))
            | DataSequence a => inl <$> TypeBlocks_from_blocks [a]
            end = Ok (inl tb : TypeBlocks + (nat * nat → result TypeBlocks))) as Hpre.
  { intros ? ?. destruct data as [tb'|a| | |v|a]; try done.
    - destruct own_data; [by injection Htb as ->|]. by rewrite Htb.
    - by rewrite Htb.
    - by rewrite Htb. }
  rewrite Hpre in H0. rewrite Hpre. cbn [mbind result_bind] in *.
  apply bind_Ok in H0 as ([cx cc] & Hcc & H0).
  apply bind_Ok in H0 as ([ix rc] & Hrc & H0).
  apply assign_index_count in Hcc as ->. apply assign_index_count in Hrc as ->.
  cbn [mbind result_bind default] in H0. apply size_checks_Ok in H0 as (-> & _ & _).
  cbn [_blocks].
  destruct (assign_index _ _ own_columns columns _) as [[cx' cc']|]; [|done].
  cbn [mbind result_bind].
  by destruct (assign_index _ _ own_index index _) as [[ix' rc']|].
Qed.

Lemma range_labels_NoDup (n : nat) : NoDup (range_labels n).
Proof.
  apply NoDup_fmap_2; [|apply NoDup_seq]. intros i j [= H]. lia.
Qed.

Lemma range_labels_length (n : nat) : length (range_labels n) = n.
Proof. unfold range_labels. by rewrite length_fmap, length_seq. Qed.

(** What the index assignment makes of an argument, for a store of [n]
    positions along the axis. *)
Lemma assign_index_argument static shared own init ols (n : nat) :
  argument_labels own init ols →
  ∃ ix, assign_index static shared own init (Some n) = Ok (ix, Some n)
        ∧ labels ix = default (range_labels n) ols.
Proof.
  intros H. unfold assign_index. destruct H as [->| -> | ls -> Hne Hnd | ix Hne Hnd].
  - exists {| labels := range_labels n; STATIC := static |}. split; [|done].
    cbn. unfold Index_range, Index_init. fold (range_labels n).
    by rewrite decide_True by apply range_labels_NoDup.
  - exists {| labels := range_labels n; STATIC := static |}. split; [|done].
    cbn. unfold Index_range, Index_init. fold (range_labels n).
    by rewrite decide_True by apply range_labels_NoDup.
  - exists {| labels := ls; STATIC := static |}. split; [|done].
    cbn. rewrite bool_decide_eq_false_2 by done. cbn.
    unfold Index_init. by rewrite decide_True.
  - cbn [is_static]. destruct (own || STATIC ix && shared).
    + by exists ix.
    + exists {| labels := labels ix; STATIC := static |}. split; [|done].
      cbn. rewrite bool_decide_eq_false_2 by done. cbn.
      unfold Index_init. by rewrite decide_True.
Qed.

(** The in-place operations keep the sizes in step. *)
Lemma setitem_checked (self : Frame) (key : label) (val : SetItemValue)
    (fill_value : element) :
  vector_value val → checked_update self (__setitem__ self key val fill_value).
Proof.
  intros Hval [Hc Hr]. unfold __setitem__.
  destruct (cls self); [done|]. case_match; [done|].
  match goal with |- (match ?m with _ => _ end).2 = _ → _ => destruct m as [tb|e] eqn:Htb end;
    [|done].
  apply bind_Ok in Htb as (a & Ha & Htb).
  unfold TypeBlocks_append in Htb. case_bool_decide as Hrows; [|done].
  injection Htb as <-. cbn [_columns set_blocks].
  destruct (Index_append (_columns self) key) as [ix|e] eqn:Hix; [|done].
  intros _. unfold Index_append in Hix. case_match; [done|]. injection Hix as <-.
  assert (width a = 1) as Hw.
  { destruct val as [s|b|vs|v|b]; cbn in Hval.
    - apply bind_Ok in Ha as (s' & _ & [= <-]). done.
    - destruct (_ || _) eqn:Hs in Ha; [done|]. injection Ha as ->.
      apply orb_false_iff in Hs as [Hs _]. apply bool_decide_eq_false in Hs.
      apply Hval. by apply dec_stable.
    - by injection Ha as <-.
    - by injection Ha as <-.
    - destruct (_ || _) eqn:Hs in Ha; [done|]. injection Ha as ->.
      apply orb_false_iff in Hs as [Hs _]. apply bool_decide_eq_false in Hs.
      apply Hval. by apply dec_stable. }
  split; cbn.
  - rewrite length_app. cbn. lia.
  - done.
Qed.

Lemma extend_items_checked (self : Frame) (pairs : list (label * SetItemValue))
    (fill_value : element) :
  Forall (λ p, vector_value p.2) pairs →
  checked_update self (extend_items self pairs fill_value).
Proof.
  intros Hp. revert self. induction Hp as [|[k v] pairs Hv _ IH]; intros self Hck.
  - done.
  - cbn [extend_items]. pose proof (setitem_checked self k v fill_value Hv Hck) as Hs.
    destruct (__setitem__ self k v fill_value) as [self' [[]|e]]; [|done].
    apply IH. by apply Hs.
Qed.

Lemma extend_checked (_requires_reindex : IndexBase → IndexBase → bool)
    (self : Frame) (container : Extension) (fill_value : element) :
  checked_update self (extend _requires_reindex self container fill_value).
Proof.
  intros Hck. unfold extend. destruct (cls self); [done|].
  case_bool_decide; [done|].
  match goal with |- (match ?m with _ => _ end).2 = _ → _ => destruct m as [[f|vs ix nm]|e] end;
    [| |done].
  - case_bool_decide; [done|].
    destruct (Index_extend _ _) as [cx|e]; [|done].
    destruct (TypeBlocks_extend _ _) as [tb|e] eqn:Htb; [|done].
    case_bool_decide as Hlen; [done|]. intros _.
    split; [done|]. cbn in *.
    unfold TypeBlocks_extend in Htb. case_bool_decide; [|done]. injection Htb as <-.
    cbn. apply Hck.
  - destruct (Index_append _ _) as [cx|e]; [|done].
    destruct (TypeBlocks_append _ _) as [tb|e] eqn:Htb; [|done].
    case_bool_decide as Hlen; [done|]. intros _.
    split; [done|]. cbn in *.
    unfold TypeBlocks_append in Htb. case_bool_decide; [|done]. injection Htb as <-.
    cbn. apply Hck.
Qed.

Lemma assign_index_not_runtime static shared own init count :
  ¬ is_runtime_error (assign_index static shared own init count).
Proof.
  unfold assign_index, owned, Index_range, Index_from, Index_init.
  repeat case_match; cbn; repeat case_match; cbn; tauto.
Qed.

Lemma Frame_init_unshaped c data index columns name own_data own_index own_columns :
  has_shape data = false → data ≠ DataDict →
  ¬ is_runtime_error
      (Frame_init c data index columns name own_data own_index own_columns).
Proof.
  intros Hdata Hdict. unfold Frame_init.
  assert (∃ blocks_constructor : nat * nat → result TypeBlocks,
            match data with
            | DataBlocks tb =>
                if own_data then Ok (inl tb)
                else inl <$> TypeBlocks_from_blocks (blocks tb)
            | DataArray a => inl <$> TypeBlocks_from_blocks [a]
            | DataDict =>
                Raise (RuntimeError "use Frame.from_dict to create a Frmae from a dict")
            | DataNone =>
                if is_none columns || is_none index
                then Ok (inr (λ sh, Ok (TypeBlocks_from_none sh)))
                else Ok (inr (λ sh, TypeBlocks_from_blocks [np_full sh VNone]))
            | DataElement v => Ok (inr (λ sh, TypeBlocks_from_blocks [np_full sh v]))
            | DataSequence a => inl <$> TypeBlocks_from_blocks [a]
            end = Ok (inr blocks_constructor)
            ∧ ∀ sh, ¬ is_runtime_error (blocks_constructor sh)) as (bc & -> & Hbc).
  { destruct data as [tb|a| | |v|a]; try done.
    - destruct (_ || _); eexists; split; try done; intros sh; [tauto|].
      unfold TypeBlocks_from_blocks. cbn. case_match; cbn; tauto.
    - eexists; split; [done|]. intros sh.
      unfold TypeBlocks_from_blocks. cbn. case_match; cbn; tauto. }
  cbn [mbind result_bind].
  pose proof (assign_index_not_runtime (COLUMN_CONSTRUCTOR_STATIC c)
                (COLUMN_CONSTRUCTOR_STATIC c) own_columns columns None) as Hc.
  destruct (assign_index _ _ own_columns columns None) as [[cx cc]|e]; [|done].
  cbn [mbind result_bind].
  pose proof (assign_index_not_runtime true true own_index index None) as Hr.
  destruct (assign_index _ _ own_index index None) as [[ix rc]|e]; [|done].
  cbn [mbind result_bind].
  specialize (Hbc (length (labels ix), length (labels cx))).
  destruct (bc _) as [tb|e]; [|done]. cbn [mbind result_bind].
  unfold size_checks.
  rewrite (bool_decide_eq_false_2 (length (labels ix) ≠ length (labels ix))) by tauto.
  rewrite andb_false_r.
  rewrite (bool_decide_eq_false_2 (length (labels cx) ≠ length (labels cx))) by tauto.
  tauto.
Qed.

Lemma Frame_init_arguments c data index columns name own_data own_index own_columns
    f0 il cl :
  has_shape data = true →
  Frame_init c data InitNone InitNone name own_data false false = Ok f0 →
  argument_labels own_index index il →
  argument_labels own_columns columns cl →
  let r := (shape (_blocks f0)).1 in
  let k := (shape (_blocks f0)).2 in
  ((∃ ls, cl = Some ls ∧ length ls ≠ k) ∨ (r ≠ 0 ∧ ∃ ls, il = Some ls ∧ length ls ≠ r) →
   is_runtime_error
     (Frame_init c data index columns name own_data own_index own_columns))
  ∧ ((∀ ls, cl = Some ls → length ls = k) →
     (r ≠ 0 → ∀ ls, il = Some ls → length ls = r) →
     ∃ f, Frame_init c data index columns name own_data own_index own_columns = Ok f
          ∧ _blocks f = _blocks f0
          ∧ labels (_index f) = default (range_labels r) il
          ∧ labels (_columns f) = default (range_labels k) cl).
Proof.
  intros Hdata H0 Hil Hcl. cbv zeta.
  rewrite (Frame_init_shaped c data index columns name own_data own_index own_columns f0
             Hdata H0).
  set (r := (shape (_blocks f0)).1). set (k := (shape (_blocks f0)).2).
  destruct (assign_index_argument (COLUMN_CONSTRUCTOR_STATIC c)
              (COLUMN_CONSTRUCTOR_STATIC c) own_columns columns cl k Hcl)
    as (cx & -> & Hcx).
  destruct (assign_index_argument true true own_index index il r Hil) as (ix & -> & Hix).
  cbn [mbind result_bind fst snd default]. unfold id, size_checks.
  rewrite Hcx, Hix. split.
  - intros [(ls & -> & Hlen)|(Hr & ls & -> & Hlen)]; cbn [default]; unfold id.
    + destruct (_ && _); [exact I|]. rewrite bool_decide_eq_true_2 by done. exact I.
    + rewrite !bool_decide_eq_true_2 by done. exact I.
  - intros Hc Hr.
    assert (length (default (range_labels k) cl) = k) as Hck.
    { destruct cl as [ls|]; cbn; [by apply Hc|apply range_labels_length]. }
    assert (r ≠ 0 → length (default (range_labels r) il) = r) as Hrk.
    { intros Hne. destruct il as [ls|]; cbn; [by apply Hr|apply range_labels_length]. }
    rewrite (bool_decide_eq_false_2 (length (default (range_labels k) cl) ≠ k))
      by (intros H; by apply H).
    destruct (decide (r = 0)) as [E|E].
    + rewrite (bool_decide_eq_false_2 (r ≠ 0)) by (intros H; by apply H).
      eexists. split; [done|]. by cbn.
    + rewrite (bool_decide_eq_false_2 (length (default (range_labels r) il) ≠ r))
        by (intros H; by apply H, Hrk).
      rewrite andb_false_r. eexists. split; [done|]. by cbn.
Qed.

Local Ltac checked H :=
  repeat first
    [ by apply Frame_init_checked in H
    | by apply extract_checked in H
    | by apply reindex_checked in H
    | by apply FrameAssign_call_checked in H
    | by apply from_concat_checked in H
    | done
    | apply bind_Ok in H as (? & _ & H)
    | match type of H with
      | context [match ?x with _ => _ end] => destruct x
      end ].

Local Ltac settle :=
  match goal with H : _ = Ok _ |- Frame_checked _ => checked H end.

(** C5, as amended: every frame the constructor returns has a column index
    as long as the store is wide, and a row index as long as the store is
    high whenever the store has a row at all; the index is not compared with
    a store of zero rows.  For data with a shape of its own (a store, an
    array, a sequence) and an index and a columns argument that are each
    absent (or an empty sequence) or a sequence or an index object of
    distinct labels, the constructor raises a RuntimeError when the columns
    given do not match the width of the data, or when the data has rows and
    the index given does not match their number; otherwise it returns a
    frame over that data with the labels given, and the positions as labels
    where none are given.  Without such data (no data, or a single element)
    the store is built to the size of the indices and no RuntimeError is
    raised.  Every operation that returns a frame returns one that passes
    these checks: extraction, reindexing, assignment, concatenation,
    renaming, the conversions between the two classes, and the operations
    on the values, whatever the store does there.  The in-place operations
    of the grow-only frame, [__setitem__], [extend_items] and [extend],
    leave a frame that passes the checks when they are called on one and
    return. *)
Theorem Frame_init_sizes :
  (* the constructor *)
  (∀ c data index columns name own_data own_index own_columns,
     checked_result (Frame_init c data index columns name own_data own_index own_columns))
  ∧ (∀ c data index columns name own_data own_index own_columns f0 il cl,
       has_shape data = true →
       Frame_init c data InitNone InitNone name own_data false false = Ok f0 →
       argument_labels own_index index il →
       argument_labels own_columns columns cl →
       let r := (shape (_blocks f0)).1 in
       let k := (shape (_blocks f0)).2 in
       ((∃ ls, cl = Some ls ∧ length ls ≠ k) ∨ (r ≠ 0 ∧ ∃ ls, il = Some ls ∧ length ls ≠ r) →
        is_runtime_error
          (Frame_init c data index columns name own_data own_index own_columns))
       ∧ ((∀ ls, cl = Some ls → length ls = k) →
          (r ≠ 0 → ∀ ls, il = Some ls → length ls = r) →
          ∃ f, Frame_init c data index columns name own_data own_index own_columns = Ok f
               ∧ _blocks f = _blocks f0
               ∧ labels (_index f) = default (range_labels r) il
               ∧ labels (_columns f) = default (range_labels k) cl))
  ∧ (∀ c data index columns name own_data own_index own_columns,
       has_shape data = false → data ≠ DataDict →
       ¬ is_runtime_error
           (Frame_init c data index columns name own_data own_index own_columns))
  (* the operations that return a frame *)
  ∧ (∀ self key, checked_extraction (_extract_iloc self key))
  ∧ (∀ self key, checked_extraction (_extract_loc self key))
  ∧ (∀ self key, checked_extraction (__getitem__ self key))
  ∧ (∀ self count, checked_extraction (Frame_head self count))
  ∧ (∀ self count, checked_extraction (Frame_tail self count))
  ∧ (∀ self index columns fill_value,
       checked_result (reindex self index columns fill_value))
  ∧ (∀ assign value fill_value, checked_result (FrameAssign_call assign value fill_value))
  ∧ (∀ c frames axis union index columns name consolidate_blocks_,
       checked_result
         (from_concat c frames axis union index columns name consolidate_blocks_))
  ∧ (∀ self name, checked_result (rename self name))
  ∧ (∀ self, checked_result (to_frame_go self))
  ∧ (∀ self, checked_result (to_frame self))
  (* the operations that work on the values through the store *)
  ∧ (∀ TypeBlocks_isna self, checked_result (isna TypeBlocks_isna self))
  ∧ (∀ TypeBlocks_notna self, checked_result (notna TypeBlocks_notna self))
  ∧ (∀ TypeBlocks_fillna self value, checked_result (fillna TypeBlocks_fillna self value))
  ∧ (∀ TypeBlocks_fillna_leading self value axis,
       checked_result (fillna_leading TypeBlocks_fillna_leading self value axis))
  ∧ (∀ TypeBlocks_fillna_trailing self value axis,
       checked_result (fillna_trailing TypeBlocks_fillna_trailing self value axis))
  ∧ (∀ TypeBlocks_shift_blocks self index columns fill_value,
       checked_result (shift TypeBlocks_shift_blocks self index columns fill_value))
  ∧ (∀ TypeBlocks_extract_iloc_mask self iloc_key key,
       checked_result (_extract_iloc_mask TypeBlocks_extract_iloc_mask self iloc_key)
       ∧ checked_result (_extract_loc_mask TypeBlocks_extract_iloc_mask self key)
       ∧ checked_result (_extract_getitem_mask TypeBlocks_extract_iloc_mask self key))
  ∧ (∀ TypeBlocks_drop Index_drop_iloc self iloc_key key,
       checked_result (_drop_iloc TypeBlocks_drop Index_drop_iloc self iloc_key)
       ∧ checked_result (_drop_loc TypeBlocks_drop Index_drop_iloc self key)
       ∧ checked_result (_drop_getitem TypeBlocks_drop Index_drop_iloc self key))
  ∧ (∀ TypeBlocks_astype_blocks astype dtype_ consolidate_blocks_,
       checked_result
         (FrameAsType_call TypeBlocks_astype_blocks astype dtype_ consolidate_blocks_))
  ∧ (∀ TypeBlocks_transpose self, checked_result (transpose TypeBlocks_transpose self))
  ∧ (∀ np_argsort TypeBlocks_iloc_rows TypeBlocks_getitem_columns self ascending,
       checked_result
         (sort_index np_argsort TypeBlocks_iloc_rows self ascending)
       ∧ checked_result
           (sort_columns np_argsort TypeBlocks_getitem_columns self ascending))
  ∧ (∀ TypeBlocks_dropna_to_keep_locations self axis condition,
       Frame_checked self →
       checked_extraction (dropna TypeBlocks_dropna_to_keep_locations self axis condition))
  ∧ (∀ TypeBlocks_ufunc_unary_operator self operator,
       checked_result (_ufunc_unary_operator TypeBlocks_ufunc_unary_operator self operator))
  ∧ (∀ Index_union TypeBlocks_ufunc_binary_operator self operator other,
       checked_result
         (_ufunc_binary_operator Index_union TypeBlocks_ufunc_binary_operator
            self operator other))
  (* the operations that change a frame in place *)
  ∧ (∀ self key value fill_value,
       vector_value value → checked_update self (__setitem__ self key value fill_value))
  ∧ (∀ self pairs fill_value,
       Forall (λ p, vector_value p.2) pairs →
       checked_update self (extend_items self pairs fill_value))
  ∧ (∀ _requires_reindex self container fill_value,
       checked_update self (extend _requires_reindex self container fill_value)).
Proof.
  unfold checked_result, checked_extraction. split_and!; intros.
  - by eapply Frame_init_checked.
  - by apply Frame_init_arguments.
  - by apply Frame_init_unshaped.
  - unfold _extract_iloc in *. settle.
  - unfold _extract_loc in *. settle.
  - unfold __getitem__ in *. settle.
  - unfold Frame_head, _extract_iloc in *. settle.
  - unfold Frame_tail, _extract_iloc in *. settle.
  - settle.
  - settle.
  - settle.
  - unfold rename in *. settle.
  - unfold to_frame_go in *. settle.
  - unfold to_frame in *. settle.
  - unfold isna in *. settle.
  - unfold notna in *. settle.
  - unfold fillna in *. settle.
  - unfold fillna_leading in *. settle.
  - unfold fillna_trailing in *. settle.
  - unfold shift in *. settle.
  - split_and!; intros;
      unfold _extract_loc_mask, _extract_getitem_mask, _extract_iloc_mask in *; settle.
  - split_and!; intros; unfold _drop_loc, _drop_getitem, _drop_iloc in *; settle.
  - unfold FrameAsType_call in *. settle.
  - unfold transpose in *. settle.
  - split; intros; unfold sort_index, sort_columns in *; settle.
  - unfold dropna in *.
    match goal with H : _ = Ok _ |- _ => apply bind_Ok in H as ([rk ck] & _ & H);
      match type of H with (if ?b then _ else _) = _ => destruct b end;
      [by injection H as <-|by apply extract_checked in H] end.
  - unfold _ufunc_unary_operator in *. settle.
  - unfold _ufunc_binary_operator in *. destruct other; settle.
  - by apply setitem_checked.
  - by apply extend_items_checked.
  - apply extend_checked.
Qed.

Lemma Frame_init_sizes_witness :
  (is_runtime_error
     (Frame_init Frame_cls (DataArray ints_2x2) (InitIndex (index_of ["a"])) InitNone
        None false false false)
   ∧ ∃ f, Frame_init Frame_cls (DataArray ints_2x2) (InitIndex (index_of ["a"; "b"]))
            InitNone None false false false = Ok f
          ∧ labels (_index f) = [LStr "a"; LStr "b"]
          ∧ labels (_columns f) = [LInt 0; LInt 1])
  ∧ Frame_checked
      (extend (λ a b, bool_decide (labels a ≠ labels b)) frame_go_ab
         (ExtendFrame frame_rs) VNaN).1.
Proof.
  destruct Frame_init_sizes as (_ & Hinit & Hrest). split; [split|].
  - refine (proj1 (Hinit Frame_cls (DataArray ints_2x2) (InitIndex (index_of ["a"]))
                     InitNone None false false false _ (Some [LStr "a"]) None
                     eq_refl eq_refl _ _) _).
    + apply (argument_index false (index_of ["a"])); [done|apply NoDup_singleton].
    + by apply argument_none.
    + right. split; [cbn; lia|]. exists [LStr "a"]. split; [done|cbn; lia].
  - destruct (proj2 (Hinit Frame_cls (DataArray ints_2x2) (InitIndex (index_of ["a"; "b"]))
                     InitNone None false false false _ (Some [LStr "a"; LStr "b"]) None
                     eq_refl eq_refl
                     (argument_index false (index_of ["a"; "b"])
                        ltac:(done) ltac:(compute_done))
                     (argument_none false eq_refl)))
      as (f & Hf & _ & Hi & Hc).
    + by intros ls [=].
    + by intros _ ls [= <-].
    + by exists f.
  - apply Hrest; [|reflexivity]. split; [reflexivity|]. by intros _.
Defined.

(** * Atomic methods *)

(** ** Valid frames from the constructor *)












(** ** Reindexing *)

Lemma mapM_correspondence_length (src : list element) (fill_value : element)
    (ic : list (option nat)) (vs : list element) :
  mapM (λ m, match m with
             | Some r => or_raise IndexError (src !! r)
             | None => Ok fill_value
             end) ic = Ok vs →
  length vs = length ic.
Proof. intros H. by apply mapM_result_length in H. Qed.





(** ** Extraction *)







(** ** Assignment *)



(** ** Concatenation *)









(** ** Methods on the heap *)

(** A program that assigns to no attribute leaves every object as it
    was. *)
Lemma run_reads_only {A} (p : Method A) (h : gmap positive Frame) :
  reads_only p → ∀ ref f, h !! ref = Some f → (run p h).1 !! ref = Some f.
Proof.
  revert h. induction p as [a|e|r k IH|r g k IH|g k IH]; intros h Hp ref f Hf; cbn in *.
  - done.
  - done.
  - destruct (h !! r) as [self|]; [|done]. by apply IH.
  - done.
  - apply IH; [done|]. rewrite lookup_insert_ne; [done|].
    intros <-. pose proof (is_fresh (dom h)) as Hfresh.
    apply Hfresh, elem_of_dom. by exists f.
Qed.







(** In contrast, item assignment and extension on a grow-only frame assign
    to the attributes of the frame they are called on. *)
Example setitem_writes :
  let h : gmap positive Frame := {[ 1%positive := frame_go_ab ]} in
  let out := run (heap_setitem 1%positive (LStr "r") (SetElement (VInt 0)) VNaN) h in
  out.2 = Ok ()
  ∧ (labels ∘ _columns) <$> out.1 !! 1%positive = Some [LStr "p"; LStr "q"; LStr "r"]
  ∧ ¬ reads_only (heap_setitem 1%positive (LStr "r") (SetElement (VInt 0)) VNaN)
  ∧ ¬ reads_only (heap_extend (λ _ _, false) 1%positive (ExtendFrame frame_rs) VNaN).
Proof.
  split; [reflexivity|]. split; [reflexivity|].
  split; intros H; exact (H frame_go_ab).
Qed.
